(** * YoutubeClipZap: timestamps and subtitle trimming of [main.py]

    A shallow embedding of the time and subtitle logic of the class
    [YouTubeProcessor]: [parse_timestamp], [validate_timestamps],
    [_format_duration], [_trim_subtitle_file], [_srt_time_to_seconds] and
    [_seconds_to_srt_time]; and, further down, of [_format_number],
    [validate_url], the language list ([get_subtitle_languages],
    [select_subtitle_language]), the prompts ([get_user_input],
    [ask_yes_no], [get_quality_choice]) and the file names of
    [download_and_trim].

    Conventions of the embedding.
    - A Python [str] is a [string]; each [ascii] stands for the code point of
      the same number, so the texts covered are those over code points below
      256.  In that range the white space of [str.strip] is 9-13, 28-32,
      133 and 160, that of [int] and [float] is the same without 28-31, and
      the only decimal digits are 0-9.
    - A Python [int] is a [Z].  A Python [float] is an IEEE 754 binary64
      value, a [spec_float] operated on with precision 53 and [emax] 1024.
    - A computation that may raise is a [result]: [Ok v] or [Raise e].
    - The interpreter's configurable cap on the number of digits [int]
      accepts (sys.int_max_str_digits) is not part of the model. *)

From Stdlib Require Import ZArith List String Ascii Bool Lia.
From Stdlib Require Import Floats.SpecFloat.
Import ListNotations.

Local Open Scope string_scope.
Local Open Scope Z_scope.

(* ================================================================== *)
(** * Exceptions *)

Inductive exn : Type :=
| ValueError (msg : string)
| TypeError (msg : string)
| IndexError
| OverflowError
| ZeroDivisionError
| OSError.

Inductive result (A : Type) : Type :=
| Ok (v : A)
| Raise (e : exn).
Arguments Ok {A} v.
Arguments Raise {A} e.

Definition bind {A B : Type} (c : result A) (k : A -> result B) : result B :=
  match c with
  | Ok v => k v
  | Raise e => Raise e
  end.

Declare Scope py_scope.
Delimit Scope py_scope with py.
Notation "x <- c ;; k" := (bind c (fun x => k))
  (at level 61, c at next level, right associativity) : py_scope.
Notation "' pat <- c ;; k" := (bind c (fun z => match z with pat => k end))
  (at level 61, pat pattern, c at next level, right associativity) : py_scope.
Local Open Scope py_scope.

(** [try: body  except <classes>: handler]: the handler runs when the body
    raises an exception the clause catches; any other exception goes on. *)
Definition try_except {A : Type} (body : result A) (catches : exn -> bool)
    (handler : exn -> result A) : result A :=
  match body with
  | Ok v => Ok v
  | Raise e => if catches e then handler e else Raise e
  end.

(** The clause [except (ValueError, TypeError)]. *)
Definition is_ValueError_or_TypeError (e : exn) : bool :=
  match e with
  | ValueError _ | TypeError _ => true
  | _ => false
  end.

(** A bare [except:] and [except Exception] catch every exception a model
    function raises. *)
Definition any_exception (e : exn) : bool := true.

(* ================================================================== *)
(** * Strings *)

Definition code (c : ascii) : Z := Z.of_N (N_of_ascii c).

(** [str.isspace] on one character. *)
Definition is_space (c : ascii) : bool :=
  let n := code c in
  ((9 <=? n) && (n <=? 13)) || ((28 <=? n) && (n <=? 32))
  || (n =? 133) || (n =? 160).

Definition is_digit (c : ascii) : bool :=
  let n := code c in (48 <=? n) && (n <=? 57).

Definition digit_value (c : ascii) : Z := code c - 48.

(** White space as [int] and [float] skip it around a literal: without
    the separators 28-31, which only [str.strip] removes. *)
Definition is_space_numeric (c : ascii) : bool :=
  let n := code c in
  ((9 <=? n) && (n <=? 13)) || (n =? 32) || (n =? 133) || (n =? 160).

Fixpoint lstrip (space : ascii -> bool) (s : string) : string :=
  match s with
  | EmptyString => EmptyString
  | String c s' => if space c then lstrip space s' else s
  end.

Fixpoint rstrip (space : ascii -> bool) (s : string) : string :=
  match s with
  | EmptyString => EmptyString
  | String c s' =>
      match rstrip space s' with
      | EmptyString => if space c then EmptyString else String c EmptyString
      | r => String c r
      end
  end.

(** [s.strip()] *)
Definition py_strip (s : string) : string :=
  rstrip is_space (lstrip is_space s).

(** The white space [int] and [float] ignore around their argument. *)
Definition strip_numeric (s : string) : string :=
  rstrip is_space_numeric (lstrip is_space_numeric s).

(** [s.split(sep)] for a separator that is not empty: the text is cut at each
    occurrence of [sep], found from the left, occurrences not overlapping.
    [skip] counts the characters of a separator still to be dropped; the
    result is the piece being read and the pieces after it. *)
Fixpoint split_from (sep : string) (skip : nat) (s : string)
  : string * list string :=
  match s with
  | EmptyString => (EmptyString, [])
  | String c s' =>
      match skip with
      | S k => split_from sep k s'
      | O =>
          if prefix sep s then
            let '(p, ps) := split_from sep (String.length sep - 1) s' in
            (EmptyString, p :: ps)
          else
            let '(p, ps) := split_from sep O s' in
            (String c p, ps)
      end
  end.

Definition py_split (s sep : string) : list string :=
  let '(p, ps) := split_from sep O s in p :: ps.

(** [sep.join(parts)] *)
Definition py_join (sep : string) (parts : list string) : string :=
  String.concat sep parts.

(** [s.replace(a, b)] for single characters [a] and [b]. *)
Fixpoint py_replace (a b : ascii) (s : string) : string :=
  match s with
  | EmptyString => EmptyString
  | String c s' => String (if Ascii.eqb c a then b else c) (py_replace a b s')
  end.

(** The line feed, and the lower-case form of an ASCII letter. *)
Definition LF : string := String (ascii_of_nat 10) EmptyString.

Definition lower (c : ascii) : ascii :=
  let n := code c in
  if (65 <=? n) && (n <=? 90) then ascii_of_N (Z.to_N (n + 32)) else c.

(* ================================================================== *)
(** * Integers: [int(str)], [str(int)] and the format [0wd] *)

(** The digits of an [int] literal after its first one: digits, each
    underscore standing between two digits. *)
Fixpoint int_digits (acc : Z) (after_underscore : bool) (s : string)
  : option Z :=
  match s with
  | EmptyString => if after_underscore then None else Some acc
  | String c s' =>
      if Ascii.eqb c "_" then
        if after_underscore then None else int_digits acc true s'
      else if is_digit c then int_digits (10 * acc + digit_value c) false s'
      else None
  end.

Definition starts_with_digit (s : string) : bool :=
  match s with
  | String c _ => is_digit c
  | EmptyString => false
  end.

(** An optional sign in front of [s]: whether it is a minus, and the rest. *)
Definition split_sign (s : string) : bool * string :=
  match s with
  | String c s' =>
      if Ascii.eqb c "-" then (true, s')
      else if Ascii.eqb c "+" then (false, s')
      else (false, s)
  | EmptyString => (false, s)
  end.

Definition invalid_int_literal : exn :=
  ValueError "invalid literal for int() with base 10".

(** [int(s)] for a [str], base 10: white space around, an optional sign,
    then digits with single underscores between them. *)
Definition py_int (s : string) : result Z :=
  let '(neg, body) := split_sign (strip_numeric s) in
  if starts_with_digit body then
    match int_digits 0 false body with
    | Some n => Ok (if neg then - n else n)
    | None => Raise invalid_int_literal
    end
  else Raise invalid_int_literal.

Definition digit_char (d : Z) : ascii := ascii_of_N (Z.to_N (48 + d)).

(** The decimal digits of [n >= 0] in front of [acc]; [fuel] bounds the
    number of digits written. *)
Fixpoint digits_of (fuel : nat) (n : Z) (acc : string) : string :=
  match fuel with
  | O => acc
  | S fuel' =>
      let acc' := String (digit_char (n mod 10)) acc in
      if n <? 10 then acc' else digits_of fuel' (n / 10) acc'
  end.

(** [str(n)] for [n >= 0]: a number below [2 ^ k] has at most [k] digits. *)
Definition str_nat (n : Z) : string :=
  digits_of (S (Z.to_nat (Z.log2 n))) n EmptyString.

Fixpoint zeros (k : nat) : string :=
  match k with
  | O => EmptyString
  | S k' => String "0" (zeros k')
  end.

(** Sign-aware zero padding of a number to [width] characters: the format
    flag [0]. *)
Definition zero_pad (width : nat) (neg : bool) (body : string) : string :=
  let sign := if neg then "-" else EmptyString in
  sign ++ zeros (width - String.length sign - String.length body) ++ body.

(** [f"{n}"] *)
Definition py_str_int (n : Z) : string :=
  zero_pad 0 (n <? 0) (str_nat (Z.abs n)).

(** [f"{n:02d}"] *)
Definition format_02d (n : Z) : string :=
  zero_pad 2 (n <? 0) (str_nat (Z.abs n)).

(* ================================================================== *)
(** * Floats: IEEE 754 binary64 *)

Definition prec : Z := 53.
Definition emax : Z := 1024.

Definition float : Type := spec_float.

Definition f_add : float -> float -> float := SFadd prec emax.
Definition f_sub : float -> float -> float := SFsub prec emax.
Definition f_div : float -> float -> float := SFdiv prec emax.

(** The float nearest to the integer [m * 2 ^ e] (ties to even), an infinity
    past the largest float. *)
Definition round_scaled (m e : Z) : float := binary_normalize prec emax m e false.

Definition float_of_Z (n : Z) : float := round_scaled n 0.

Definition is_nan (x : float) : bool :=
  match x with S754_nan => true | _ => false end.

Definition is_infinite (x : float) : bool :=
  match x with S754_infinity _ => true | _ => false end.

Definition is_zero (x : float) : bool :=
  match x with S754_zero _ => true | _ => false end.

Definition sign_bit (x : float) : bool :=
  match x with
  | S754_zero s | S754_infinity s | S754_finite s _ _ => s
  | S754_nan => false
  end.

(** [x < y], [x > y] on floats: false when one of them is a NaN. *)
Definition f_lt (x y : float) : bool := SFltb x y.
Definition f_gt (x y : float) : bool := SFltb y x.

(** The exact comparison of a float with an [int], as Python makes it; no
    result when the float is a NaN. *)
Definition compare_float_int (x : float) (n : Z) : option comparison :=
  match x with
  | S754_nan => None
  | S754_infinity s => Some (if s then Lt else Gt)
  | S754_zero _ => Some (0 ?= n)
  | S754_finite s m e =>
      let v := cond_Zopp s (Zpos m) in
      Some (if 0 <=? e then v * 2 ^ e ?= n else v ?= n * 2 ^ (- e))
  end.

(** The float of the decimal [N * 10 ^ x] with the sign [neg], [N >= 0]:
    the nearest float, ties to even. *)
Definition float_of_decimal (neg : bool) (N x : Z) : float :=
  match N with
  | Zpos n =>
      if 0 <=? x then round_scaled (cond_Zopp neg (Zpos n * 10 ^ x)) 0
      else f_div (S754_finite neg n 0) (S754_finite false (Z.to_pos (10 ^ (- x))) 0)
  | _ => S754_zero neg
  end.

(** C's [fmod(x, y)]: the exact remainder [x - n * y], [n] the quotient
    truncated towards zero; it has the sign of [x]. *)
Definition f_fmod (x y : float) : float :=
  match x, y with
  | S754_nan, _ | _, S754_nan => S754_nan
  | S754_infinity _, _ => S754_nan
  | _, S754_zero _ => S754_nan
  | S754_zero _, _ => x
  | S754_finite _ _ _, S754_infinity _ => x
  | S754_finite sx mx ex, S754_finite _ my ey =>
      let e := Z.min ex ey in
      let r := Z.rem (Zpos mx * 2 ^ (ex - e)) (Zpos my * 2 ^ (ey - e)) in
      if r =? 0 then S754_zero sx
      else binary_normalize prec emax (cond_Zopp sx r) e false
  end.

(** C's [floor(x)]. *)
Definition f_floor (x : float) : float :=
  match x with
  | S754_finite s m e =>
      if 0 <=? e then x
      else
        let n := cond_Zopp s (Zpos m) / 2 ^ (- e) in
        if n =? 0 then S754_zero s else float_of_Z n
  | _ => x
  end.

(** The integer part of a finite float, towards zero. *)
Definition f_trunc (x : float) : Z :=
  match x with
  | S754_finite s m e =>
      cond_Zopp s (if 0 <=? e then Zpos m * 2 ^ e else Zpos m / 2 ^ (- e))
  | _ => 0
  end.

Definition f_half : float := S754_finite false 4503599627370496 (-53).
Definition f_one : float := float_of_Z 1.

(** [vx // wx] and [vx % wx] on floats, [wx] not zero, as CPython's
    [_float_div_mod] and [float_rem] compute them. *)
Definition f_mod (vx wx : float) : float :=
  let m := f_fmod vx wx in
  if is_zero m then S754_zero (sign_bit wx)
  else if negb (Bool.eqb (f_lt wx (S754_zero false)) (f_lt m (S754_zero false)))
       then f_add m wx
       else m.

Definition f_floordiv (vx wx : float) : float :=
  let m := f_fmod vx wx in
  let d := f_div (f_sub vx m) wx in
  let d :=
    if is_zero m then d
    else if negb (Bool.eqb (f_lt wx (S754_zero false)) (f_lt m (S754_zero false)))
         then f_sub d f_one
         else d in
  if is_zero d then S754_zero (sign_bit (f_div vx wx))
  else
    let fl := f_floor d in
    if f_gt (f_sub d fl) f_half then f_add fl f_one else fl.

(** ** [float(str)] *)

(** CPython first removes the underscores, each of which must stand between
    two digits; [prev] is the character before [s]. *)
Fixpoint drop_underscores (prev : ascii) (s : string) : option string :=
  match s with
  | EmptyString => if Ascii.eqb prev "_" then None else Some EmptyString
  | String c s' =>
      if Ascii.eqb c "_" then
        if is_digit prev then drop_underscores c s' else None
      else if Ascii.eqb prev "_" && negb (is_digit c) then None
      else option_map (String c) (drop_underscores c s')
  end.

(** A run of digits in front of [s]: [acc] extended by them, their number
    added to [count], and the rest of [s]. *)
Fixpoint read_digits (acc count : Z) (s : string) : Z * Z * string :=
  match s with
  | String c s' =>
      if is_digit c then read_digits (10 * acc + digit_value c) (count + 1) s'
      else (acc, count, s)
  | EmptyString => (acc, count, s)
  end.

Fixpoint lower_string (s : string) : string :=
  match s with
  | EmptyString => EmptyString
  | String c s' => String (lower c) (lower_string s')
  end.

(** The exponent part of a decimal literal: nothing, or [e] or [E], an
    optional sign and at least one digit. *)
Definition read_exponent (s : string) : option Z :=
  match s with
  | EmptyString => Some 0
  | String c s' =>
      if Ascii.eqb (lower c) "e" then
        let '(neg, digits) := split_sign s' in
        match read_digits 0 0 digits with
        | (v, n, EmptyString) => if 0 <? n then Some (cond_Zopp neg v) else None
        | _ => None
        end
      else None
  end.

(** A decimal literal without sign: digits, an optional point and digits,
    one digit at least, then the exponent part.  The result [(N, x)] stands
    for [N * 10 ^ x]. *)
Definition read_decimal (s : string) : option (Z * Z) :=
  let '(ip, ni, r1) := read_digits 0 0 s in
  let '(N, nf, r2) :=
    match r1 with
    | String c r =>
        if Ascii.eqb c "." then read_digits ip 0 r else (ip, 0, r1)
    | EmptyString => (ip, 0, r1)
    end in
  if ni + nf =? 0 then None
  else match read_exponent r2 with
       | Some ex => Some (N, ex - nf)
       | None => None
       end.

Definition invalid_float_literal : exn :=
  ValueError "could not convert string to float".

Definition NUL : ascii := ascii_of_nat 0.

(** [float(s)] for a [str]. *)
Definition py_float (s : string) : result float :=
  match drop_underscores NUL s with
  | None => Raise invalid_float_literal
  | Some s =>
      let '(neg, body) := split_sign (strip_numeric s) in
      let word := lower_string body in
      if String.eqb word "inf" || String.eqb word "infinity"
      then Ok (S754_infinity neg)
      else if String.eqb word "nan" then Ok S754_nan
      else match read_decimal body with
           | Some (N, x) => Ok (float_of_decimal neg N x)
           | None => Raise invalid_float_literal
           end
  end.

(** ** The format [.3f] *)

(** [n / d] rounded to the nearest integer, ties to even ([d > 0]). *)
Definition div_nearest_even (n d : Z) : Z :=
  let q := n / d in
  match 2 * (n mod d) ?= d with
  | Lt => q
  | Gt => q + 1
  | Eq => if Z.even q then q else q + 1
  end.

(** The thousandths of the magnitude of a finite float, correctly rounded. *)
Definition thousandths (x : float) : Z :=
  match x with
  | S754_finite _ m e =>
      if 0 <=? e then 1000 * Zpos m * 2 ^ e
      else div_nearest_even (1000 * Zpos m) (2 ^ (- e))
  | _ => 0
  end.

(** The digits of [f"{x:.3f}"] without the sign. *)
Definition fixed3_body (x : float) : string :=
  match x with
  | S754_nan => "nan"
  | S754_infinity _ => "inf"
  | _ =>
      let k := thousandths x in
      str_nat (k / 1000) ++ "." ++ zero_pad 3 false (str_nat (k mod 1000))
  end.

(** [f"{x:06.3f}"] for a float. *)
Definition format_06_3f (x : float) : string :=
  zero_pad 6 (sign_bit x) (fixed3_body x).

(* ================================================================== *)
(** * Numbers: [int] or [float] *)

Inductive num : Type :=
| PyInt (n : Z)
| PyFloat (x : float).

(** The conversion of an operand to float in mixed arithmetic. *)
Definition to_float (a : num) : result float :=
  match a with
  | PyFloat x => Ok x
  | PyInt n =>
      let x := float_of_Z n in
      if is_infinite x then Raise OverflowError else Ok x
  end.

Definition py_add (a b : num) : result num :=
  match a, b with
  | PyInt m, PyInt n => Ok (PyInt (m + n))
  | _, _ => x <- to_float a ;; y <- to_float b ;; Ok (PyFloat (f_add x y))
  end.

Definition py_sub (a b : num) : result num :=
  match a, b with
  | PyInt m, PyInt n => Ok (PyInt (m - n))
  | _, _ => x <- to_float a ;; y <- to_float b ;; Ok (PyFloat (f_sub x y))
  end.

(** Comparison is exact also between an [int] and a [float]. *)
Definition num_compare (a b : num) : option comparison :=
  match a, b with
  | PyInt m, PyInt n => Some (m ?= n)
  | PyFloat x, PyInt n => compare_float_int x n
  | PyInt m, PyFloat y => option_map CompOpp (compare_float_int y m)
  | PyFloat x, PyFloat y => SFcompare x y
  end.

Definition py_lt (a b : num) : bool :=
  match num_compare a b with Some Lt => true | _ => false end.
Definition py_gt (a b : num) : bool :=
  match num_compare a b with Some Gt => true | _ => false end.
Definition py_le (a b : num) : bool :=
  match num_compare a b with Some (Lt | Eq) => true | _ => false end.

(** [max(a, b)] and [min(a, b)]: the first argument unless the second is
    strictly greater, respectively smaller. *)
Definition py_max (a b : num) : num := if py_gt b a then b else a.
Definition py_min (a b : num) : num := if py_lt b a then b else a.

(** [a // b] and [a % b] for a divisor [b] that is a positive [int]. *)
Definition py_floordiv (a : num) (b : Z) : num :=
  match a with
  | PyInt n => PyInt (n / b)
  | PyFloat x => PyFloat (f_floordiv x (float_of_Z b))
  end.

Definition py_mod (a : num) (b : Z) : num :=
  match a with
  | PyInt n => PyInt (n mod b)
  | PyFloat x => PyFloat (f_mod x (float_of_Z b))
  end.

(** [int(a)] *)
Definition py_int_of_num (a : num) : result Z :=
  match a with
  | PyInt n => Ok n
  | PyFloat S754_nan => Raise (ValueError "cannot convert float NaN to integer")
  | PyFloat (S754_infinity _) => Raise OverflowError
  | PyFloat x => Ok (f_trunc x)
  end.

(** [f"{a:06.3f}"]: an [int] is converted to float first. *)
Definition py_format_06_3f (a : num) : result string :=
  x <- to_float a ;; Ok (format_06_3f x).

(* ================================================================== *)
(** * Timestamps entered by the user *)

Definition timestamp_format_message : string :=
  "Timestamp must be in MM:SS or HH:MM:SS format (e.g., 1:30 or 1:30:45)".

(** [parse_timestamp(self, timestamp)] *)
Definition parse_timestamp (timestamp : string) : result Z :=
  try_except
    (let timestamp := py_strip timestamp in
     let parts := py_split timestamp ":" in
     match parts with
     | [p0; p1] =>
         minutes <- py_int p0 ;;
         seconds <- py_int p1 ;;
         Ok (minutes * 60 + seconds)
     | [p0; p1; p2] =>
         hours <- py_int p0 ;;
         minutes <- py_int p1 ;;
         seconds <- py_int p2 ;;
         Ok (hours * 3600 + minutes * 60 + seconds)
     | _ => Raise (ValueError "Invalid format")
     end)
    is_ValueError_or_TypeError
    (fun _ => Raise (ValueError timestamp_format_message)).

(** [_format_duration(self, seconds)] for an [int]. *)
Definition _format_duration (seconds : Z) : string :=
  if seconds =? 0 then "N/A"
  else
    let hours := seconds / 3600 in
    let minutes := (seconds mod 3600) / 60 in
    let secs := seconds mod 60 in
    if hours >? 0 then
      format_02d hours ++ ":" ++ format_02d minutes ++ ":" ++ format_02d secs
    else
      format_02d minutes ++ ":" ++ format_02d secs.

(** The part of [self.video_info] that [validate_timestamps] reads: the
    entry ['duration'], an [int] when the key is present. *)
Record video_info : Type := { duration : option Z }.

(** [self.video_info.get('duration', 0)] *)
Definition get_duration (info : video_info) : Z :=
  match duration info with
  | Some d => d
  | None => 0
  end.

(** [validate_timestamps(self, start_time, end_time)] *)
Definition validate_timestamps (info : video_info) (start_time end_time : string)
  : result (Z * Z) :=
  start_seconds <- parse_timestamp start_time ;;
  end_seconds <- parse_timestamp end_time ;;
  if start_seconds >=? end_seconds then
    Raise (ValueError "Start time must be before end time")
  else
    let video_duration := get_duration info in
    if start_seconds >=? video_duration then
      Raise (ValueError ("Start time exceeds video duration ("
                         ++ _format_duration video_duration ++ ")"))
    else if end_seconds >? video_duration then
      Raise (ValueError ("End time exceeds video duration ("
                         ++ _format_duration video_duration ++ ")"))
    else Ok (start_seconds, end_seconds).

(* ================================================================== *)
(** * Subtitle times *)

(** [parts[i]] *)
Definition py_index (parts : list string) (i : nat) : result string :=
  match nth_error parts i with
  | Some p => Ok p
  | None => Raise IndexError
  end.

(** [_srt_time_to_seconds(self, time_str)] *)
Definition _srt_time_to_seconds (time_str : string) : result num :=
  let time_str := py_replace "," "." time_str in
  let parts := py_split time_str ":" in
  p0 <- py_index parts 0 ;;
  hours <- py_int p0 ;;
  p1 <- py_index parts 1 ;;
  minutes <- py_int p1 ;;
  p2 <- py_index parts 2 ;;
  seconds <- py_float p2 ;;
  py_add (PyInt (hours * 3600 + minutes * 60)) (PyFloat seconds).

(** [_seconds_to_srt_time(self, seconds)] *)
Definition _seconds_to_srt_time (seconds : num) : result string :=
  hours <- py_int_of_num (py_floordiv seconds 3600) ;;
  minutes <- py_int_of_num (py_floordiv (py_mod seconds 3600) 60) ;;
  let secs := py_mod seconds 60 in
  secs_str <- py_format_06_3f secs ;;
  Ok (py_replace "." ","
        (format_02d hours ++ ":" ++ format_02d minutes ++ ":" ++ secs_str)).

(* ================================================================== *)
(** * Trimming a subtitle file *)

(** [start_time_str, end_time_str = time_line.split(' --> ')] *)
Definition unpack_pair (parts : list string) : result (string * string) :=
  match parts with
  | [a; b] => Ok (a, b)
  | _ :: _ :: _ :: _ => Raise (ValueError "too many values to unpack (expected 2)")
  | _ => Raise (ValueError "not enough values to unpack (expected 2)")
  end.

(** Lines 380-386: the overlap test of a cue [sub_start, sub_end) with the
    range, the new times, and the test that some duration is left. *)
Definition retime (start_seconds end_seconds : Z) (sub_start sub_end : num)
  : result (option (num * num)) :=
  if py_gt sub_end (PyInt start_seconds) && py_lt sub_start (PyInt end_seconds)
  then
    d_start <- py_sub sub_start (PyInt start_seconds) ;;
    let new_start := py_max (PyInt 0) d_start in
    d_end <- py_sub sub_end (PyInt start_seconds) ;;
    let new_end := py_min (PyInt (end_seconds - start_seconds)) d_end in
    if py_gt new_end new_start then Ok (Some (new_start, new_end))
    else Ok None
  else Ok None.

(** Lines 374-378: the two times of the cue, read from the second line of
    the block. *)
Definition cue_times (lines : list string) : result (num * num) :=
  time_line <- py_index lines 1 ;;
  '(start_time_str, end_time_str) <- unpack_pair (py_split time_line " --> ") ;;
  sub_start <- _srt_time_to_seconds start_time_str ;;
  sub_end <- _srt_time_to_seconds end_time_str ;;
  Ok (sub_start, sub_end).

(** The body of the inner [try] for the lines of a block: the two time
    strings and the text lines of the block to append, or nothing when the
    cue is outside the range or left without duration. *)
Definition retime_block (start_seconds end_seconds : Z) (lines : list string)
  : result (option (string * string * list string)) :=
  '(sub_start, sub_end) <- cue_times lines ;;
  times <- retime start_seconds end_seconds sub_start sub_end ;;
  match times with
  | Some (new_start, new_end) =>
      new_start_str <- _seconds_to_srt_time new_start ;;
      new_end_str <- _seconds_to_srt_time new_end ;;
      Ok (Some (new_start_str, new_end_str, skipn 2 lines))
  | None => Ok None
  end.

(** [f"{counter}\n{new_start_str} --> {new_end_str}\n" + '\n'.join(lines[2:])] *)
Definition new_block (counter : Z) (cue : string * string * list string)
  : string :=
  let '(new_start_str, new_end_str, text) := cue in
  py_str_int counter ++ LF ++ new_start_str ++ " --> " ++ new_end_str ++ LF
  ++ py_join LF text.

(** One turn of [for block in blocks] on the state
    [(trimmed_blocks, counter)]. *)
Definition trim_step (start_seconds end_seconds : Z)
    (state : list string * Z) (block : string) : list string * Z :=
  let '(trimmed_blocks, counter) := state in
  let lines := py_split (py_strip block) LF in
  if (3 <=? List.length lines)%nat then
    match retime_block start_seconds end_seconds lines with
    | Ok (Some cue) =>
        ((trimmed_blocks ++ [new_block counter cue])%list, counter + 1)
    | Ok None => state
    | Raise _ => state
    end
  else state.

(** The loop over the blocks, from no block written and the counter 1. *)
Definition trim_blocks (start_seconds end_seconds : Z) (blocks : list string)
  : list string :=
  fst (fold_left (trim_step start_seconds end_seconds) blocks ([], 1)).

(** [_trim_subtitle_file(self, input_srt, output_srt, start_seconds,
    end_seconds)].  [input_srt] is what opening and reading the input file
    gives, the text or the exception raised; the result is the text written
    to [output_srt]. *)
Definition _trim_subtitle_file (input_srt : result string)
    (start_seconds end_seconds : Z) : string :=
  match input_srt with
  | Ok content =>
      let blocks := py_split (py_strip content) (LF ++ LF) in
      py_join (LF ++ LF) (trim_blocks start_seconds end_seconds blocks)
  | Raise _ => EmptyString
  end.

(* ================================================================== *)
(** * Vocabulary of the statements *)

(** The colon-separated fields of a timestamp as [parse_timestamp] cuts
    them. *)
Definition fields (timestamp : string) : list string :=
  py_split (py_strip timestamp) ":".

(** Each field is an integer literal, with the values [vs]. *)
Definition integer_fields (fs : list string) (vs : list Z) : Prop :=
  Forall2 (fun f v => py_int f = Ok v) fs vs.

(** The timestamp splits into exactly 2 or 3 integer fields. *)
Definition well_formed_timestamp (timestamp : string) : Prop :=
  exists vs, integer_fields (fields timestamp) vs
             /\ (List.length vs = 2%nat \/ List.length vs = 3%nat).

(** The two kinds of error of section 7, both a [ValueError] in the code:
    the format error of [parse_timestamp] and the range errors of
    [validate_timestamps] for the duration [d]. *)
Definition FormatError : exn := ValueError timestamp_format_message.

Definition range_message (d : Z) (msg : string) : Prop :=
  msg = "Start time must be before end time"
  \/ msg = "Start time exceeds video duration (" ++ _format_duration d ++ ")"
  \/ msg = "End time exceeds video duration (" ++ _format_duration d ++ ")".

Definition raises_RangeError {A : Type} (d : Z) (r : result A) : Prop :=
  exists msg, r = Raise (ValueError msg) /\ range_message d msg.

(** The blocks of a file as [_trim_subtitle_file] cuts them. *)
Definition blocks_of (content : string) : list string :=
  py_split (py_strip content) (LF ++ LF).

(** The lines of a block as the loop of [_trim_subtitle_file] cuts them. *)
Definition lines_of (block : string) : list string :=
  py_split (py_strip block) LF.

(** A malformed block: fewer than three lines, or a time line that fails
    to parse. *)
Definition malformed (block : string) : Prop :=
  (List.length (lines_of block) < 3)%nat
  \/ exists e, cue_times (lines_of block) = Raise e.

(** What a block contributes to the output: its re-timed cue, or nothing. *)
Definition retimed_cue (start_seconds end_seconds : Z) (block : string)
  : option (string * string * list string) :=
  let lines := lines_of block in
  if (3 <=? List.length lines)%nat then
    match retime_block start_seconds end_seconds lines with
    | Ok (Some cue) => Some cue
    | _ => None
    end
  else None.

(** The block survives the trim. *)
Definition survives (start_seconds end_seconds : Z) (block : string) : Prop :=
  exists cue, retimed_cue start_seconds end_seconds block = Some cue.

(** The cues of the surviving blocks, in the order of the blocks. *)
Fixpoint retimed_cues (start_seconds end_seconds : Z) (blocks : list string)
  : list (string * string * list string) :=
  match blocks with
  | [] => []
  | block :: rest =>
      match retimed_cue start_seconds end_seconds block with
      | Some cue => cue :: retimed_cues start_seconds end_seconds rest
      | None => retimed_cues start_seconds end_seconds rest
      end
  end.

(** The cues written as blocks numbered [k], [k + 1], ... *)
Fixpoint number_from (k : Z) (cues : list (string * string * list string))
  : list string :=
  match cues with
  | [] => []
  | cue :: rest => new_block k cue :: number_from (k + 1) rest
  end.

(** A valid timestamp: two or three fields, each a non-negative integer. *)
Definition valid_timestamp (timestamp : string) : Prop :=
  exists vs, integer_fields (fields timestamp) vs
             /\ (List.length vs = 2%nat \/ List.length vs = 3%nat)
             /\ Forall (fun v => 0 <= v) vs.

(** Every character of the string satisfies [P]. *)
Fixpoint string_forall (P : ascii -> bool) (s : string) : bool :=
  match s with
  | EmptyString => true
  | String c s' => P c && string_forall P s'
  end.

(** A digit or a colon: the characters [_format_duration] writes for a
    duration that is not zero. *)
Definition is_digit_or_colon (c : ascii) : bool :=
  is_digit c || Ascii.eqb c ":".

(** Sample blocks: two cues in the order late, early, and a block whose
    time line is not one. *)
Definition block_late : string :=
  "7" ++ LF ++ "00:00:08,000 --> 00:00:09,500" ++ LF ++ "late".
Definition block_early : string :=
  "8" ++ LF ++ "00:00:04,000 --> 00:00:05,000" ++ LF ++ "early" ++ LF ++ "on".
Definition block_broken : string :=
  "9" ++ LF ++ "00:00:04,000 -> 00:00:05,000" ++ LF ++ "broken".

(** ** Rounding to binary64, made explicit *)

Definition fexp64 (e : Z) : Z := Z.max (e - 53) (-1074).

Definition finish (sx : bool) (m e : Z) : float :=
  if m =? 0 then S754_zero sx
  else if Zdigits2 m <=? 53 then
    if e <=? 971 then S754_finite sx (Z.to_pos m) e else S754_infinity sx
  else
    if e + 1 <=? 971 then S754_finite sx (Z.to_pos (m / 2)) (e + 1)
    else S754_infinity sx.

Definition round_pos (sx : bool) (m e : Z) : float :=
  let fe := fexp64 (Zdigits2 m + e) in
  finish sx (if fe <=? e then m * 2 ^ (e - fe)
             else div_nearest_even m (2 ^ (fe - e))) fe.

(** The value of a finite float in units of [2 ^ -1074], the larger of two
    neighbouring floats being at least that far apart. *)
Definition F2Z (x : float) : Z :=
  match x with
  | S754_finite s m e => cond_Zopp s (Zpos m * 2 ^ (e + 1074))
  | _ => 0
  end.

(** The value one and the threshold of overflow, [2 ^ 1024], in the units
    of [F2Z]. *)
Definition one64 : Z := 2 ^ 1074.
Definition top64 : Z := 2 ^ 2098.

(** The exponent of the last place of a value [z > 0], and [z] rounded to
    53 significant bits, ties to even. *)
Definition ulp_exp (z : Z) : Z := Z.max (Zdigits2 z - 53) 0.

Definition rnd (z : Z) : Z :=
  div_nearest_even z (2 ^ ulp_exp z) * 2 ^ ulp_exp z.

(** The mantissa [m] and the exponent [e] are those of a valid finite
    binary64 float. *)
Definition bounded64 (m : positive) (e : Z) : bool := bounded prec emax m e.

(** A value that a float can carry: at most 53 significant bits. *)
Definition representable (z : Z) : Prop :=
  exists m k, z = m * 2 ^ k /\ 0 <= m < 2 ^ 53 /\ 0 <= k.

(** A float that is a zero or finite, valid and not negative. *)
Definition nonneg_finite (x : float) : Prop :=
  match x with
  | S754_zero _ => True
  | S754_finite s m e => s = false /\ bounded prec emax m e = true
  | _ => False
  end.

(** ** Cues and the range *)

(** A float as the arithmetic produces it: when finite, its mantissa and
    exponent are the canonical ones. *)
Definition valid64 (x : float) : Prop := valid_binary prec emax x = true.

Definition w3600 : float := S754_finite false 7916483719987200 (-41).
Definition w60 : float := S754_finite false 8444249301319680 (-47).

(** One block read as a cue: its two times and its text lines. *)
Definition parse_cue (block : string) : option (float * float * list string) :=
  let lines := lines_of block in
  if (3 <=? List.length lines)%nat then
    match cue_times lines with
    | Ok (PyFloat sub_start, PyFloat sub_end) =>
        Some (sub_start, sub_end, skipn 2 lines)
    | _ => None
    end
  else None.

(** Section 4.3, steps 1 and 2, for the range from [s] to [e] seconds. *)
Definition overlaps (s e : Z) (sub_start sub_end : float) : bool :=
  py_gt (PyFloat sub_end) (PyInt s) && py_lt (PyFloat sub_start) (PyInt e).

Definition new_start (s : Z) (sub_start : float) : num :=
  py_max (PyInt 0) (PyFloat (f_sub sub_start (float_of_Z s))).

Definition new_end (s e : Z) (sub_end : float) : num :=
  py_min (PyInt (e - s)) (PyFloat (f_sub sub_end (float_of_Z s))).

(** The start of the range is a time a float can hold. *)
Definition in_float_range (s : Z) : Prop := is_infinite (float_of_Z s) = false.

Definition renders (a : num) : Prop :=
  exists t, _seconds_to_srt_time a = Ok t.

(** Lines 381 and 386: the cue overlaps the range, and its new end is
    greater than its new start. *)
Definition kept (s e : Z) (cue : float * float * list string) : bool :=
  let '(sub_start, sub_end, _) := cue in
  overlaps s e sub_start sub_end
  && py_gt (new_end s e sub_end) (new_start s sub_start).

(** A file of two cues, the later one first. *)
Definition two_cues : string := block_late ++ LF ++ LF ++ block_early.

(** ** Subtitle times, written and read *)

(** A number below 100 written with two digits, and one below 1000 with
    three. *)
Definition two_digits (n : Z) : string :=
  String (digit_char (n / 10)) (String (digit_char (n mod 10)) EmptyString).

Definition three_digits (n : Z) : string :=
  String (digit_char (n / 100)) (two_digits (n mod 100)).

(** The time of [h] hours, [m] minutes, [s] seconds and [ms] milliseconds
    in the form HH:MM:SS,mmm of a subtitle file. *)
Definition srt_time (h m s ms : Z) : string :=
  two_digits h ++ ":" ++ two_digits m ++ ":" ++ two_digits s ++ ","
  ++ three_digits ms.

(** The float [v] is a time within a quarter of a millisecond of [t]
    milliseconds. *)
Definition near_millisecond (v : float) (t : Z) : Prop :=
  nonneg_finite v /\ - one64 < 4 * (1000 * F2Z v - t * one64) < one64.

(** [P] holds of the [k] integers from [n] on, and of the integers from 0
    to [N - 1]. *)
Fixpoint all_from (k : nat) (n : Z) (P : Z -> bool) : bool :=
  match k with
  | O => true
  | S k' => P n && all_from k' (n + 1) P
  end.

Definition all_below (N : Z) (P : Z -> bool) : bool :=
  all_from (Z.to_nat N) 0 P.

(** The quotient [d] that [f_floordiv] computes from an exact multiple
    [q * w] of [w] reads as the integer [q]. *)
Definition floor_of_quotient (d : float) : float :=
  let fl := f_floor d in
  if f_gt (f_sub d fl) f_half then f_add fl f_one else fl.

Definition exact_quotient (w q : Z) : bool :=
  let d := f_div (float_of_Z (q * w)) (float_of_Z w) in
  negb (is_zero d)
  && match floor_of_quotient d with
     | S754_finite false m e => f_trunc (S754_finite false m e) =? q
     | _ => false
     end.

(** The same float, bit for bit. *)
Definition same_float (x y : float) : bool :=
  match x, y with
  | S754_zero a, S754_zero b | S754_infinity a, S754_infinity b =>
      Bool.eqb a b
  | S754_nan, S754_nan => true
  | S754_finite a m e, S754_finite b m' e' =>
      Bool.eqb a b && Pos.eqb m m' && Z.eqb e e'
  | _, _ => false
  end.

(** ** Signs of numbers *)

(** A number below zero, and one above zero, in Python's exact order of
    [int] and [float]. *)
Definition negative_num (a : num) : Prop := py_lt a (PyInt 0) = true.
Definition positive_num (a : num) : Prop := py_gt a (PyInt 0) = true.

(** ** The other functions of the program *)

(** ** Numbers with thousands separators *)

(** The digits of [n >= 0] in groups of three from the right with commas
    between the groups, as the format [,] writes them; [fuel] bounds the
    number of commas. *)
Fixpoint group_thousands (fuel : nat) (n : Z) : string :=
  match fuel with
  | O => str_nat n
  | S fuel' =>
      if n <? 1000 then str_nat n
      else group_thousands fuel' (n / 1000) ++ ","
           ++ zero_pad 3 false (str_nat (n mod 1000))
  end.

(** [f"{n:,}"] for an [int]. *)
Definition format_commas (n : Z) : string :=
  (if n <? 0 then "-" else EmptyString)
  ++ group_thousands (Z.to_nat (Z.log2 (Z.abs n))) (Z.abs n).

(** [_format_number(self, num)]: [num] is an [int], or [None] as the
    metadata gives it for a count that is hidden. *)
Definition _format_number (num : option Z) : string :=
  match num with
  | None => "0"
  | Some n => if n =? 0 then "0" else format_commas n
  end.

(** ** The prompts *)

(** What a call of [input()] meets: a line typed, without its line end, or
    Ctrl-C; where the list ends the input is closed.  The text that the
    prompts print is not part of the model. *)
Inductive event : Type :=
| Line (text : string)
| Interrupt.

(** How a prompt ends: it returns a value and leaves the input not read
    yet, it lets an exception out, or it ends the program with
    [sys.exit]. *)
Inductive outcome (A : Type) : Type :=
| Returned (value : A) (rest : list event)
| EOFError_raised
| KeyboardInterrupt_raised
| Raised (e : exn)
| Exited (status : Z).
Arguments Returned {A} value rest.
Arguments EOFError_raised {A}.
Arguments KeyboardInterrupt_raised {A}.
Arguments Raised {A} e.
Arguments Exited {A} status.

(** [get_user_input(prompt, validator)].  One turn of [while True] takes
    one unit of [fuel]; [None] says that the loop has not returned when the
    fuel is used up.  A closed input makes [input()] raise [EOFError], which
    [except Exception] catches like an error of the validator, so the loop
    goes round again.  The result of the validator is not looked at. *)
Fixpoint get_user_input {A : Type} (fuel : nat)
    (validator : option (string -> result A)) (inputs : list event)
  : option (outcome string) :=
  match fuel with
  | O => None
  | S fuel' =>
      match inputs with
      | [] => get_user_input fuel' validator []
      | Interrupt :: _ => Some (Exited 0)
      | Line text :: rest =>
          let user_input := py_strip text in
          if String.eqb user_input EmptyString
          then get_user_input fuel' validator rest
          else
            match validator with
            | None => Some (Returned user_input rest)
            | Some check =>
                match check user_input with
                | Ok _ => Some (Returned user_input rest)
                | Raise _ => get_user_input fuel' validator rest
                end
            end
      end
  end.

(** [str.lower] on the code points below 256. *)
Definition py_lower_char (c : ascii) : ascii :=
  let n := code c in
  if ((65 <=? n) && (n <=? 90)) || ((192 <=? n) && (n <=? 214))
     || ((216 <=? n) && (n <=? 222))
  then ascii_of_N (Z.to_N (n + 32)) else c.

Fixpoint py_lower (s : string) : string :=
  match s with
  | EmptyString => EmptyString
  | String c s' => String (py_lower_char c) (py_lower s')
  end.

(** [ask_yes_no(question)]: every turn of the loop reads a line. *)
Fixpoint ask_yes_no (inputs : list event) : outcome bool :=
  match inputs with
  | [] => EOFError_raised
  | Interrupt :: _ => KeyboardInterrupt_raised
  | Line text :: rest =>
      let answer := py_lower (py_strip text) in
      if String.eqb answer "y" || String.eqb answer "yes"
      then Returned true rest
      else if String.eqb answer "n" || String.eqb answer "no"
      then Returned false rest
      else ask_yes_no rest
  end.

(** [self.quality_options], and [get_quality_choice(self)]. *)
Definition quality_options : list (string * (string * string)) :=
  [("1", ("best[height<=360]/best", "360p"));
   ("2", ("best[height<=480]/best", "480p"));
   ("3", ("best[height<=720]/best", "720p"));
   ("4", ("best[height<=1080]/best", "1080p"));
   ("5", ("best", "Best available"))].

Fixpoint dict_get {V : Type} (d : list (string * V)) (key : string)
  : option V :=
  match d with
  | [] => None
  | (k, v) :: d' => if String.eqb k key then Some v else dict_get d' key
  end.

Fixpoint get_quality_choice (inputs : list event) : outcome string :=
  match inputs with
  | [] => EOFError_raised
  | Interrupt :: _ => KeyboardInterrupt_raised
  | Line text :: rest =>
      let choice := py_strip text in
      match dict_get quality_options choice with
      | Some (format_str, quality_name) => Returned format_str rest
      | None => get_quality_choice rest
      end
  end.

(** ** Subtitle languages *)

Section Languages.

(** The values of the subtitle dicts, the formats on offer, are not looked
    at.  [str.upper] leaves the code points below 256 (the upper case of
    [ÿ] is not among them), so it is left open. *)
Variable V : Type.
Variable py_upper : string -> string.

(** A [dict] with [str] keys: its items in the order of insertion, every
    key once. *)
Definition dict : Type := list (string * V).

Definition dict_keys (d : dict) : list string := map fst d.

Definition dict_has (d : dict) (key : string) : bool :=
  existsb (String.eqb key) (dict_keys d).

(** [d[key] = v]: the value is replaced where the key stands, a new key
    goes to the end. *)
Fixpoint dict_set (d : dict) (key : string) (v : V) : dict :=
  match d with
  | [] => [(key, v)]
  | (k, w) :: d' =>
      if String.eqb k key then (k, v) :: d' else (k, w) :: dict_set d' key v
  end.

(** [{**a, **b}] *)
Definition dict_merge (a b : dict) : dict :=
  fold_left (fun acc item => dict_set acc (fst item) (snd item)) b a.

(** The part of [self.video_info] that holds the subtitles: the entries
    ['subtitles'] and ['automatic_captions'], each a [dict] when the key is
    present. *)
Record subtitle_info : Type :=
  { subtitles : option dict; automatic_captions : option dict }.

(** [self.video_info.get(key, {})] *)
Definition get_dict (entry : option dict) : dict :=
  match entry with
  | Some d => d
  | None => []
  end.

(** Lines 85-90 of [fetch_stats]: the value it leaves in
    [self.available_subtitles]. *)
Definition all_subtitles (info : subtitle_info) : dict :=
  let available_subtitles := get_dict (subtitles info) in
  let auto_subtitles := get_dict (automatic_captions info) in
  dict_merge available_subtitles auto_subtitles.

Definition lang_names : list (string * string) :=
  [("en", "English"); ("es", "Spanish"); ("fr", "French"); ("de", "German");
   ("it", "Italian"); ("pt", "Portuguese"); ("ru", "Russian");
   ("ja", "Japanese"); ("ko", "Korean"); ("zh", "Chinese");
   ("ar", "Arabic"); ("hi", "Hindi")].

(** [_get_language_name(self, lang_code)] *)
Definition _get_language_name (lang_code : string) : string :=
  match dict_get lang_names lang_code with
  | Some name => name
  | None => py_upper lang_code
  end.

(** [get_subtitle_languages(self)] on the state [self.available_subtitles]
    and [self.video_info]. *)
Definition get_subtitle_languages (available_subtitles : dict)
    (info : subtitle_info) : list (string * string * string) :=
  match available_subtitles with
  | [] => []
  | _ :: _ =>
      let manual_subs := get_dict (subtitles info) in
      let auto_subs := get_dict (automatic_captions info) in
      List.app
        (map (fun lang => (lang, _get_language_name lang ++ " (Manual)", "manual"))
             (dict_keys manual_subs))
        (map (fun lang => (lang, _get_language_name lang ++ " (Auto)", "auto"))
             (filter (fun lang => negb (dict_has manual_subs lang))
                     (dict_keys auto_subs)))
  end.

(** The loop of [select_subtitle_language]: every turn reads a line;
    Ctrl-C at the prompt gives [None]. *)
Fixpoint select_loop (languages : list (string * string * string))
    (inputs : list event) : outcome (option string) :=
  match inputs with
  | [] => EOFError_raised
  | Interrupt :: rest => Returned None rest
  | Line text :: rest =>
      let choice := py_strip text in
      if String.eqb choice EmptyString then Returned None rest
      else
        match py_int choice with
        | Ok n =>
            let idx := n - 1 in
            if (0 <=? idx) && (idx <? Z.of_nat (List.length languages)) then
              match nth_error languages (Z.to_nat idx) with
              | Some selected => Returned (Some (fst (fst selected))) rest
              | None => Raised IndexError
              end
            else select_loop languages rest
        | Raise (ValueError _) => select_loop languages rest
        | Raise e => Raised e
        end
  end.

(** [select_subtitle_language(self)] *)
Definition select_subtitle_language (available_subtitles : dict)
    (info : subtitle_info) (inputs : list event) : outcome (option string) :=
  let languages := get_subtitle_languages available_subtitles info in
  match languages with
  | [] => Returned None inputs
  | _ :: _ => select_loop languages inputs
  end.

End Languages.

Arguments subtitles {V} _.
Arguments automatic_captions {V} _.
Arguments dict_keys {V} d.
Arguments dict_has {V} d key.
Arguments dict_set {V} d key v.
Arguments dict_merge {V} a b.
Arguments get_dict {V} entry.
Arguments all_subtitles {V} info.
Arguments get_subtitle_languages {V} py_upper available_subtitles info.
Arguments select_subtitle_language {V} py_upper available_subtitles info inputs.

(** The code of an entry of the list of languages. *)
Definition language_code (entry : string * string * string) : string :=
  fst (fst entry).

(** ** The shape of a URL *)

(** The regular expressions that [validate_url] uses: the characters of a
    text, [(?:r)?], one expression after another, and [[...]+] for a class
    of characters. *)
Inductive regex : Type :=
| Lit (text : string)
| Opt (r : regex)
| Seq (r1 r2 : regex)
| Plus (class : ascii -> bool).

(** [\w] on the code points below 256: letters, digits of every kind and
    the underscore; and the class [[\w-]]. *)
Definition is_word (c : ascii) : bool :=
  let n := code c in
  ((48 <=? n) && (n <=? 57)) || ((65 <=? n) && (n <=? 90)) || (n =? 95)
  || ((97 <=? n) && (n <=? 122)) || (n =? 170)
  || ((178 <=? n) && (n <=? 179)) || (n =? 181)
  || ((185 <=? n) && (n <=? 186)) || ((188 <=? n) && (n <=? 190))
  || ((192 <=? n) && (n <=? 214)) || ((216 <=? n) && (n <=? 246))
  || ((248 <=? n) && (n <=? 255)).

Definition is_word_or_dash (c : ascii) : bool :=
  is_word c || Ascii.eqb c "-".

(** [s] without the text [p] it starts with. *)
Fixpoint strip_prefix (p s : string) : option string :=
  match p, s with
  | EmptyString, _ => Some s
  | String a p', String b s' =>
      if Ascii.eqb a b then strip_prefix p' s' else None
  | String _ _, EmptyString => None
  end.

(** The search of [re.match]: whether the expression matches at the start
    of [s] in some way that leaves a rest which [k] accepts.  The engine
    tries the longer match first and then backtracks; whether it finds a
    match does not depend on that order. *)
Fixpoint plus_match (class : ascii -> bool) (s : string)
    (k : string -> bool) : bool :=
  match s with
  | String c s' => class c && (plus_match class s' k || k s')
  | EmptyString => false
  end.

Fixpoint regex_match (r : regex) (s : string) (k : string -> bool) : bool :=
  match r with
  | Lit text =>
      match strip_prefix text s with
      | Some rest => k rest
      | None => false
      end
  | Opt r' => regex_match r' s k || k s
  | Seq r1 r2 => regex_match r1 s (fun rest => regex_match r2 rest k)
  | Plus class => plus_match class s k
  end.

(** [re.match(pattern, s) is not None] *)
Definition re_match (pattern : regex) (s : string) : bool :=
  regex_match pattern s (fun _ => true).

(** [(?:https?://)?] *)
Definition scheme_pattern : regex :=
  Opt (Seq (Lit "http") (Seq (Opt (Lit "s")) (Lit "://"))).

Definition youtube_patterns : list regex :=
  [Seq scheme_pattern
     (Seq (Opt (Lit "www."))
        (Seq (Lit "youtube.com/watch?v=") (Plus is_word_or_dash)));
   Seq scheme_pattern
     (Seq (Opt (Lit "www.")) (Seq (Lit "youtu.be/") (Plus is_word_or_dash)));
   Seq scheme_pattern
     (Seq (Opt (Lit "m."))
        (Seq (Lit "youtube.com/watch?v=") (Plus is_word_or_dash)))].

(** [validate_url(self, url)] *)
Definition validate_url (url : string) : bool :=
  existsb (fun pattern => re_match pattern (py_strip url)) youtube_patterns.

(** The texts that a regular expression matches in full. *)
Inductive matches : regex -> string -> Prop :=
| matches_lit (text : string) : matches (Lit text) text
| matches_opt (r : regex) (m : string) : matches r m -> matches (Opt r) m
| matches_skip (r : regex) : matches (Opt r) EmptyString
| matches_seq (r1 r2 : regex) (m1 m2 : string) :
    matches r1 m1 -> matches r2 m2 -> matches (Seq r1 r2) (m1 ++ m2)
| matches_plus (class : ascii -> bool) (c : ascii) (m : string) :
    class c = true -> string_forall class m = true ->
    matches (Plus class) (String c m).

(** ** Temporary files *)

(** [f.startswith(p)], and [f.endswith(p)] by the lengths. *)
Definition py_startswith (f p : string) : bool := prefix p f.

Definition py_endswith (f p : string) : bool :=
  (String.length p <=? String.length f)%nat
  && String.eqb (substring (String.length f - String.length p)
                   (String.length p) f) p.

(** The three choices that [download_and_trim] makes among the names
    [os.listdir('.')] gives: the download, its subtitles, and what is
    removed at the end, also after a failure. *)
Definition video_files (listing : list string) : list string :=
  filter (fun f => py_startswith f "temp_video"
                   && negb (py_endswith f ".srt" || py_endswith f ".vtt"))
         listing.

Definition subtitle_files (listing : list string) : list string :=
  filter (fun f => py_startswith f "temp_video" && py_endswith f ".srt")
         listing.

Definition temp_files (listing : list string) : list string :=
  filter (fun f => py_startswith f "temp_video"
                   || py_startswith f "temp_trimmed_subs")
         listing.

(** Lines 530-531 of [main]: the duration of the clip and the text shown
    for it in the summary. *)
Definition clip_duration (start_time end_time : string) : result Z :=
  end_seconds <- parse_timestamp end_time ;;
  start_seconds <- parse_timestamp start_time ;;
  Ok (end_seconds - start_seconds).

Definition clip_duration_formatted (start_time end_time : string)
  : result string :=
  duration <- clip_duration start_time end_time ;;
  Ok (_format_duration duration).

(** ** Vocabulary of the prompts *)

(** [get_user_input] takes the line: stripped, it is not empty and the
    validator, when there is one, does not raise on it. *)
Definition accepted {A : Type} (validator : option (string -> result A))
    (text : string) : bool :=
  negb (String.eqb (py_strip text) EmptyString)
  && match validator with
     | None => true
     | Some check =>
         match check (py_strip text) with
         | Ok _ => true
         | Raise _ => false
         end
     end.

(** The validator that [main] gives to the prompt for the URL:
    [processor.validate_url], which returns its verdict and never raises. *)
Definition url_validator (url : string) : result bool := Ok (validate_url url).

(** Metadata with manual subtitles in English and French and automatic
    ones in French and German. *)
Definition sample_subtitles : subtitle_info unit :=
  {| subtitles := Some [("en", tt); ("fr", tt)];
     automatic_captions := Some [("fr", tt); ("de", tt)] |}.

(** The schemes and the hosts with the start of the path that the three
    expressions of [validate_url] allow. *)
Definition url_schemes : list string := [EmptyString; "http://"; "https://"].

Definition url_hosts : list string :=
  ["youtube.com/watch?v="; "www.youtube.com/watch?v=";
   "m.youtube.com/watch?v="; "youtu.be/"; "www.youtu.be/"].

(** What [ask_yes_no] makes of a line: yes, no, or no answer.  The line
    counts without the white space around it and without regard to
    case. *)
Definition yes_no_answer (text : string) : option bool :=
  let answer := py_lower (py_strip text) in
  if existsb (String.eqb answer) ["y"; "yes"] then Some true
  else if existsb (String.eqb answer) ["n"; "no"] then Some false
  else None.

(** ** The name of the output file *)

(** [str.isalnum] on one character, for the code points below 256. *)
Definition is_alnum (c : ascii) : bool :=
  let n := code c in
  ((48 <=? n) && (n <=? 57)) || ((65 <=? n) && (n <=? 90))
  || ((97 <=? n) && (n <=? 122)) || (n =? 170)
  || ((178 <=? n) && (n <=? 179)) || (n =? 181)
  || ((185 <=? n) && (n <=? 186)) || ((188 <=? n) && (n <=? 190))
  || ((192 <=? n) && (n <=? 214)) || ((216 <=? n) && (n <=? 246))
  || ((248 <=? n) && (n <=? 255)).

(** ["".join(c for c in s if keep(c))] and [s[:n]] *)
Fixpoint string_filter (keep : ascii -> bool) (s : string) : string :=
  match s with
  | EmptyString => EmptyString
  | String c s' =>
      if keep c then String c (string_filter keep s')
      else string_filter keep s'
  end.

Fixpoint string_take (n : nat) (s : string) : string :=
  match n, s with
  | S n', String c s' => String c (string_take n' s')
  | _, _ => EmptyString
  end.

(** Lines 266-269 of [download_and_trim]: the name of the output file when
    the caller gives none. *)
Definition safe_title (title : string) : string :=
  let kept :=
    string_filter
      (fun c => is_alnum c
                || existsb (Ascii.eqb c) [" "; "-"; "_"]%char) title in
  string_take 50 (rstrip is_space kept).

Definition default_output_path (title start_time end_time : string)
  : string :=
  safe_title title ++ "_" ++ py_replace ":" "-" start_time ++ "_to_"
  ++ py_replace ":" "-" end_time ++ ".mp4".

(** No part of a path and no drive: the character is none of [/], [\] and
    [:]. *)
Definition plain_char (c : ascii) : bool :=
  negb (existsb (Ascii.eqb c) ["/"; "\"; ":"]%char).

(** The characters of a text that [parse_timestamp] reads: digits, signs,
    underscores, colons and white space. *)
Definition timestamp_char (c : ascii) : bool :=
  is_digit c || is_space c || existsb (Ascii.eqb c) [":"; "+"; "-"; "_"]%char.

(* ================================================================== *)
(** * Properties of the timestamp functions *)

Example parse_1_30 : parse_timestamp "1:30" = Ok 90.
Proof. reflexivity. Qed.

Example parse_1_30_45 : parse_timestamp " 1:30:45 " = Ok 5445.
Proof. reflexivity. Qed.

Example parse_letters : parse_timestamp "1:3x" = Raise FormatError.
Proof. reflexivity. Qed.

Example format_5445 : _format_duration 5445 = "01:30:45".
Proof. reflexivity. Qed.

Lemma py_int_raises_ValueError (s : string) (e : exn) :
  py_int s = Raise e -> e = invalid_int_literal.
Proof.
  unfold py_int. destruct (split_sign (strip_numeric s)) as [neg body].
  destruct (starts_with_digit body); [destruct (int_digits 0 false body)|];
    congruence.
Qed.

Lemma py_int_cases (s : string) :
  (exists v, py_int s = Ok v) \/ py_int s = Raise invalid_int_literal.
Proof.
  destruct (py_int s) as [v|e] eqn:E; [left; eauto|right].
  now rewrite (py_int_raises_ValueError _ _ E).
Qed.

Lemma parse_two_fields (t p0 p1 : string) (m s : Z) :
  fields t = [p0; p1] -> py_int p0 = Ok m -> py_int p1 = Ok s ->
  parse_timestamp t = Ok (m * 60 + s).
Proof.
  unfold parse_timestamp, fields. intros -> H0 H1. now rewrite H0, H1.
Qed.

Lemma parse_three_fields (t p0 p1 p2 : string) (h m s : Z) :
  fields t = [p0; p1; p2] ->
  py_int p0 = Ok h -> py_int p1 = Ok m -> py_int p2 = Ok s ->
  parse_timestamp t = Ok (h * 3600 + m * 60 + s).
Proof.
  unfold parse_timestamp, fields. intros -> H0 H1 H2. now rewrite H0, H1, H2.
Qed.

(** C6. [parse_timestamp] returns [M*60 + S] for a text of two integer
    fields and [H*3600 + M*60 + S] for one of three, whatever the values of
    the fields, and raises the format error for every other text. *)
Theorem parse_timestamp_fields (t : string) :
  (forall p0 p1 m s, fields t = [p0; p1] ->
     py_int p0 = Ok m -> py_int p1 = Ok s ->
     parse_timestamp t = Ok (m * 60 + s))
  /\ (forall p0 p1 p2 h m s, fields t = [p0; p1; p2] ->
     py_int p0 = Ok h -> py_int p1 = Ok m -> py_int p2 = Ok s ->
     parse_timestamp t = Ok (h * 3600 + m * 60 + s))
  /\ (~ well_formed_timestamp t -> parse_timestamp t = Raise FormatError).
Proof.
  split; [exact (parse_two_fields t)|]. split; [exact (parse_three_fields t)|].
  unfold parse_timestamp.
  intros Hbad. unfold well_formed_timestamp, fields, integer_fields in Hbad.
  destruct (py_split (py_strip t) ":") as [|p0 [|p1 [|p2 [|p3 ps]]]];
    try reflexivity.
  - destruct (py_int_cases p0) as [[m H0]| ->]; [|reflexivity].
    destruct (py_int_cases p1) as [[s H1]|H1];
      [|rewrite H0; cbn; now rewrite H1].
    exfalso. apply Hbad. exists [m; s]. split; [|now left].
    repeat constructor; assumption.
  - destruct (py_int_cases p0) as [[h H0]| ->]; [|reflexivity].
    destruct (py_int_cases p1) as [[m H1]|H1];
      [|rewrite H0; cbn; now rewrite H1].
    destruct (py_int_cases p2) as [[s H2]|H2];
      [|rewrite H0; cbn; rewrite H1; cbn; now rewrite H2].
    exfalso. apply Hbad. exists [h; m; s]. split; [|now right].
    repeat constructor; assumption.
Qed.

(** The second field is 75: it is neither rejected nor clamped. *)
Lemma parse_timestamp_fields_witness :
  parse_timestamp "90:75" = Ok (90 * 60 + 75).
Proof.
  apply (proj1 (parse_timestamp_fields "90:75") "90" "75" 90 75); reflexivity.
Defined.

(** C10. No field is checked for its sign: ["-1:30"] parses to a negative
    number of seconds. *)
Theorem parse_timestamp_negative_field :
  parse_timestamp "-1:30" = Ok (-30)
  /\ exists t v, parse_timestamp t = Ok v /\ v < 0.
Proof.
  split; [reflexivity|]. exists "-1:30", (-30). split; [reflexivity|lia].
Qed.

(** C7. With both timestamps well formed and the duration known,
    [validate_timestamps] raises a range error exactly when the start is
    not before the end or one of the two exceeds the duration, and returns
    the two parsed values otherwise. *)
Theorem validate_timestamps_range (info : video_info) (d : Z)
    (start_time end_time : string) (s e : Z) :
  duration info = Some d ->
  parse_timestamp start_time = Ok s ->
  parse_timestamp end_time = Ok e ->
  (raises_RangeError d (validate_timestamps info start_time end_time)
     <-> (s >= e \/ s > d \/ e > d))
  /\ (~ (s >= e \/ s > d \/ e > d) ->
      validate_timestamps info start_time end_time = Ok (s, e)).
Proof.
  intros Hd Hs He. unfold validate_timestamps, get_duration, raises_RangeError.
  rewrite Hs, He, Hd. cbn [bind].
  destruct (s >=? e) eqn:E1.
  { split; [|intros H; exfalso; apply H; lia].
    split; [intros _; lia|intros _]. eexists. split; [reflexivity|].
    now left. }
  destruct (s >=? d) eqn:E2.
  { split; [|intros H; exfalso; apply H; lia].
    split; [intros _; lia|intros _]. eexists. split; [reflexivity|].
    right. now left. }
  destruct (e >? d) eqn:E3.
  { split; [|intros H; exfalso; apply H; lia].
    split; [intros _; lia|intros _]. eexists. split; [reflexivity|].
    right. now right. }
  split; [|reflexivity].
  split; [intros (msg & H & _); discriminate|lia].
Qed.

Lemma validate_timestamps_range_witness :
  validate_timestamps {| duration := Some 600 |} "1:30" "2:45" = Ok (90, 165).
Proof.
  apply (proj2 (validate_timestamps_range {| duration := Some 600 |} 600
                  "1:30" "2:45" 90 165 eq_refl eq_refl eq_refl)).
  lia.
Defined.

(* ================================================================== *)
(** * The loop over the blocks *)

Lemma trim_step_retimed_cue (s e : Z) (acc : list string) (k : Z)
    (block : string) :
  trim_step s e (acc, k) block =
  match retimed_cue s e block with
  | Some cue => ((acc ++ [new_block k cue])%list, k + 1)
  | None => (acc, k)
  end.
Proof.
  unfold trim_step, retimed_cue, lines_of.
  destruct (3 <=? List.length (py_split (py_strip block) LF))%nat;
    [|reflexivity].
  destruct (retime_block s e (py_split (py_strip block) LF)) as [[cue|]|];
    reflexivity.
Qed.

Lemma fold_trim_step (s e : Z) (blocks : list string) :
  forall (acc : list string) (k : Z),
    fold_left (trim_step s e) blocks (acc, k) =
    ((acc ++ number_from k (retimed_cues s e blocks))%list,
     k + Z.of_nat (List.length (retimed_cues s e blocks))).
Proof.
  induction blocks as [|block rest IH]; intros acc k; cbn [fold_left].
  - cbn. rewrite app_nil_r. f_equal. lia.
  - rewrite trim_step_retimed_cue. cbn [retimed_cues].
    destruct (retimed_cue s e block) as [cue|].
    + rewrite IH. cbn [number_from List.length]. rewrite <- app_assoc.
      cbn [app]. f_equal. lia.
    + apply IH.
Qed.

Lemma trim_blocks_numbered (s e : Z) (blocks : list string) :
  trim_blocks s e blocks = number_from 1 (retimed_cues s e blocks).
Proof. unfold trim_blocks. now rewrite fold_trim_step. Qed.

Lemma retimed_cues_app (s e : Z) (l1 l2 : list string) :
  retimed_cues s e (l1 ++ l2) = (retimed_cues s e l1 ++ retimed_cues s e l2)%list.
Proof.
  induction l1 as [|b l1 IH]; [reflexivity|]. cbn [app retimed_cues].
  destruct (retimed_cue s e b); [cbn [app]|]; now rewrite IH.
Qed.

Lemma nth_error_number_from (cues : list (string * string * list string)) :
  forall (k : Z) (i : nat),
    nth_error (number_from k cues) i =
    option_map (new_block (k + Z.of_nat i)) (nth_error cues i).
Proof.
  induction cues as [|c cues IH]; intros k [|i]; try reflexivity.
  - cbn. now rewrite Z.add_0_r.
  - cbn [number_from nth_error]. rewrite IH. do 2 f_equal. lia.
Qed.

Lemma length_number_from (cues : list (string * string * list string)) :
  forall k, List.length (number_from k cues) = List.length cues.
Proof. induction cues as [|c cues IH]; intros k; cbn; [|rewrite IH]; reflexivity. Qed.

Lemma malformed_retimed_cue (s e : Z) (block : string) :
  malformed block -> retimed_cue s e block = None.
Proof.
  unfold malformed, retimed_cue. intros [Hlen|[x Hx]].
  - destruct (Nat.leb_spec 3 (List.length (lines_of block))); [lia|reflexivity].
  - destruct (3 <=? _)%nat; [|reflexivity].
    unfold retime_block. now rewrite Hx.
Qed.

(** C5. The blocks written are the re-timed cues of the surviving blocks in
    the order of the input, the cue at position [i] (from 0) numbered
    [i + 1]; nothing sorts them: a later cue that comes first stays first. *)
Theorem trim_blocks_renumbered (s e : Z) (blocks : list string) :
  trim_blocks s e blocks = number_from 1 (retimed_cues s e blocks)
  /\ (forall i cue, nth_error (retimed_cues s e blocks) i = Some cue ->
        nth_error (trim_blocks s e blocks) i
        = Some (new_block (Z.of_nat i + 1) cue))
  /\ (forall before after,
        retimed_cues s e (before ++ after)
        = (retimed_cues s e before ++ retimed_cues s e after)%list)
  /\ trim_blocks 3 15 [block_late; block_early]
     = [ "1" ++ LF ++ "00:00:05,000 --> 00:00:06,500" ++ LF ++ "late";
         "2" ++ LF ++ "00:00:01,000 --> 00:00:02,000" ++ LF ++ "early"
           ++ LF ++ "on" ].
Proof.
  split; [apply trim_blocks_numbered|]. split; [|split].
  - intros i cue H. rewrite trim_blocks_numbered, nth_error_number_from, H.
    cbn. now rewrite Z.add_comm.
  - apply retimed_cues_app.
  - vm_compute. reflexivity.
Qed.

Lemma trim_blocks_renumbered_witness :
  nth_error (trim_blocks 3 15 [block_late; block_broken; block_early]) 1
  = Some (new_block 2 ("00:00:01,000", "00:00:02,000", ["early"; "on"])).
Proof.
  apply (proj1 (proj2 (trim_blocks_renumbered 3 15
                         [block_late; block_broken; block_early])) 1%nat).
  vm_compute. reflexivity.
Defined.

(** C4. A malformed block is skipped: the blocks written are those written
    without it, so its siblings come out as they would alone; with two
    surviving blocks and one malformed block, wherever it stands, exactly
    two blocks are written. *)
Theorem malformed_block_skipped (s e : Z) (bad : string) :
  malformed bad ->
  (forall before after,
     trim_blocks s e (before ++ bad :: after) = trim_blocks s e (before ++ after))
  /\ (forall b1 b2, survives s e b1 -> survives s e b2 ->
        List.length (trim_blocks s e [bad; b1; b2]) = 2%nat
        /\ List.length (trim_blocks s e [b1; bad; b2]) = 2%nat
        /\ List.length (trim_blocks s e [b1; b2; bad]) = 2%nat).
Proof.
  intros Hbad. pose proof (malformed_retimed_cue s e bad Hbad) as Hnone. split.
  - intros before after. rewrite !trim_blocks_numbered, !retimed_cues_app.
    cbn [retimed_cues]. now rewrite Hnone.
  - intros b1 b2 [c1 H1] [c2 H2].
    rewrite !trim_blocks_numbered, !length_number_from. cbn [retimed_cues].
    rewrite Hnone, H1, H2. repeat split; reflexivity.
Qed.

Lemma malformed_block_skipped_witness :
  List.length (trim_blocks 3 15 [block_late; block_broken; block_early]) = 2%nat.
Proof.
  assert (Hbad : malformed block_broken).
  { right. eexists. vm_compute. reflexivity. }
  assert (H1 : survives 3 15 block_late) by (eexists; vm_compute; reflexivity).
  assert (H2 : survives 3 15 block_early) by (eexists; vm_compute; reflexivity).
  exact (proj1 (proj2 (proj2 (malformed_block_skipped 3 15 block_broken Hbad)
                         block_late block_early H1 H2))).
Defined.

Example trim_file_with_malformed_block :
  _trim_subtitle_file
    (Ok (block_late ++ LF ++ LF ++ block_broken ++ LF ++ LF ++ block_early ++ LF))
    3 15
  = "1" ++ LF ++ "00:00:05,000 --> 00:00:06,500" ++ LF ++ "late" ++ LF ++ LF
    ++ "2" ++ LF ++ "00:00:01,000 --> 00:00:02,000" ++ LF ++ "early" ++ LF ++ "on".
Proof. vm_compute. reflexivity. Qed.

(** C9. An input file that cannot be read, or that is empty, gives no block
    and an empty output text; nothing is raised. *)
Theorem trim_empty_or_unreadable (s e : Z) :
  (forall x : exn, _trim_subtitle_file (Raise x) s e = EmptyString)
  /\ trim_blocks s e (py_split (py_strip EmptyString) (LF ++ LF)) = []
  /\ _trim_subtitle_file (Ok EmptyString) s e = EmptyString.
Proof. repeat split. Qed.

(* ================================================================== *)
(** * Decimal numerals: writing, then reading *)

Lemma string_forall_app (P : ascii -> bool) (s1 s2 : string) :
  string_forall P (s1 ++ s2) = string_forall P s1 && string_forall P s2.
Proof.
  induction s1 as [|c s1 IH]; [reflexivity|]. cbn. now rewrite IH, andb_assoc.
Qed.

Lemma string_forall_impl (P Q : ascii -> bool) (s : string) :
  (forall c, P c = true -> Q c = true) ->
  string_forall P s = true -> string_forall Q s = true.
Proof.
  intros HPQ. induction s as [|c s IH]; [reflexivity|]. cbn.
  rewrite !andb_true_iff. intros [Hc Hs]. split; auto.
Qed.

Lemma digit_char_spec (d : Z) :
  0 <= d < 10 ->
  is_digit (digit_char d) = true /\ digit_value (digit_char d) = d
  /\ Ascii.eqb (digit_char d) "_" = false.
Proof.
  intros H.
  assert (E : d = 0 \/ d = 1 \/ d = 2 \/ d = 3 \/ d = 4 \/ d = 5 \/ d = 6
              \/ d = 7 \/ d = 8 \/ d = 9) by lia.
  repeat (destruct E as [->|E]; [repeat split|]). subst d. repeat split.
Qed.

Lemma digits_of_spec (fuel : nat) :
  forall n acc, 0 <= n < 2 ^ Z.of_nat fuel ->
    string_forall is_digit acc = true ->
    string_forall is_digit (digits_of fuel n acc) = true
    /\ (fuel <> O -> starts_with_digit (digits_of fuel n acc) = true)
    /\ exists k, 0 <= k /\ forall a,
         int_digits a false (digits_of fuel n acc)
         = int_digits (a * 10 ^ k + n) false acc.
Proof.
  induction fuel as [|fuel IH]; intros n acc Hn Hacc.
  - cbn in Hn. assert (n = 0) by lia. subst n. cbn [digits_of].
    split; [assumption|]. split; [congruence|]. exists 0. split; [lia|].
    intros a. f_equal. lia.
  - cbn [digits_of].
    assert (Hd : 0 <= n mod 10 < 10) by (apply Z.mod_pos_bound; lia).
    destruct (digit_char_spec _ Hd) as (D1 & D2 & D3).
    assert (Hacc' : string_forall is_digit (String (digit_char (n mod 10)) acc)
                    = true) by (cbn; now rewrite D1).
    destruct (Z.ltb_spec n 10) as [Hlt|Hge].
    + split; [assumption|]. split; [intros _; exact D1|].
      exists 1. split; [lia|]. intros a. cbn [int_digits].
      rewrite D3, D1, D2. f_equal. rewrite Z.mod_small by lia. lia.
    + assert (Hn' : 0 <= n / 10 < 2 ^ Z.of_nat fuel).
      { split; [apply Z.div_pos; lia|].
        apply Z.div_lt_upper_bound; [lia|].
        rewrite Nat2Z.inj_succ, Z.pow_succ_r in Hn by lia. lia. }
      destruct (IH (n / 10) _ Hn' Hacc') as (I1 & I2 & k & Hk & I3).
      split; [assumption|]. split.
      * intros _. apply I2. intros ->. cbn in Hn'. lia.
      * exists (k + 1). split; [lia|]. intros a. rewrite I3.
        cbn [int_digits]. rewrite D3, D1, D2. f_equal.
        rewrite Z.pow_add_r by lia.
        pose proof (Z.div_mod n 10). lia.
Qed.

Lemma str_nat_spec (n : Z) :
  0 <= n ->
  string_forall is_digit (str_nat n) = true
  /\ starts_with_digit (str_nat n) = true
  /\ int_digits 0 false (str_nat n) = Some n.
Proof.
  intros Hn. unfold str_nat.
  assert (Hb : 0 <= n < 2 ^ Z.of_nat (S (Z.to_nat (Z.log2 n)))).
  { split; [assumption|]. rewrite Nat2Z.inj_succ, Z2Nat.id by apply Z.log2_nonneg.
    destruct (Z.eq_dec n 0) as [->|]; [reflexivity|].
    apply Z.log2_spec. lia. }
  destruct (digits_of_spec _ n EmptyString Hb eq_refl) as (H1 & H2 & k & _ & H3).
  split; [assumption|]. split; [apply H2; discriminate|].
  rewrite H3. cbn [int_digits]. f_equal; lia.
Qed.

Lemma int_digits_zeros (k : nat) (s : string) :
  int_digits 0 false (zeros k ++ s) = int_digits 0 false s.
Proof. induction k as [|k IH]; [reflexivity|]. cbn. exact IH. Qed.

Lemma string_forall_zeros (k : nat) : string_forall is_digit (zeros k) = true.
Proof. induction k as [|k IH]; [reflexivity|]. cbn. exact IH. Qed.

Lemma starts_with_digit_app (s1 s2 : string) :
  starts_with_digit s1 = true -> starts_with_digit (s1 ++ s2) = true.
Proof. destruct s1; [discriminate|]; trivial. Qed.

(** What [f"{n:02d}"] writes for [n >= 0]: digits, one at least, that read
    back as [n]. *)
Lemma format_02d_spec (n : Z) :
  0 <= n ->
  string_forall is_digit (format_02d n) = true
  /\ starts_with_digit (format_02d n) = true
  /\ int_digits 0 false (format_02d n) = Some n.
Proof.
  intros Hn. unfold format_02d, zero_pad.
  destruct (Z.ltb_spec n 0) as [|_]; [lia|]. rewrite Z.abs_eq by assumption.
  destruct (str_nat_spec n Hn) as (H1 & H2 & H3).
  cbn [append]. set (k := (2 - String.length EmptyString
                           - String.length (str_nat n))%nat).
  split; [rewrite string_forall_app, string_forall_zeros; exact H1|].
  split; [|rewrite int_digits_zeros; exact H3].
  destruct k; [exact H2|reflexivity].
Qed.

Lemma lstrip_first (space : ascii -> bool) (c : ascii) (s : string) :
  space c = false -> lstrip space (String c s) = String c s.
Proof. intros H. cbn. now rewrite H. Qed.

Lemma rstrip_none (space : ascii -> bool) (s : string) :
  string_forall (fun c => negb (space c)) s = true -> rstrip space s = s.
Proof.
  induction s as [|c s IH]; [reflexivity|]. cbn.
  rewrite andb_true_iff, negb_true_iff. intros [Hc Hs]. rewrite (IH Hs).
  destruct s; [now rewrite Hc|reflexivity].
Qed.

Lemma lstrip_none (space : ascii -> bool) (s : string) :
  string_forall (fun c => negb (space c)) s = true -> lstrip space s = s.
Proof.
  destruct s as [|c s]; [reflexivity|]. cbn.
  rewrite andb_true_iff, negb_true_iff. now intros [-> _].
Qed.

Lemma is_digit_code (c : ascii) : is_digit c = true -> 48 <= code c <= 57.
Proof. unfold is_digit. cbv zeta. rewrite andb_true_iff. lia. Qed.

Lemma code_eqb (c d : ascii) : Ascii.eqb c d = true -> code c = code d.
Proof. intros H. apply Ascii.eqb_eq in H. now subst. Qed.

Lemma digit_or_colon_not_space (c : ascii) :
  is_digit_or_colon c = true ->
  negb (is_space c) = true /\ negb (is_space_numeric c) = true.
Proof.
  unfold is_digit_or_colon. rewrite orb_true_iff. intros H.
  assert (Hc : 48 <= code c <= 58).
  { destruct H as [H|H]; [apply is_digit_code in H; lia|].
    apply code_eqb in H. change (code ":") with 58 in H. lia. }
  unfold is_space, is_space_numeric. cbv zeta.
  split; rewrite negb_true_iff; repeat rewrite orb_false_iff;
    repeat rewrite andb_false_iff; lia.
Qed.

Lemma is_digit_not_sign (c : ascii) :
  is_digit c = true ->
  Ascii.eqb c "-" = false /\ Ascii.eqb c "+" = false /\ Ascii.eqb c ":" = false.
Proof.
  intros H. apply is_digit_code in H.
  repeat split; apply not_true_is_false; intros E; apply Ascii.eqb_eq in E;
    subst c; destruct H as [H1 H2]; vm_compute in H1, H2; congruence.
Qed.

(** [int] reads back what [f"{n:02d}"] wrote. *)
Lemma py_int_format_02d (n : Z) : 0 <= n -> py_int (format_02d n) = Ok n.
Proof.
  intros Hn. destruct (format_02d_spec n Hn) as (H1 & H2 & H3).
  unfold py_int, strip_numeric.
  assert (Hns : string_forall (fun c => negb (is_space_numeric c)) (format_02d n)
                = true).
  { revert H1. apply string_forall_impl. intros c Hc.
    apply digit_or_colon_not_space. unfold is_digit_or_colon. now rewrite Hc. }
  rewrite (lstrip_none _ _ Hns), (rstrip_none _ _ Hns).
  destruct (format_02d n) as [|c s]; [discriminate|]. cbn in H2.
  destruct (is_digit_not_sign c H2) as (E1 & E2 & _).
  unfold split_sign. rewrite E1, E2. cbn [starts_with_digit]. rewrite H2, H3.
  reflexivity.
Qed.

Lemma split_from_colon (a rest : string) :
  string_forall is_digit a = true ->
  split_from ":" O (a ++ String ":" rest)
  = (a, fst (split_from ":" O rest) :: snd (split_from ":" O rest)).
Proof.
  induction a as [|c a IH].
  - intros _. cbn. replace (prefix EmptyString rest) with true
      by (now destruct rest).
    now destruct (split_from ":" O rest).
  - cbn [string_forall]. rewrite andb_true_iff. intros [Hc Ha].
    destruct (is_digit_not_sign c Hc) as (_ & _ & E).
    cbn [append split_from prefix].
    destruct (ascii_dec ":" c) as [Heq|_].
    { subst c. discriminate E. }
    now rewrite (IH Ha).
Qed.

Lemma split_from_no_colon (a : string) :
  string_forall is_digit a = true -> split_from ":" O a = (a, []).
Proof.
  induction a as [|c a IH]; [reflexivity|].
  cbn [string_forall]. rewrite andb_true_iff. intros [Hc Ha].
  cbn [split_from prefix].
  destruct (ascii_dec ":" c) as [Heq|_].
  { subst c. discriminate Hc. }
  now rewrite (IH Ha).
Qed.

Lemma py_split_colon (a rest : string) :
  string_forall is_digit a = true ->
  py_split (a ++ String ":" rest) ":" = a :: py_split rest ":".
Proof.
  intros Ha. unfold py_split. rewrite (split_from_colon a rest Ha).
  now destruct (split_from ":" O rest).
Qed.

Lemma py_split_digits (a : string) :
  string_forall is_digit a = true -> py_split a ":" = [a].
Proof. intros Ha. unfold py_split. now rewrite (split_from_no_colon a Ha). Qed.

Lemma py_strip_digits_colons (s : string) :
  string_forall is_digit_or_colon s = true -> py_strip s = s.
Proof.
  intros H. unfold py_strip.
  assert (Hns : string_forall (fun c => negb (is_space c)) s = true).
  { revert H. apply string_forall_impl. intros c Hc.
    now apply digit_or_colon_not_space. }
  now rewrite (lstrip_none _ _ Hns), (rstrip_none _ _ Hns).
Qed.

Lemma digits_are_digits_or_colons (s : string) :
  string_forall is_digit s = true -> string_forall is_digit_or_colon s = true.
Proof.
  apply string_forall_impl. intros c Hc. unfold is_digit_or_colon.
  now rewrite Hc.
Qed.

(** The value of a valid timestamp is not negative. *)
Lemma valid_timestamp_nonneg (t : string) (v : Z) :
  valid_timestamp t -> parse_timestamp t = Ok v -> 0 <= v.
Proof.
  intros (vs & Hf & Hlen & Hpos) Hv. unfold integer_fields in Hf.
  destruct Hlen as [Hlen|Hlen].
  - destruct vs as [|m [|s [|? ?]]]; try discriminate.
    inversion Hf as [|p0 ? l0 ? H0 Hf1 E]; subst.
    inversion Hf1 as [|p1 ? l1 ? H1 Hf2 E1]; subst. inversion Hf2; subst.
    symmetry in E. rewrite (parse_two_fields t _ _ _ _ E H0 H1) in Hv.
    inversion Hv; subst. inversion Hpos as [|? ? Hm Hpos']; subst.
    inversion Hpos'; subst. lia.
  - destruct vs as [|h [|m [|s [|? ?]]]]; try discriminate.
    inversion Hf as [|p0 ? l0 ? H0 Hf1 E]; subst.
    inversion Hf1 as [|p1 ? l1 ? H1 Hf2 E1]; subst.
    inversion Hf2 as [|p2 ? l2 ? H2 Hf3 E2]; subst. inversion Hf3; subst.
    symmetry in E. rewrite (parse_three_fields t _ _ _ _ _ _ E H0 H1 H2) in Hv.
    inversion Hv; subst. inversion Hpos as [|? ? Hh Hpos']; subst.
    inversion Hpos' as [|? ? Hm Hpos'']; subst. inversion Hpos''; subst. lia.
Qed.

(** Reading back what [_format_duration] wrote for a positive duration. *)
Lemma parse_format_duration (v : Z) :
  0 < v ->
  parse_timestamp (_format_duration v) = Ok v
  /\ (v < 3600 -> List.length (fields (_format_duration v)) = 2%nat)
  /\ (3600 <= v -> List.length (fields (_format_duration v)) = 3%nat).
Proof.
  intros Hv. unfold _format_duration.
  destruct (Z.eqb_spec v 0) as [|_]; [lia|]. cbv zeta.
  assert (Hh : 0 <= v / 3600) by (apply Z.div_pos; lia).
  assert (Hm1 : 0 <= v mod 3600 < 3600) by (apply Z.mod_pos_bound; lia).
  assert (Hm : 0 <= v mod 3600 / 60) by (apply Z.div_pos; lia).
  assert (Hs : 0 <= v mod 60 < 60) by (apply Z.mod_pos_bound; lia).
  assert (Hsum : v = v / 3600 * 3600 + v mod 3600 / 60 * 60 + v mod 60).
  { pose proof (Z.div_mod v 3600). pose proof (Z.div_mod (v mod 3600) 60).
    assert ((v mod 3600) mod 60 = v mod 60).
    { apply Z.mod_mod_divide. exists 60. lia. }
    lia. }
  destruct (format_02d_spec _ Hh) as (A1 & _ & _).
  destruct (format_02d_spec _ Hm) as (B1 & _ & _).
  destruct (format_02d_spec (v mod 60) (proj1 Hs)) as (C1 & _ & _).
  pose proof (py_int_format_02d _ Hh) as A2.
  pose proof (py_int_format_02d _ Hm) as B2.
  pose proof (py_int_format_02d (v mod 60) (proj1 Hs)) as C2.
  assert (Ecolon : forall x, ":" ++ x = String ":" x) by reflexivity.
  destruct (Z.gtb_spec (v / 3600) 0) as [Hpos|Hzero].
  - assert (F : fields (format_02d (v / 3600) ++ ":"
                        ++ format_02d (v mod 3600 / 60) ++ ":"
                        ++ format_02d (v mod 60))
              = [format_02d (v / 3600); format_02d (v mod 3600 / 60);
                 format_02d (v mod 60)]).
    { unfold fields. rewrite py_strip_digits_colons.
      - rewrite !Ecolon, py_split_colon, py_split_colon, py_split_digits;
          trivial.
      - rewrite !Ecolon, !string_forall_app. cbn [string_forall].
        rewrite !string_forall_app. cbn [string_forall].
        rewrite !digits_are_digits_or_colons by assumption. reflexivity. }
    split; [|split].
    + rewrite (parse_three_fields _ _ _ _ _ _ _ F A2 B2 C2). f_equal. lia.
    + intros Hlt. exfalso.
      assert (v / 3600 = 0) by (apply Z.div_small; lia). lia.
    + intros _. now rewrite F.
  - assert (F : fields (format_02d (v mod 3600 / 60) ++ ":"
                        ++ format_02d (v mod 60))
              = [format_02d (v mod 3600 / 60); format_02d (v mod 60)]).
    { unfold fields. rewrite py_strip_digits_colons.
      - rewrite !Ecolon, py_split_colon, py_split_digits; trivial.
      - rewrite !Ecolon, !string_forall_app. cbn [string_forall].
        rewrite !digits_are_digits_or_colons by assumption. reflexivity. }
    split; [|split].
    + rewrite (parse_two_fields _ _ _ _ _ F B2 C2). f_equal. lia.
    + intros _. now rewrite F.
    + intros Hge. exfalso.
      assert (1 <= v / 3600) by (apply Z.div_le_lower_bound; lia). lia.
Qed.

(** C8, as the claim states it, fails at zero: ["0:00"] is valid and parses
    to 0, which [_format_duration] writes as ["N/A"]. *)
Lemma format_duration_roundtrip_fails_at_zero :
  ~ (forall t v, valid_timestamp t -> parse_timestamp t = Ok v ->
       parse_timestamp (_format_duration v) = Ok v).
Proof.
  intros H.
  assert (Hvalid : valid_timestamp "0:00").
  { exists [0; 0]. split; [|split; [now left|repeat constructor; lia]].
    repeat constructor. }
  specialize (H "0:00" 0 Hvalid eq_refl). discriminate H.
Qed.

(** C8, amended. For a valid timestamp whose value is not zero, parsing,
    formatting and parsing again gives the same number of seconds; the text
    written has two fields below one hour and three from one hour on.  A
    value of zero seconds is written as N/A. *)
Theorem format_duration_roundtrip (t : string) (v : Z) :
  valid_timestamp t -> parse_timestamp t = Ok v -> v <> 0 ->
  parse_timestamp (_format_duration v) = Ok v
  /\ (v < 3600 -> List.length (fields (_format_duration v)) = 2%nat)
  /\ (3600 <= v -> List.length (fields (_format_duration v)) = 3%nat)
  /\ _format_duration 0 = "N/A".
Proof.
  intros Hvalid Hparse Hnz.
  pose proof (valid_timestamp_nonneg t v Hvalid Hparse) as Hv.
  destruct (parse_format_duration v ltac:(lia)) as (H1 & H2 & H3).
  repeat split; assumption.
Qed.

Lemma format_duration_roundtrip_witness :
  parse_timestamp (_format_duration 5445) = Ok 5445.
Proof.
  assert (Hvalid : valid_timestamp "1:30:45").
  { exists [1; 30; 45]. split; [|split; [now right|repeat constructor; lia]].
    repeat constructor. }
  assert (Hnz : 5445 <> 0) by lia.
  exact (proj1 (format_duration_roundtrip "1:30:45" 5445 Hvalid eq_refl Hnz)).
Defined.

(* ================================================================== *)
(** * Comparison of numbers *)

Lemma SFcompare_antisym (x y : float) (c : comparison) :
  SFcompare x y = Some c -> SFcompare y x = Some (CompOpp c).
Proof.
  destruct x as [sx|sx| |sx mx ex], y as [sy|sy| |sy my ey]; cbn;
    try discriminate;
    try (destruct sx; intros H; inversion H; reflexivity);
    try (destruct sy; intros H; inversion H; reflexivity);
    try (destruct sx, sy; intros H; inversion H; reflexivity).
  intros H. inversion H as [Hc]. clear H. f_equal.
  rewrite (Z.compare_antisym ex ey).
  change (Pos.compare_cont Eq my mx) with (Pos.compare my mx).
  change (Pos.compare_cont Eq mx my) with (Pos.compare mx my).
  rewrite (Pos.compare_antisym mx my).
  destruct sx, sy, (ex ?= ey), (mx ?= my)%positive; reflexivity.
Qed.

Lemma num_compare_antisym (a b : num) (c : comparison) :
  num_compare a b = Some c -> num_compare b a = Some (CompOpp c).
Proof.
  destruct a as [m|x], b as [n|y]; cbn [num_compare].
  - intros H. inversion H. f_equal. apply Z.compare_antisym.
  - destruct (compare_float_int y m) as [c'|]; [|discriminate]. cbn.
    intros H. inversion H. now destruct c'.
  - intros ->. reflexivity.
  - apply SFcompare_antisym.
Qed.

Lemma py_gt_lt (a b : num) : py_gt a b = true -> py_lt b a = true.
Proof.
  unfold py_gt, py_lt. destruct (num_compare a b) as [[]|] eqn:E;
    try discriminate.
  now rewrite (num_compare_antisym _ _ _ E).
Qed.

Lemma py_lt_le (a b : num) : py_lt a b = true -> py_le a b = true.
Proof.
  unfold py_lt, py_le. now destruct (num_compare a b) as [[]|].
Qed.

Lemma py_le_int_refl (n : Z) : py_le (PyInt n) (PyInt n) = true.
Proof. unfold py_le. cbn. now rewrite Z.compare_refl. Qed.

Lemma py_max_lower (a b : num) :
  py_le a a = true -> py_le a (py_max a b) = true.
Proof.
  intros Ha. unfold py_max. destruct (py_gt b a) eqn:E; [|exact Ha].
  now apply py_lt_le, py_gt_lt.
Qed.

Lemma py_min_upper (a b : num) :
  py_le a a = true -> py_le (py_min a b) a = true.
Proof.
  intros Ha. unfold py_min. destruct (py_lt b a) eqn:E; [|exact Ha].
  now apply py_lt_le.
Qed.

(** The times [retime] returns lie in the new range, the start strictly
    before the end. *)
Lemma retime_bounds (s e : Z) (sub_start sub_end new_start new_end : num) :
  retime s e sub_start sub_end = Ok (Some (new_start, new_end)) ->
  py_le (PyInt 0) new_start = true
  /\ py_lt new_start new_end = true
  /\ py_le new_end (PyInt (e - s)) = true.
Proof.
  unfold retime.
  destruct (py_gt sub_end (PyInt s) && py_lt sub_start (PyInt e));
    [|discriminate].
  destruct (py_sub sub_start (PyInt s)) as [d1|]; [|discriminate].
  destruct (py_sub sub_end (PyInt s)) as [d2|]; [|discriminate]. cbn [bind].
  destruct (py_gt _ _) eqn:G; [|discriminate].
  intros H. inversion H; subst. clear H. repeat split.
  - apply py_max_lower, py_le_int_refl.
  - now apply py_gt_lt.
  - apply py_min_upper, py_le_int_refl.
Qed.

Lemma retimed_cue_times (s e : Z) (block : string)
    (cue : string * string * list string) :
  retimed_cue s e block = Some cue ->
  exists sub_start sub_end new_start new_end a b,
    cue_times (lines_of block) = Ok (sub_start, sub_end)
    /\ retime s e sub_start sub_end = Ok (Some (new_start, new_end))
    /\ _seconds_to_srt_time new_start = Ok a
    /\ _seconds_to_srt_time new_end = Ok b
    /\ cue = (a, b, skipn 2 (lines_of block)).
Proof.
  unfold retimed_cue. destruct (3 <=? _)%nat; [|discriminate].
  unfold retime_block.
  destruct (cue_times (lines_of block)) as [[ss se]|]; [|discriminate].
  cbn [bind].
  destruct (retime s e ss se) as [[[ns ne]|]|] eqn:Hr; try discriminate.
  cbn [bind].
  destruct (_seconds_to_srt_time ns) as [a|] eqn:Ha; [|discriminate].
  cbn [bind].
  destruct (_seconds_to_srt_time ne) as [b|] eqn:Hb; [|discriminate].
  cbn [bind].
  intros H. inversion H; subst. exists ss, se, ns, ne, a, b.
  repeat split; assumption.
Qed.

(** The cues the loop writes: each comes from a block of the input, and
    its two times are the values [retime] returned for that block. *)
Lemma retimed_cues_in_range (s e : Z) (blocks : list string) :
  Forall (fun w => exists block sub_start sub_end new_start new_end,
            In block blocks
            /\ cue_times (lines_of block) = Ok (sub_start, sub_end)
            /\ retime s e sub_start sub_end = Ok (Some (new_start, new_end))
            /\ py_le (PyInt 0) new_start = true
            /\ py_lt new_start new_end = true
            /\ py_le new_end (PyInt (e - s)) = true
            /\ _seconds_to_srt_time new_start = Ok (fst (fst w))
            /\ _seconds_to_srt_time new_end = Ok (snd (fst w))
            /\ snd w = skipn 2 (lines_of block))
    (retimed_cues s e blocks).
Proof.
  induction blocks as [|block rest IH]; [constructor|]. cbn [retimed_cues].
  assert (IH' : Forall (fun w => exists b sub_start sub_end new_start new_end,
                          In b (block :: rest)
                          /\ cue_times (lines_of b) = Ok (sub_start, sub_end)
                          /\ retime s e sub_start sub_end
                             = Ok (Some (new_start, new_end))
                          /\ py_le (PyInt 0) new_start = true
                          /\ py_lt new_start new_end = true
                          /\ py_le new_end (PyInt (e - s)) = true
                          /\ _seconds_to_srt_time new_start = Ok (fst (fst w))
                          /\ _seconds_to_srt_time new_end = Ok (snd (fst w))
                          /\ snd w = skipn 2 (lines_of b))
                 (retimed_cues s e rest)).
  { revert IH. apply Forall_impl.
    intros w (b & ss & se & ns & ne & Hin & H).
    exists b, ss, se, ns, ne. split; [now right|exact H]. }
  destruct (retimed_cue s e block) as [cue|] eqn:E; [|exact IH'].
  constructor; [|exact IH'].
  destruct (retimed_cue_times s e block cue E)
    as (ss & se & ns & ne & a & b & Ht & Hr & Ha & Hb & ->).
  destruct (retime_bounds s e ss se ns ne Hr) as (B1 & B2 & B3).
  exists block, ss, se, ns, ne. cbn [fst snd].
  repeat split; try assumption. now left.
Qed.

(** C2. Every cue in the output of the trim is written from a block of the
    input whose two times the loop re-timed (lines 383 and 384) to values
    [new_start] and [new_end] with
    [0 <= new_start < new_end <= end_seconds - start_seconds], in the exact
    order of Python on [int] and [float].  The two times of the block
    written are these two values as [_seconds_to_srt_time] writes them,
    that is rounded to the millisecond. *)
Theorem trimmed_cue_in_range (s e : Z) (content : string) :
  exists written,
    _trim_subtitle_file (Ok content) s e
    = py_join (LF ++ LF) (number_from 1 written)
    /\ Forall (fun w => exists block sub_start sub_end new_start new_end,
                 In block (blocks_of content)
                 /\ cue_times (lines_of block) = Ok (sub_start, sub_end)
                 /\ retime s e sub_start sub_end
                    = Ok (Some (new_start, new_end))
                 /\ py_le (PyInt 0) new_start = true
                 /\ py_lt new_start new_end = true
                 /\ py_le new_end (PyInt (e - s)) = true
                 /\ _seconds_to_srt_time new_start = Ok (fst (fst w))
                 /\ _seconds_to_srt_time new_end = Ok (snd (fst w))
                 /\ snd w = skipn 2 (lines_of block))
         written.
Proof.
  exists (retimed_cues s e (blocks_of content)). split.
  - cbn [_trim_subtitle_file]. now rewrite trim_blocks_numbered.
  - apply retimed_cues_in_range.
Qed.

(* ================================================================== *)
(** * Rounding to binary64 *)

Lemma fexp_eq (e : Z) : fexp prec emax e = fexp64 e.
Proof. reflexivity. Qed.

Lemma Zdigits2_log2 (m : Z) : 0 < m -> Zdigits2 m = Z.log2 m + 1.
Proof.
  destruct m as [|p|p]; try lia. intros _. cbn [Zdigits2].
  assert (H : forall q, Zpos (digits2_pos q) = Zpos (Pos.size q)).
  { induction q as [q IH|q IH|]; cbn; try rewrite !Pos2Z.inj_succ; try rewrite IH; reflexivity. }
  destruct p as [q|q|]; cbn [digits2_pos Z.log2]; try reflexivity;
    rewrite Pos2Z.inj_succ, H; lia.
Qed.

Lemma Zdigits2_bounds (m : Z) :
  0 < m -> 1 <= Zdigits2 m /\ 2 ^ (Zdigits2 m - 1) <= m < 2 ^ Zdigits2 m.
Proof.
  intros H. rewrite (Zdigits2_log2 m H).
  pose proof (Z.log2_nonneg m). pose proof (Z.log2_spec m H).
  replace (Z.log2 m + 1 - 1) with (Z.log2 m) by lia.
  replace (Z.log2 m + 1) with (Z.succ (Z.log2 m)) by lia. lia.
Qed.

Lemma Zdigits2_unique (m d : Z) :
  1 <= d -> 2 ^ (d - 1) <= m < 2 ^ d -> Zdigits2 m = d.
Proof.
  intros Hd H. assert (0 < m).
  { assert (0 < 2 ^ (d - 1)) by (apply Z.pow_pos_nonneg; lia). lia. }
  rewrite (Zdigits2_log2 m) by assumption.
  rewrite (Z.log2_unique m (d - 1)); try lia.
  replace (Z.succ (d - 1)) with d by lia. exact H.
Qed.

Lemma Zdigits2_0 : Zdigits2 0 = 0.
Proof. reflexivity. Qed.

Lemma Zdigits2_nonneg (m : Z) : 0 <= m -> 0 <= Zdigits2 m.
Proof.
  intros H. destruct (Z.eq_dec m 0) as [->|]; [cbn; lia|].
  pose proof (Zdigits2_bounds m). lia.
Qed.

Lemma Zdigits2_le (m n : Z) : 0 <= m <= n -> Zdigits2 m <= Zdigits2 n.
Proof.
  intros H. destruct (Z.eq_dec m 0) as [->|].
  { apply Zdigits2_nonneg. lia. }
  rewrite !Zdigits2_log2 by lia. pose proof (Z.log2_le_mono m n). lia.
Qed.

Lemma Zdigits2_lt_pow2 (m d : Z) : 0 <= d -> 0 <= m < 2 ^ d -> Zdigits2 m <= d.
Proof.
  intros Hd H. destruct (Z.eq_dec m 0) as [->|]; [cbn; lia|].
  destruct (Zdigits2_bounds m) as [H1 [H2 H3]]; [lia|].
  destruct (Z.le_gt_cases (Zdigits2 m) d) as [|Hgt]; [assumption|].
  assert (2 ^ d <= 2 ^ (Zdigits2 m - 1)) by (apply Z.pow_le_mono_r; lia). lia.
Qed.

Lemma Zdigits2_ge_pow2 (m d : Z) : 0 <= d -> 2 ^ d <= m -> d + 1 <= Zdigits2 m.
Proof.
  intros Hd H. assert (0 < 2 ^ d) by (apply Z.pow_pos_nonneg; lia).
  destruct (Zdigits2_bounds m) as [H1 [H2 H3]]; [lia|].
  destruct (Z.le_gt_cases (d + 1) (Zdigits2 m)) as [|Hgt]; [assumption|].
  assert (2 ^ Zdigits2 m <= 2 ^ d) by (apply Z.pow_le_mono_r; lia). lia.
Qed.

Lemma Zdigits2_mul_pow2 (m k : Z) :
  0 < m -> 0 <= k -> Zdigits2 (m * 2 ^ k) = Zdigits2 m + k.
Proof.
  intros Hm Hk. assert (0 < 2 ^ k) by (apply Z.pow_pos_nonneg; lia).
  rewrite !Zdigits2_log2 by nia. rewrite Z.log2_mul_pow2 by lia. lia.
Qed.

Lemma Zdigits2_div_pow2 (m k : Z) :
  0 < m -> 0 <= k -> k < Zdigits2 m -> Zdigits2 (m / 2 ^ k) = Zdigits2 m - k.
Proof.
  intros Hm Hk Hlt. destruct (Zdigits2_bounds m Hm) as [H1 [H2 H3]].
  assert (0 < 2 ^ k) by (apply Z.pow_pos_nonneg; lia).
  apply Zdigits2_unique; [lia|]. split.
  - apply Z.div_le_lower_bound; [lia|].
    rewrite <- Z.pow_add_r by lia. replace (k + (Zdigits2 m - k - 1)) with (Zdigits2 m - 1) by lia.
    exact H2.
  - apply Z.div_lt_upper_bound; [lia|].
    rewrite <- Z.pow_add_r by lia. replace (k + (Zdigits2 m - k)) with (Zdigits2 m) by lia.
    exact H3.
Qed.

Lemma div_pow2_small (m k : Z) :
  0 <= m -> Zdigits2 m <= k -> m / 2 ^ k = 0.
Proof.
  intros Hm Hk. destruct (Z.eq_dec m 0) as [->|]; [reflexivity|].
  destruct (Zdigits2_bounds m) as [H1 [H2 H3]]; [lia|].
  apply Z.div_small. split; [lia|].
  assert (2 ^ Zdigits2 m <= 2 ^ k) by (apply Z.pow_le_mono_r; lia). lia.
Qed.

(** ** Shifting right with round and sticky bits *)
Lemma pow2_pred (k : Z) : 0 < k -> 2 ^ k = 2 ^ (k - 1) * 2.
Proof.
  intros Hk. replace k with (Z.succ (k - 1)) at 1 by lia.
  rewrite Z.pow_succ_r by lia. lia.
Qed.

Lemma iter_pos_iter {A : Type} (f : A -> A) (p : positive) :
  forall x, iter_pos f p x = Pos.iter f x p.
Proof.
  induction p as [p IH|p IH|]; intros x; cbn [iter_pos Pos.iter].
  - rewrite !IH, !Pos.iter_swap. reflexivity.
  - rewrite !IH. reflexivity.
  - reflexivity.
Qed.

Lemma shr_1_spec (m : Z) (r s : bool) :
  0 <= m ->
  shr_1 (Build_shr_record m r s) = Build_shr_record (m / 2) (Z.odd m) (r || s).
Proof.
  intros Hm. rewrite <- Z.div2_div.
  destruct m as [|[p|p|]|p]; try reflexivity. lia.
Qed.

Lemma shr_iter_m (p : positive) (m : Z) (r s : bool) :
  0 <= m -> shr_m (Pos.iter shr_1 (Build_shr_record m r s) p) = m / 2 ^ Zpos p.
Proof.
  intros Hm. induction p as [|p IH] using Pos.peano_ind.
  - cbn [Pos.iter]. rewrite shr_1_spec by assumption. reflexivity.
  - rewrite Pos.iter_succ.
    destruct (Pos.iter shr_1 (Build_shr_record m r s) p) as [m' r' s'].
    cbn [shr_m] in IH. subst m'.
    assert (0 < 2 ^ Zpos p) by (apply Z.pow_pos_nonneg; lia).
    rewrite shr_1_spec by (apply Z.div_pos; lia). cbn [shr_m].
    rewrite Pos2Z.inj_succ, Z.pow_succ_r by lia.
    rewrite Z.div_div by lia. f_equal. lia.
Qed.

Lemma shr_iter_exact (p : positive) (m : Z) :
  0 <= m ->
  Pos.iter shr_1 (Build_shr_record m false false) p
  = Build_shr_record (m / 2 ^ Zpos p) (Z.testbit m (Zpos p - 1))
      (negb (m mod 2 ^ (Zpos p - 1) =? 0)).
Proof.
  intros Hm. induction p as [|p IH] using Pos.peano_ind.
  - cbn [Pos.iter]. rewrite shr_1_spec by assumption.
    change (1 - 1) with 0. rewrite Z.bit0_odd, Z.mod_1_r. reflexivity.
  - rewrite Pos.iter_succ, IH.
    assert (0 < 2 ^ Zpos p) by (apply Z.pow_pos_nonneg; lia).
    assert (0 < 2 ^ (Zpos p - 1)) by (apply Z.pow_pos_nonneg; lia).
    rewrite shr_1_spec by (apply Z.div_pos; lia).
    rewrite Pos2Z.inj_succ. replace (Z.succ (Zpos p) - 1) with (Zpos p) by lia.
    f_equal.
    + rewrite Z.pow_succ_r by lia. rewrite Z.div_div by lia. f_equal. lia.
    + rewrite Z.testbit_odd, Z.shiftr_div_pow2 by lia. reflexivity.
    + assert (E : m mod 2 ^ Zpos p
                  = m mod 2 ^ (Zpos p - 1)
                    + 2 ^ (Zpos p - 1) * ((m / 2 ^ (Zpos p - 1)) mod 2)).
      { rewrite (pow2_pred (Zpos p)) by lia. apply Z.rem_mul_r; lia. }
      rewrite E. rewrite Z.testbit_odd, Z.shiftr_div_pow2 by lia.
      pose proof (Zmod_odd (m / 2 ^ (Zpos p - 1))) as Hodd.
      pose proof (Z.mod_pos_bound m (2 ^ (Zpos p - 1)) ltac:(lia)).
      destruct (Z.odd (m / 2 ^ (Zpos p - 1))); rewrite Hodd;
        destruct (Z.eqb_spec (m mod 2 ^ (Zpos p - 1)) 0) as [E0|E0];
        match goal with |- context [?a =? 0] =>
          destruct (Z.eqb_spec a 0) end;
        cbn [orb negb]; try reflexivity; exfalso; nia.
Qed.

(** Rounding to nearest even after an exact shift is [div_nearest_even]. *)
Lemma round_shift_exact (m : Z) (p : positive) :
  0 <= m ->
  let mrs := Pos.iter shr_1 (Build_shr_record m false false) p in
  round_nearest_even (shr_m mrs) (loc_of_shr_record mrs)
  = div_nearest_even m (2 ^ Zpos p).
Proof.
  intros Hm mrs. subst mrs. rewrite shr_iter_exact by assumption.
  cbn [shr_m]. unfold div_nearest_even.
  assert (P1 : 0 < 2 ^ (Zpos p - 1)) by (apply Z.pow_pos_nonneg; lia).
  assert (E2 : 2 ^ Zpos p = 2 ^ (Zpos p - 1) * 2) by (apply pow2_pred; lia).
  assert (E : m mod 2 ^ Zpos p
              = m mod 2 ^ (Zpos p - 1)
                + 2 ^ (Zpos p - 1) * ((m / 2 ^ (Zpos p - 1)) mod 2)).
  { rewrite E2 at 1. apply Z.rem_mul_r; lia. }
  rewrite Z.testbit_odd, Z.shiftr_div_pow2 by lia.
  pose proof (Zmod_odd (m / 2 ^ (Zpos p - 1))) as Hodd.
  pose proof (Z.mod_pos_bound m (2 ^ (Zpos p - 1)) ltac:(lia)) as B1.
  destruct (Z.odd (m / 2 ^ (Zpos p - 1)));
    destruct (Z.eqb_spec (m mod 2 ^ (Zpos p - 1)) 0) as [E0|E0];
    cbn [negb loc_of_shr_record round_nearest_even].
  - replace (2 * (m mod 2 ^ Zpos p) ?= 2 ^ Zpos p) with Eq; [reflexivity|].
    symmetry. apply Z.compare_eq_iff. nia.
  - replace (2 * (m mod 2 ^ Zpos p) ?= 2 ^ Zpos p) with Gt; [reflexivity|].
    symmetry. apply Z.compare_gt_iff. nia.
  - replace (2 * (m mod 2 ^ Zpos p) ?= 2 ^ Zpos p) with Lt; [reflexivity|].
    symmetry. apply Z.compare_lt_iff. nia.
  - replace (2 * (m mod 2 ^ Zpos p) ?= 2 ^ Zpos p) with Lt; [reflexivity|].
    symmetry. apply Z.compare_lt_iff. nia.
Qed.

(** ** Binary_round_aux, made explicit *)
Lemma round_nearest_even_range (m : Z) (l : location) :
  m <= round_nearest_even m l <= m + 1.
Proof. destruct l as [|[]]; cbn; try destruct (Z.even m); lia. Qed.

Lemma shr_record_of_loc_m (m : Z) (l : location) :
  shr_m (shr_record_of_loc m l) = m.
Proof. now destruct l as [|[]]. Qed.

Lemma loc_of_shr_record_of_loc (m : Z) (l : location) :
  loc_of_shr_record (shr_record_of_loc m l) = l.
Proof. now destruct l as [|[]]. Qed.

Lemma div_nearest_even_1 (m : Z) : div_nearest_even m 1 = m.
Proof.
  unfold div_nearest_even. rewrite Z.mod_1_r, Z.div_1_r. reflexivity.
Qed.

Lemma fexp64_ge (e : Z) : -1074 <= fexp64 e /\ e - 53 <= fexp64 e.
Proof. unfold fexp64. lia. Qed.

(** The second stage of [binary_round_aux]: after rounding, a mantissa of
    54 bits is shifted once more. *)
Lemma second_stage (sx : bool) (m2 fe : Z) :
  0 <= m2 <= 2 ^ 53 -> -1074 <= fe ->
  (let '(mrs, e) := shr_fexp prec emax m2 fe loc_Exact in
   match shr_m mrs with
   | Z0 => S754_zero sx
   | Zpos m => if e <=? emax - prec then S754_finite sx m e
               else S754_infinity sx
   | Zneg _ => S754_nan
   end) = finish sx m2 fe.
Proof.
  intros Hm Hfe. unfold shr_fexp, finish. rewrite fexp_eq.
  destruct (Z.eqb_spec m2 0) as [->|Hnz].
  { cbn [Zdigits2 shr_record_of_loc]. unfold shr.
    destruct (fexp64 (0 + fe) - fe) as [|p|p] eqn:E; try reflexivity.
    unfold fexp64 in E. lia. }
  assert (Hpos : 0 < m2) by lia.
  destruct (Zdigits2_bounds m2 Hpos) as (D1 & D2 & D3).
  assert (D54 : Zdigits2 m2 <= 54).
  { destruct (Z.le_gt_cases (Zdigits2 m2) 54) as [|Hgt]; [assumption|].
    assert (2 ^ 54 <= 2 ^ (Zdigits2 m2 - 1)) by (apply Z.pow_le_mono_r; lia).
    change (2 ^ 54) with (2 * 2 ^ 53) in *. lia. }
  destruct (Z.leb_spec (Zdigits2 m2) 53) as [Hle|Hgt].
  - assert (E : fexp64 (Zdigits2 m2 + fe) - fe <= 0) by (unfold fexp64; lia).
    unfold shr. cbn [shr_record_of_loc].
    destruct (fexp64 (Zdigits2 m2 + fe) - fe) as [|p|p]; try lia;
      cbn [shr_m]; destruct m2 as [|q|q]; try lia; reflexivity.
  - assert (E : fexp64 (Zdigits2 m2 + fe) - fe = 1) by (unfold fexp64; lia).
    rewrite E. unfold shr. cbn [shr_record_of_loc iter_pos].
    rewrite shr_1_spec by lia. cbn [shr_m].
    assert (1 <= m2 / 2).
    { apply Z.div_le_lower_bound; [lia|].
      assert (2 ^ 53 <= 2 ^ (Zdigits2 m2 - 1)) by (apply Z.pow_le_mono_r; lia).
      change (2 ^ 53) with 9007199254740992 in *. lia. }
    destruct (m2 / 2) as [|q|q]; try lia. reflexivity.
Qed.

Lemma bra_finish (sx : bool) (mx ex : Z) (lx : location) :
  0 <= mx -> ex <= fexp64 (Zdigits2 mx + ex) ->
  let fe := fexp64 (Zdigits2 mx + ex) in
  exists m2,
    mx / 2 ^ (fe - ex) <= m2 <= mx / 2 ^ (fe - ex) + 1
    /\ m2 <= 2 ^ 53
    /\ (-1074 < fe -> 2 ^ 52 <= m2)
    /\ (lx = loc_Exact -> m2 = div_nearest_even mx (2 ^ (fe - ex)))
    /\ binary_round_aux prec emax sx mx ex lx = finish sx m2 fe.
Proof.
  intros Hmx Hex fe.
  assert (Hlt : mx / 2 ^ (fe - ex) < 2 ^ 53).
  { assert (0 < 2 ^ (fe - ex)) by (apply Z.pow_pos_nonneg; lia).
    apply Z.div_lt_upper_bound; [lia|].
    destruct (Z.eq_dec mx 0) as [->|Hnz]; [lia|].
    destruct (Zdigits2_bounds mx) as (D1 & D2 & D3); [lia|].
    rewrite <- Z.pow_add_r by lia.
    assert (2 ^ Zdigits2 mx <= 2 ^ (fe - ex + 53)).
    { apply Z.pow_le_mono_r; [lia|]. subst fe. unfold fexp64. lia. }
    lia. }
  assert (Hge : 0 <= mx / 2 ^ (fe - ex)).
  { apply Z.div_pos; [lia|]. apply Z.pow_pos_nonneg; lia. }
  unfold binary_round_aux.
  assert (S1 : exists mrs,
             shr_fexp prec emax mx ex lx = (mrs, fe)
             /\ shr_m mrs = mx / 2 ^ (fe - ex)
             /\ (lx = loc_Exact ->
                 round_nearest_even (shr_m mrs) (loc_of_shr_record mrs)
                 = div_nearest_even mx (2 ^ (fe - ex)))).
  { unfold shr_fexp, shr. rewrite fexp_eq. fold fe.
    destruct (fe - ex) as [|p|p] eqn:E; try lia.
    - exists (shr_record_of_loc mx lx). replace fe with ex by lia.
      rewrite shr_record_of_loc_m, Z.div_1_r. repeat split.
      intros ->. cbn. now rewrite div_nearest_even_1.
    - exists (iter_pos shr_1 p (shr_record_of_loc mx lx)).
      split; [f_equal; lia|]. rewrite iter_pos_iter. split.
      + destruct lx as [|[]]; cbn [shr_record_of_loc];
          now rewrite shr_iter_m.
      + intros ->. cbn [shr_record_of_loc].
        now rewrite (round_shift_exact mx p Hmx). }
  destruct S1 as (mrs & -> & Hm1 & Hexact).
  set (m2 := round_nearest_even (shr_m mrs) (loc_of_shr_record mrs)) in *.
  pose proof (round_nearest_even_range (shr_m mrs) (loc_of_shr_record mrs))
    as Hr. fold m2 in Hr. rewrite Hm1 in Hr.
  exists m2. split; [exact Hr|]. split; [lia|]. split.
  { intros Hfe. assert (2 ^ 52 <= mx / 2 ^ (fe - ex)); [|lia].
    assert (Efe : fe = Zdigits2 mx + ex - 53) by (subst fe; unfold fexp64 in *; lia).
    assert (0 < 2 ^ (fe - ex)) by (apply Z.pow_pos_nonneg; lia).
    destruct (Z.eq_dec mx 0) as [->|Hnz]; [cbn in Efe; lia|].
    destruct (Zdigits2_bounds mx) as (D1 & D2 & D3); [lia|].
    apply Z.div_le_lower_bound; [lia|]. rewrite <- Z.pow_add_r by lia.
    replace (fe - ex + 52) with (Zdigits2 mx - 1) by lia. exact D2. }
  split; [exact Hexact|].
  apply second_stage; [lia|]. subst fe. unfold fexp64. lia.
Qed.

(** ** Binary_normalize, made explicit *)
Lemma Pos_iter_xO (m d : positive) :
  Zpos (Pos.iter xO m d) = Zpos m * 2 ^ Zpos d.
Proof.
  induction d as [|d IH] using Pos.peano_ind.
  - cbn [Pos.iter]. rewrite Pos2Z.inj_xO. lia.
  - rewrite Pos.iter_succ, Pos2Z.inj_succ, Z.pow_succ_r by lia.
    rewrite Pos2Z.inj_xO, IH. lia.
Qed.

Lemma shl_align_cases (mx : positive) (ex fe : Z) :
  (fe < ex /\ shl_align mx ex fe = (Pos.iter xO mx (Z.to_pos (ex - fe)), fe))
  \/ (ex <= fe /\ shl_align mx ex fe = (mx, ex)).
Proof.
  unfold shl_align. destruct (fe - ex) as [|p|d] eqn:E.
  - right. split; [lia|reflexivity].
  - right. split; [lia|reflexivity].
  - left. split; [lia|]. do 2 f_equal.
    replace (ex - fe) with (Zpos d) by lia. reflexivity.
Qed.

Lemma round_pos_mantissa (m e : Z) :
  0 < m ->
  let fe := fexp64 (Zdigits2 m + e) in
  let m2 := if fe <=? e then m * 2 ^ (e - fe)
            else div_nearest_even m (2 ^ (fe - e)) in
  0 <= m2 <= 2 ^ 53 /\ (-1074 < fe -> 2 ^ 52 <= m2)
  /\ forall sx, binary_round_aux prec emax sx
                  (if fe <=? e then m * 2 ^ (e - fe) else m)
                  (if fe <=? e then fe else e) loc_Exact
                = finish sx m2 fe.
Proof.
  intros Hm fe m2.
  destruct (Z.leb_spec fe e) as [Hle|Hgt].
  - assert (P : 0 < 2 ^ (e - fe)) by (apply Z.pow_pos_nonneg; lia).
    assert (Ed : Zdigits2 (m * 2 ^ (e - fe)) + fe = Zdigits2 m + e).
    { rewrite Zdigits2_mul_pow2 by lia. lia. }
    assert (H : forall sx, exists k,
               m * 2 ^ (e - fe) / 2 ^ (fe - fe) <= k
                 <= m * 2 ^ (e - fe) / 2 ^ (fe - fe) + 1
               /\ k <= 2 ^ 53 /\ (-1074 < fe -> 2 ^ 52 <= k)
               /\ (loc_Exact = loc_Exact ->
                   k = div_nearest_even (m * 2 ^ (e - fe)) (2 ^ (fe - fe)))
               /\ binary_round_aux prec emax sx (m * 2 ^ (e - fe)) fe loc_Exact
                  = finish sx k fe).
    { intros sx.
      pose proof (bra_finish sx (m * 2 ^ (e - fe)) fe loc_Exact) as B.
      cbv zeta in B. rewrite Ed in B. apply B; [nia|fold fe; lia]. }
    replace (fe - fe) with 0 in H by lia.
    change (2 ^ 0) with 1 in H.
    assert (K : forall k : Z,
               k = div_nearest_even (m * 2 ^ (e - fe)) 1 -> k = m2).
    { intros k ->. now rewrite div_nearest_even_1. }
    destruct (H false) as (k & _ & K1 & K2 & K3 & _).
    rewrite (K k (K3 eq_refl)) in K1, K2.
    split; [subst m2; nia|]. split; [exact K2|].
    intros sx. destruct (H sx) as (k' & _ & _ & _ & K3' & ->).
    now rewrite (K k' (K3' eq_refl)).
  - assert (H : forall sx, exists k,
               m / 2 ^ (fe - e) <= k <= m / 2 ^ (fe - e) + 1
               /\ k <= 2 ^ 53 /\ (-1074 < fe -> 2 ^ 52 <= k)
               /\ (loc_Exact = loc_Exact ->
                   k = div_nearest_even m (2 ^ (fe - e)))
               /\ binary_round_aux prec emax sx m e loc_Exact = finish sx k fe).
    { intros sx. apply (bra_finish sx m e loc_Exact); [lia|fold fe; lia]. }
    assert (P : 0 < 2 ^ (fe - e)) by (apply Z.pow_pos_nonneg; lia).
    assert (0 <= m / 2 ^ (fe - e)) by (apply Z.div_pos; lia).
    destruct (H false) as (k & K0 & K1 & K2 & K3 & _).
    rewrite (K3 eq_refl) in K0, K1, K2. fold m2 in K0, K1, K2.
    split; [lia|]. split; [exact K2|].
    intros sx. destruct (H sx) as (k' & _ & _ & _ & K3' & ->).
    now rewrite (K3' eq_refl).
Qed.

Lemma binary_round_pos (sx : bool) (mx : positive) (ex : Z) :
  binary_round prec emax sx mx ex = round_pos sx (Zpos mx) ex.
Proof.
  unfold binary_round, round_pos. rewrite fexp_eq.
  change (Zpos (digits2_pos mx)) with (Zdigits2 (Zpos mx)).
  destruct (round_pos_mantissa (Zpos mx) ex ltac:(lia)) as (_ & _ & H).
  rewrite <- H. clear H.
  set (fe := fexp64 (Zdigits2 (Zpos mx) + ex)).
  destruct (shl_align_cases mx ex fe) as [[Hlt ->]|[Hge ->]].
  - rewrite Pos_iter_xO, Z2Pos.id by lia.
    destruct (Z.leb_spec fe ex); [reflexivity|lia].
  - destruct (Z.leb_spec fe ex); [|reflexivity].
    replace (ex - fe) with 0 by lia. f_equal; lia.
Qed.

Lemma round_scaled_pos (m e : Z) : 0 < m -> round_scaled m e = round_pos false m e.
Proof.
  intros Hm. unfold round_scaled, binary_normalize.
  destruct m as [|p|p]; try lia. apply binary_round_pos.
Qed.

(** ** What [finish] returns *)
Lemma bounded64_intro (m : positive) (e : Z) :
  fexp64 (Zdigits2 (Zpos m) + e) = e -> e <= 971 -> bounded64 m e = true.
Proof.
  intros H1 H2. unfold bounded64, bounded, canonical_mantissa.
  rewrite fexp_eq. change (Zpos (digits2_pos m)) with (Zdigits2 (Zpos m)).
  rewrite H1, Z.eqb_refl. cbn [andb]. apply Z.leb_le. exact H2.
Qed.

Lemma bounded64_elim (m : positive) (e : Z) :
  bounded64 m e = true ->
  fexp64 (Zdigits2 (Zpos m) + e) = e /\ e <= 971
  /\ -1074 <= e /\ Zdigits2 (Zpos m) <= 53
  /\ (-1074 < e -> Zdigits2 (Zpos m) = 53).
Proof.
  unfold bounded64, bounded, canonical_mantissa. rewrite fexp_eq.
  change (Zpos (digits2_pos m)) with (Zdigits2 (Zpos m)).
  rewrite andb_true_iff, Z.eqb_eq, Z.leb_le. change (emax - prec) with 971.
  unfold fexp64. lia.
Qed.

Lemma finish_cases (sx : bool) (m2 fe : Z) :
  0 <= m2 <= 2 ^ 53 -> -1074 <= fe -> (-1074 < fe -> 2 ^ 52 <= m2) ->
  (m2 = 0 /\ finish sx m2 fe = S754_zero sx)
  \/ (0 < m2 /\ 971 < fe + (if m2 =? 2 ^ 53 then 1 else 0)
      /\ finish sx m2 fe = S754_infinity sx)
  \/ (exists m e, finish sx m2 fe = S754_finite sx m e
                  /\ bounded64 m e = true
                  /\ fe <= e /\ Zpos m * 2 ^ (e - fe) = m2).
Proof.
  intros Hm Hfe Hcan. unfold finish.
  destruct (Z.eqb_spec m2 0) as [->|Hnz]; [now left|]. right.
  assert (Hpos : 0 < m2) by lia.
  destruct (Zdigits2_bounds m2 Hpos) as (D1 & D2 & D3).
  destruct (Z.leb_spec (Zdigits2 m2) 53) as [Hle|Hgt].
  - assert (Hlt : m2 < 2 ^ 53).
    { assert (2 ^ Zdigits2 m2 <= 2 ^ 53) by (apply Z.pow_le_mono_r; lia). lia. }
    destruct (Z.eqb_spec m2 (2 ^ 53)) as [|_]; [lia|].
    destruct (Z.leb_spec fe 971) as [Hfin|Hinf]; [right|left; repeat split; lia].
    exists (Z.to_pos m2), fe. rewrite Z2Pos.id, Z.sub_diag by lia.
    repeat split; try lia. apply bounded64_intro; [|assumption].
    rewrite Z2Pos.id by lia. unfold fexp64.
    destruct (Z.eq_dec fe (-1074)) as [->|]; [lia|].
    assert (2 ^ 52 <= m2) by (apply Hcan; lia).
    assert (53 <= Zdigits2 m2) by (apply (Zdigits2_ge_pow2 m2 52); lia). lia.
  - assert (E : m2 = 2 ^ 53).
    { assert (2 ^ 53 <= 2 ^ (Zdigits2 m2 - 1)) by (apply Z.pow_le_mono_r; lia).
      lia. }
    rewrite E, Z.eqb_refl.
    destruct (Z.leb_spec (fe + 1) 971) as [Hfin|Hinf]; [right|left; repeat split; lia].
    exists (Z.to_pos (2 ^ 53 / 2)), (fe + 1).
    change (2 ^ 53 / 2) with (2 ^ 52). rewrite Z2Pos.id by lia.
    repeat split; try lia.
    + apply bounded64_intro; [|assumption]. rewrite Z2Pos.id by lia.
      change (Zdigits2 (2 ^ 52)) with 53. unfold fexp64. lia.
    + replace (fe + 1 - fe) with 1 by lia. reflexivity.
Qed.

(** ** Rounded division *)
Lemma dne_exact (q d : Z) : 0 < d -> div_nearest_even (q * d) d = q.
Proof.
  intros Hd. unfold div_nearest_even.
  rewrite Z.mod_mul, Z.div_mul by lia.
  destruct d; try lia. reflexivity.
Qed.

Lemma dne_scale (a d c : Z) :
  0 < d -> 0 < c -> div_nearest_even (a * c) (d * c) = div_nearest_even a d.
Proof.
  intros Hd Hc. unfold div_nearest_even.
  rewrite Z.div_mul_cancel_r, Z.mul_mod_distr_r by lia.
  assert (E : (2 * (a mod d * c) ?= d * c) = (2 * (a mod d) ?= d)).
  { destruct (Z.compare_spec (2 * (a mod d)) d);
      [apply Z.compare_eq_iff|apply Z.compare_lt_iff|apply Z.compare_gt_iff];
      nia. }
  now rewrite E.
Qed.

Lemma dne_range (a d : Z) :
  0 < d ->
  a / d <= div_nearest_even a d <= a / d + 1
  /\ - d <= 2 * (div_nearest_even a d * d - a) <= d.
Proof.
  intros Hd. unfold div_nearest_even.
  pose proof (Z.div_mod a d ltac:(lia)) as E.
  pose proof (Z.mod_pos_bound a d Hd) as B.
  destruct (Z.compare_spec (2 * (a mod d)) d) as [C|C|C];
    [destruct (Z.even (a / d))| |]; split; nia.
Qed.

Lemma dne_le (a d g : Z) : 0 < d -> a <= g * d -> div_nearest_even a d <= g.
Proof.
  intros Hd H. destruct (Z.eq_dec a (g * d)) as [->|Hne].
  - rewrite dne_exact by assumption. lia.
  - destruct (dne_range a d Hd) as [[_ H1] _].
    assert (a / d < g) by (apply Z.div_lt_upper_bound; lia). lia.
Qed.

Lemma dne_ge (a d g : Z) : 0 < d -> g * d <= a -> g <= div_nearest_even a d.
Proof.
  intros Hd H. destruct (dne_range a d Hd) as [[H1 _] _].
  assert (g <= a / d) by (apply Z.div_le_lower_bound; lia). lia.
Qed.

Lemma dne_nonneg (a d : Z) : 0 < d -> 0 <= a -> 0 <= div_nearest_even a d.
Proof. intros Hd Ha. apply dne_ge; lia. Qed.

(** ** The value of a rounded number *)
Lemma round_pos_shift (sx : bool) (m e k : Z) :
  0 < m -> 0 <= k -> round_pos sx (m * 2 ^ k) e = round_pos sx m (e + k).
Proof.
  intros Hm Hk. unfold round_pos.
  assert (Pk : 0 < 2 ^ k) by (apply Z.pow_pos_nonneg; lia).
  rewrite Zdigits2_mul_pow2 by lia.
  replace (Zdigits2 m + k + e) with (Zdigits2 m + (e + k)) by lia.
  set (fe := fexp64 (Zdigits2 m + (e + k))). f_equal.
  destruct (Z.leb_spec fe e) as [H1|H1]; destruct (Z.leb_spec fe (e + k)) as [H2|H2];
    try lia.
  - rewrite <- Z.mul_assoc, <- Z.pow_add_r by lia. do 2 f_equal. lia.
  - replace (m * 2 ^ k) with (m * 2 ^ (e + k - fe) * 2 ^ (fe - e)).
    + apply dne_exact. apply Z.pow_pos_nonneg; lia.
    + rewrite <- Z.mul_assoc, <- Z.pow_add_r by lia. do 2 f_equal. lia.
  - replace (2 ^ (fe - e)) with (2 ^ (fe - (e + k)) * 2 ^ k).
    + apply dne_scale; [apply Z.pow_pos_nonneg; lia|lia].
    + rewrite <- Z.pow_add_r by lia. f_equal. lia.
Qed.

Lemma round_pos_min (sx : bool) (z : Z) :
  0 < z ->
  round_pos sx z (-1074)
  = finish sx (div_nearest_even z (2 ^ ulp_exp z)) (ulp_exp z - 1074).
Proof.
  intros Hz. unfold round_pos, ulp_exp, fexp64.
  destruct (Z.max_spec (Zdigits2 z - 53) 0) as [[H ->]|[H ->]].
  - replace (Z.max (Zdigits2 z + -1074 - 53) (-1074)) with (-1074) by lia.
    cbn. now rewrite div_nearest_even_1, Z.mul_1_r.
  - replace (Z.max (Zdigits2 z + -1074 - 53) (-1074))
      with (Zdigits2 z - 53 - 1074) by lia.
    destruct (Z.leb_spec (Zdigits2 z - 53 - 1074) (-1074)) as [H1|H1].
    + replace (Zdigits2 z - 53) with 0 by lia. cbn.
      now rewrite div_nearest_even_1, Z.mul_1_r.
    + do 3 f_equal. lia.
Qed.

Lemma rnd_0 : rnd 0 = 0.
Proof. reflexivity. Qed.

Lemma ulp_exp_nonneg (z : Z) : 0 <= ulp_exp z.
Proof. unfold ulp_exp. lia. Qed.

Lemma rnd_pos_bounds (z : Z) :
  0 < z ->
  0 < div_nearest_even z (2 ^ ulp_exp z) <= 2 ^ 53
  /\ (0 < ulp_exp z -> 2 ^ 52 <= div_nearest_even z (2 ^ ulp_exp z)).
Proof.
  intros Hz.
  destruct (round_pos_mantissa z (-1074) Hz) as (H1 & H2 & _).
  cbv zeta in H1, H2. unfold ulp_exp, fexp64 in *.
  destruct (Z.max_spec (Zdigits2 z - 53) 0) as [[H E]|[H E]]; rewrite E.
  - change (2 ^ 0) with 1. rewrite div_nearest_even_1.
    replace (Z.max (Zdigits2 z + -1074 - 53) (-1074)) with (-1074) in * by lia.
    cbn in H1. split; [lia|]. lia.
  - replace (Z.max (Zdigits2 z + -1074 - 53) (-1074))
      with (Zdigits2 z - 53 - 1074) in * by lia.
    destruct (Z.leb_spec (Zdigits2 z - 53 - 1074) (-1074)) as [H3|H3].
    + replace (Zdigits2 z - 53) with 0 by lia. change (2 ^ 0) with 1.
      rewrite div_nearest_even_1.
      replace (-1074 - (Zdigits2 z - 53 - 1074)) with 0 in H1 by lia.
      split; [lia|]. lia.
    + replace (Zdigits2 z - 53 - 1074 - -1074) with (Zdigits2 z - 53) in * by lia.
      split; [|intros _; apply H2; lia].
      assert (2 ^ 52 <= div_nearest_even z (2 ^ (Zdigits2 z - 53)))
        by (apply H2; lia). lia.
Qed.

Lemma rnd_pos (z : Z) : 0 < z -> 0 < rnd z.
Proof.
  intros Hz. unfold rnd. destruct (rnd_pos_bounds z Hz) as [[H _] _].
  pose proof (ulp_exp_nonneg z).
  assert (0 < 2 ^ ulp_exp z) by (apply Z.pow_pos_nonneg; lia). nia.
Qed.

Lemma one64_pos : 0 < one64.
Proof. unfold one64. apply Z.pow_pos_nonneg; lia. Qed.

Lemma top64_pos : 0 < top64.
Proof. unfold top64. apply Z.pow_pos_nonneg; lia. Qed.

Lemma top64_split (a b : Z) :
  0 <= a -> 0 <= b -> a + b = 2098 -> 2 ^ a * 2 ^ b = top64.
Proof.
  intros Ha Hb E. rewrite <- Z.pow_add_r, E by assumption. reflexivity.
Qed.

Lemma pow2_one64 (e : Z) : 0 <= e -> 2 ^ (e + 1074) = 2 ^ e * one64.
Proof. intros He. apply Z.pow_add_r; lia. Qed.

Lemma scaled_le_top64 (m a j : Z) :
  0 <= m <= 2 ^ 53 -> 0 <= a -> 0 <= j -> a + j <= 2045 ->
  2 ^ j * (m * 2 ^ a) <= top64.
Proof.
  intros Hm Ha Hj Hle.
  rewrite <- (top64_split (j + 53) (2045 - j)) by lia.
  rewrite Z.pow_add_r, <- Z.mul_assoc by lia.
  apply Z.mul_le_mono_nonneg_l; [apply Z.pow_nonneg; lia|].
  apply Z.mul_le_mono_nonneg; [lia|lia|apply Z.pow_nonneg; lia|].
  apply Z.pow_le_mono_r; lia.
Qed.

Lemma scaled_lt_top64 (m a : Z) :
  0 <= m < 2 ^ 53 -> 0 <= a <= 2045 -> m * 2 ^ a < top64.
Proof.
  intros Hm Ha.
  pose proof (scaled_le_top64 (m + 1) a 0 ltac:(lia) ltac:(lia) ltac:(lia)
                ltac:(lia)) as H.
  assert (0 < 2 ^ a) by (apply Z.pow_pos_nonneg; lia).
  change (2 ^ 0) with 1 in H. nia.
Qed.

Lemma one64_top64 : 4 * one64 <= top64.
Proof.
  pose proof (scaled_le_top64 1 1074 2 ltac:(lia) ltac:(lia) ltac:(lia)
                ltac:(lia)) as H.
  rewrite Z.mul_1_l in H. exact H.
Qed.

(** [round_scaled] at the exponent -1074 returns the float of value [rnd z],
    or the infinity when that is past the largest float. *)
Lemma round_pos_value (sx : bool) (z : Z) :
  0 < z ->
  (round_pos sx z (-1074) = S754_infinity sx /\ top64 <= rnd z)
  \/ (exists m e, round_pos sx z (-1074) = S754_finite sx m e
                  /\ bounded64 m e = true
                  /\ Zpos m * 2 ^ (e + 1074) = rnd z
                  /\ rnd z < top64).
Proof.
  intros Hz. rewrite round_pos_min by assumption.
  destruct (rnd_pos_bounds z Hz) as [[B1 B2] B3].
  pose proof (ulp_exp_nonneg z) as U. unfold rnd.
  set (m2 := div_nearest_even z (2 ^ ulp_exp z)) in *.
  set (u := ulp_exp z) in *.
  assert (Pu : 0 < 2 ^ u) by (apply Z.pow_pos_nonneg; lia).
  destruct (finish_cases sx m2 (u - 1074)) as [[H _]|[(_ & Hov & ->)|(m & e & -> & Hb & He & Hv)]];
    try lia.
  - left. split; [reflexivity|].
    destruct (Z.eqb_spec m2 (2 ^ 53)) as [E|E].
    + rewrite E, <- Z.pow_add_r by lia. unfold top64.
      apply Z.pow_le_mono_r; lia.
    + assert (2 ^ 52 <= m2) by (apply B3; lia).
      rewrite <- (top64_split 52 2046) by lia.
      apply Z.mul_le_mono_nonneg; [lia|assumption|apply Z.pow_nonneg; lia|].
      apply Z.pow_le_mono_r; lia.
  - right. exists m, e. split; [reflexivity|]. split; [exact Hb|].
    destruct (bounded64_elim m e Hb) as (_ & Hle & _ & Hd & _).
    assert (Ev : Zpos m * 2 ^ (e + 1074) = m2 * 2 ^ u).
    { rewrite <- Hv. replace (e + 1074) with (e - (u - 1074) + u) by lia.
      rewrite Z.pow_add_r by lia. lia. }
    split; [exact Ev|]. rewrite <- Ev.
    destruct (Zdigits2_bounds (Zpos m) ltac:(lia)) as (_ & _ & D3).
    assert (2 ^ Zdigits2 (Zpos m) <= 2 ^ 53) by (apply Z.pow_le_mono_r; lia).
    apply scaled_lt_top64; lia.
Qed.

(** ** Representable values *)
Lemma rnd_representable (z : Z) : representable z -> rnd z = z.
Proof.
  intros (m & k & -> & Hm & Hk).
  destruct (Z.eq_dec m 0) as [->|Hnz]; [reflexivity|].
  assert (Pk : 0 < 2 ^ k) by (apply Z.pow_pos_nonneg; lia).
  unfold rnd, ulp_exp. rewrite Zdigits2_mul_pow2 by lia.
  assert (Zdigits2 m <= 53) by (apply Zdigits2_lt_pow2; lia).
  set (u := Z.max (Zdigits2 m + k - 53) 0).
  assert (Hu : 0 <= u <= k) by (subst u; lia).
  replace (m * 2 ^ k) with (m * 2 ^ (k - u) * 2 ^ u).
  - rewrite dne_exact by (apply Z.pow_pos_nonneg; lia). reflexivity.
  - rewrite <- Z.mul_assoc, <- Z.pow_add_r by lia. do 2 f_equal. lia.
Qed.

Lemma rnd_le_representable (z g : Z) :
  0 <= z <= g -> representable g -> rnd z <= g.
Proof.
  intros Hz (m & k & -> & Hm & Hk).
  destruct (Z.eq_dec z 0) as [->|Hnz]; [rewrite rnd_0; lia|].
  assert (Pk : 0 < 2 ^ k) by (apply Z.pow_pos_nonneg; lia).
  assert (Hmpos : 0 < m) by nia.
  unfold rnd, ulp_exp.
  assert (Zdigits2 z <= Zdigits2 (m * 2 ^ k)) by (apply Zdigits2_le; lia).
  rewrite Zdigits2_mul_pow2 in H by lia.
  assert (Zdigits2 m <= 53) by (apply Zdigits2_lt_pow2; lia).
  set (u := Z.max (Zdigits2 z - 53) 0).
  assert (Hu : 0 <= u <= k) by (subst u; lia).
  assert (Pu : 0 < 2 ^ u) by (apply Z.pow_pos_nonneg; lia).
  assert (E : m * 2 ^ k = m * 2 ^ (k - u) * 2 ^ u).
  { rewrite <- Z.mul_assoc, <- Z.pow_add_r by lia. do 2 f_equal. lia. }
  rewrite E. apply Z.mul_le_mono_nonneg_r; [lia|].
  apply dne_le; [lia|]. rewrite <- E. lia.
Qed.

Lemma rnd_error (z : Z) :
  0 <= z -> - 2 ^ ulp_exp z <= 2 * (rnd z - z) <= 2 ^ ulp_exp z.
Proof.
  intros Hz. unfold rnd. pose proof (ulp_exp_nonneg z).
  assert (P : 0 < 2 ^ ulp_exp z) by (apply Z.pow_pos_nonneg; lia).
  destruct (dne_range z (2 ^ ulp_exp z) P) as [_ H2]. lia.
Qed.

Lemma bounded64_value (m : positive) (e : Z) :
  bounded64 m e = true ->
  representable (Zpos m * 2 ^ (e + 1074))
  /\ 0 < Zpos m * 2 ^ (e + 1074) < top64.
Proof.
  intros Hb. destruct (bounded64_elim m e Hb) as (_ & Hle & Hge & Hd & _).
  destruct (Zdigits2_bounds (Zpos m) ltac:(lia)) as (_ & _ & D3).
  assert (2 ^ Zdigits2 (Zpos m) <= 2 ^ 53) by (apply Z.pow_le_mono_r; lia).
  assert (0 < 2 ^ (e + 1074)) by (apply Z.pow_pos_nonneg; lia).
  split.
  - exists (Zpos m), (e + 1074). repeat split; lia.
  - split; [apply Z.mul_pos_pos; lia|apply scaled_lt_top64; lia].
Qed.

Lemma bounded64_unique (m1 m2 : positive) (e1 e2 : Z) :
  bounded64 m1 e1 = true -> bounded64 m2 e2 = true ->
  Zpos m1 * 2 ^ (e1 + 1074) = Zpos m2 * 2 ^ (e2 + 1074) ->
  m1 = m2 /\ e1 = e2.
Proof.
  intros H1 H2 E.
  destruct (bounded64_elim m1 e1 H1) as (C1 & _ & G1 & _).
  destruct (bounded64_elim m2 e2 H2) as (C2 & _ & G2 & _).
  assert (D : Zdigits2 (Zpos m1) + e1 = Zdigits2 (Zpos m2) + e2).
  { assert (Zdigits2 (Zpos m1 * 2 ^ (e1 + 1074))
            = Zdigits2 (Zpos m2 * 2 ^ (e2 + 1074))) by now rewrite E.
    rewrite !Zdigits2_mul_pow2 in H by lia. lia. }
  assert (e1 = e2) by (rewrite <- C1, <- C2, D; reflexivity). subst e2.
  split; [|reflexivity].
  assert (0 < 2 ^ (e1 + 1074)) by (apply Z.pow_pos_nonneg; lia).
  assert (Zpos m1 = Zpos m2) by nia. congruence.
Qed.

Lemma nonneg_finite_value (x : float) :
  nonneg_finite x -> representable (F2Z x) /\ 0 <= F2Z x < top64.
Proof.
  pose proof top64_pos as P.
  destruct x as [s|s| |s m e]; cbn [nonneg_finite F2Z]; try contradiction.
  - intros _. split; [exists 0, 0; cbn; lia|lia].
  - intros [-> Hb]. destruct (bounded64_value m e Hb) as [H1 H2].
    cbn [cond_Zopp]. split; [exact H1|lia].
Qed.

Lemma nonneg_finite_eq (x y : float) :
  nonneg_finite x -> nonneg_finite y -> 0 < F2Z x -> F2Z x = F2Z y -> x = y.
Proof.
  destruct x as [s|s| |s m e]; cbn [nonneg_finite F2Z]; try contradiction;
    try lia.
  destruct y as [s'|s'| |s' m' e']; cbn [nonneg_finite F2Z];
    try contradiction.
  - intros [-> H1] _. cbn [cond_Zopp]. lia.
  - intros [-> H1] [-> H2] _ E. cbn [cond_Zopp] in E.
    destruct (bounded64_unique m m' e e' H1 H2 E) as [-> ->]. reflexivity.
Qed.

(** The float of a positive value, when [rnd] stays below the overflow
    threshold. *)
Lemma round_scaled_value (z : Z) :
  0 < z -> rnd z < top64 ->
  nonneg_finite (round_scaled z (-1074))
  /\ F2Z (round_scaled z (-1074)) = rnd z.
Proof.
  intros Hz Hr. rewrite round_scaled_pos by assumption.
  destruct (round_pos_value false z Hz) as [[_ H]|(m & e & -> & Hb & Hv & _)];
    [lia|].
  cbn. split; [split; [reflexivity|exact Hb]|exact Hv].
Qed.

Lemma round_scaled_shift (m e : Z) :
  0 < m -> -1074 <= e ->
  round_scaled m e = round_scaled (m * 2 ^ (e + 1074)) (-1074).
Proof.
  intros Hm He. assert (0 < 2 ^ (e + 1074)) by (apply Z.pow_pos_nonneg; lia).
  rewrite !round_scaled_pos by nia.
  rewrite round_pos_shift by lia. f_equal. lia.
Qed.

(** ** Sums and differences of floats that are not negative *)
Lemma shl_align_value (mx : positive) (ex ez : Z) :
  ez <= ex ->
  Zpos (fst (shl_align mx ex ez)) = Zpos mx * 2 ^ (ex - ez).
Proof.
  intros H. destruct (shl_align_cases mx ex ez) as [[Hlt ->]|[Hge ->]]; cbn [fst].
  - rewrite Pos_iter_xO, Z2Pos.id by lia. reflexivity.
  - replace (ex - ez) with 0 by lia. lia.
Qed.

Lemma aligned_value (m : positive) (e ez : Z) :
  -1074 <= ez <= e ->
  Zpos m * 2 ^ (e - ez) * 2 ^ (ez + 1074) = Zpos m * 2 ^ (e + 1074).
Proof.
  intros H. rewrite <- Z.mul_assoc, <- Z.pow_add_r by lia.
  do 2 f_equal. lia.
Qed.

Lemma f_add_nonneg (x y : float) :
  nonneg_finite x -> nonneg_finite y -> rnd (F2Z x + F2Z y) < top64 ->
  nonneg_finite (f_add x y) /\ F2Z (f_add x y) = rnd (F2Z x + F2Z y).
Proof.
  intros Hx Hy Hr.
  destruct (nonneg_finite_value x Hx) as [Rx Bx].
  destruct (nonneg_finite_value y Hy) as [Ry By].
  destruct x as [sx|sx| |sx mx ex]; try contradiction;
    destruct y as [sy|sy| |sy my ey]; try contradiction.
  - split; [destruct sx, sy; exact I|destruct sx, sy; reflexivity].
  - cbn [F2Z] in *. rewrite Z.add_0_l, rnd_representable by assumption.
    split; [exact Hy|reflexivity].
  - cbn [F2Z] in *. rewrite Z.add_0_r, rnd_representable by assumption.
    split; [exact Hx|reflexivity].
  - destruct Hx as [-> Hbx], Hy as [-> Hby].
    destruct (bounded64_elim mx ex Hbx) as (_ & _ & Gx & _).
    destruct (bounded64_elim my ey Hby) as (_ & _ & Gy & _).
    unfold f_add, SFadd. cbn [cond_Zopp F2Z] in *.
    rewrite !shl_align_value by lia.
    set (ez := Z.min ex ey).
    assert (Px : 0 < 2 ^ (ex - ez)) by (apply Z.pow_pos_nonneg; lia).
    assert (Py : 0 < 2 ^ (ey - ez)) by (apply Z.pow_pos_nonneg; lia).
    change (binary_normalize prec emax ?m ?e false) with (round_scaled m e).
    rewrite round_scaled_shift by (subst ez; nia || lia).
    rewrite Z.mul_add_distr_r, !aligned_value by lia.
    apply round_scaled_value; [lia|exact Hr].
Qed.

Lemma f_sub_nonneg (x y : float) :
  nonneg_finite x -> nonneg_finite y -> F2Z y <= F2Z x ->
  nonneg_finite (f_sub x y) /\ F2Z (f_sub x y) = rnd (F2Z x - F2Z y).
Proof.
  intros Hx Hy Hle.
  destruct (nonneg_finite_value x Hx) as [Rx Bx].
  destruct (nonneg_finite_value y Hy) as [Ry By].
  assert (Hr : rnd (F2Z x - F2Z y) < top64).
  { assert (rnd (F2Z x - F2Z y) <= F2Z x)
      by (apply rnd_le_representable; [lia|assumption]). lia. }
  destruct x as [sx|sx| |sx mx ex]; try contradiction;
    destruct y as [sy|sy| |sy my ey]; try contradiction.
  - split; [destruct sx, sy; exact I|destruct sx, sy; reflexivity].
  - destruct Hy as [-> Hby]. cbn [F2Z cond_Zopp] in *.
    destruct (bounded64_value my ey Hby) as [_ ?]. lia.
  - cbn [F2Z] in *. rewrite Z.sub_0_r, rnd_representable by assumption.
    split; [exact Hx|reflexivity].
  - destruct Hx as [-> Hbx], Hy as [-> Hby].
    destruct (bounded64_elim mx ex Hbx) as (_ & _ & Gx & _).
    destruct (bounded64_elim my ey Hby) as (_ & _ & Gy & _).
    unfold f_sub, SFsub. cbn [cond_Zopp F2Z] in *.
    rewrite !shl_align_value by lia.
    set (ez := Z.min ex ey).
    assert (Pz : 0 < 2 ^ (ez + 1074)) by (apply Z.pow_pos_nonneg; lia).
    assert (E : (Zpos mx * 2 ^ (ex - ez) - Zpos my * 2 ^ (ey - ez))
                * 2 ^ (ez + 1074)
                = Zpos mx * 2 ^ (ex + 1074) - Zpos my * 2 ^ (ey + 1074)).
    { rewrite Z.mul_sub_distr_r, !aligned_value by lia. reflexivity. }
    destruct (Z.eq_dec (Zpos mx * 2 ^ (ex - ez) - Zpos my * 2 ^ (ey - ez)) 0)
      as [E0|E0].
    + rewrite E0. rewrite E0 in E. rewrite <- E. cbn. split; [exact I|reflexivity].
    + change (binary_normalize prec emax ?m ?e false) with (round_scaled m e).
      assert (0 < Zpos mx * 2 ^ (ex - ez) - Zpos my * 2 ^ (ey - ez)) by nia.
      rewrite round_scaled_shift by lia. rewrite E.
      apply round_scaled_value; [|exact Hr].
      rewrite <- E. apply Z.mul_pos_pos; lia.
Qed.

(** ** Integers below 2^53 as floats *)
Lemma round_scaled_representable (z : Z) :
  0 < z -> representable z -> z < top64 ->
  nonneg_finite (round_scaled z (-1074)) /\ F2Z (round_scaled z (-1074)) = z.
Proof.
  intros Hz R Hlt. pose proof (rnd_representable z R) as E.
  destruct (round_scaled_value z Hz) as [H1 H2]; [lia|].
  split; [exact H1|lia].
Qed.

(** A value up to half the threshold is rounded to less than the
    threshold. *)
Lemma top64_half : exists g, representable g /\ 2 * g = top64.
Proof.
  exists (2 ^ 2097). split.
  - exists 1, 2097. split; [symmetry; apply Z.mul_1_l|lia].
  - apply (top64_split 1 2097); lia.
Qed.

Lemma rnd_lt_top64 (z : Z) : 0 <= z -> 2 * z <= top64 -> rnd z < top64.
Proof.
  intros Hz Hle. destruct top64_half as (g & R & E).
  assert (rnd z <= g) by (apply rnd_le_representable; [lia|exact R]).
  pose proof top64_pos. lia.
Qed.

Lemma float_of_Z_small (n : Z) :
  0 <= n < 2 ^ 53 ->
  nonneg_finite (float_of_Z n) /\ F2Z (float_of_Z n) = n * one64.
Proof.
  intros Hn. destruct (Z.eq_dec n 0) as [->|Hnz].
  { split; [exact I|reflexivity]. }
  pose proof one64_pos as P.
  unfold float_of_Z. rewrite round_scaled_shift by lia.
  change (2 ^ (0 + 1074)) with one64.
  assert (R : representable (n * one64))
    by (exists n, 1074; split; [reflexivity|lia]).
  apply round_scaled_representable; [nia|assumption|].
  unfold one64. apply scaled_lt_top64; lia.
Qed.

(** ** Remainder, quotient and floor of floats that are not negative *)
Lemma f_fmod_nonneg (x : float) (mw : positive) (ew : Z) :
  nonneg_finite x -> bounded64 mw ew = true ->
  nonneg_finite (f_fmod x (S754_finite false mw ew))
  /\ F2Z (f_fmod x (S754_finite false mw ew))
     = F2Z x mod (Zpos mw * 2 ^ (ew + 1074)).
Proof.
  intros Hx Hbw.
  destruct (bounded64_elim mw ew Hbw) as (_ & _ & Gw & Dw & _).
  destruct x as [sx|sx| |sx mx ex]; try contradiction.
  - cbn [f_fmod F2Z]. rewrite Z.mod_0_l; [split; [exact I|reflexivity]|].
    destruct (bounded64_value mw ew Hbw) as [_ ?]. lia.
  - destruct Hx as [-> Hbx].
    destruct (bounded64_elim mx ex Hbx) as (_ & _ & Gx & Dx & _).
    cbn [f_fmod F2Z cond_Zopp].
    set (e := Z.min ex ew).
    set (X := Zpos mx * 2 ^ (ex - e)). set (Y := Zpos mw * 2 ^ (ew - e)).
    assert (PX : 0 < X) by (apply Z.mul_pos_pos; [lia|apply Z.pow_pos_nonneg; lia]).
    assert (PY : 0 < Y) by (apply Z.mul_pos_pos; [lia|apply Z.pow_pos_nonneg; lia]).
    assert (Pe : 0 < 2 ^ (e + 1074)) by (apply Z.pow_pos_nonneg; lia).
    rewrite Z.rem_mod_nonneg by lia.
    assert (EX : Zpos mx * 2 ^ (ex + 1074) = X * 2 ^ (e + 1074))
      by (subst X; rewrite aligned_value; [reflexivity|lia]).
    assert (EY : Zpos mw * 2 ^ (ew + 1074) = Y * 2 ^ (e + 1074))
      by (subst Y; rewrite aligned_value; [reflexivity|lia]).
    rewrite EX, EY, Z.mul_mod_distr_r by lia.
    pose proof (Z.mod_pos_bound X Y PY) as B.
    assert (BX : X mod Y <= X) by (apply Z.mod_le; lia).
    destruct (Z.eqb_spec (X mod Y) 0) as [E0|E0].
    + rewrite E0. split; [exact I|reflexivity].
    + change (binary_normalize prec emax ?m ?e false) with (round_scaled m e).
      rewrite round_scaled_shift by lia.
      assert (Hsmall : X mod Y < 2 ^ 53).
      { destruct (Zdigits2_bounds (Zpos mx) ltac:(lia)) as (_ & _ & D3).
        destruct (Zdigits2_bounds (Zpos mw) ltac:(lia)) as (_ & _ & D4).
        assert (2 ^ Zdigits2 (Zpos mx) <= 2 ^ 53) by (apply Z.pow_le_mono_r; lia).
        assert (2 ^ Zdigits2 (Zpos mw) <= 2 ^ 53) by (apply Z.pow_le_mono_r; lia).
        destruct (Z.le_ge_cases ex ew) as [Hm|Hm].
        - assert (X = Zpos mx); [|lia].
          subst X e. rewrite Z.min_l by lia. rewrite Z.sub_diag. lia.
        - assert (Y = Zpos mw); [|lia].
          subst Y e. rewrite Z.min_r by lia. rewrite Z.sub_diag. lia. }
      assert (R : representable (X mod Y * 2 ^ (e + 1074)))
        by (exists (X mod Y), (e + 1074); lia).
      apply round_scaled_representable; [nia|assumption|].
      destruct (bounded64_value mx ex Hbx) as [_ ?].
      apply Z.le_lt_trans with (X * 2 ^ (e + 1074)); [|lia].
      apply Z.mul_le_mono_nonneg_r; lia.
Qed.

Lemma f_lt_zero_nonneg (x : float) :
  nonneg_finite x -> f_lt x (S754_zero false) = false.
Proof.
  destruct x as [s|s| |s m e]; cbn [nonneg_finite]; try contradiction.
  - reflexivity.
  - intros [-> _]. reflexivity.
Qed.

Lemma f_mod_nonneg (x : float) (mw : positive) (ew : Z) :
  nonneg_finite x -> bounded64 mw ew = true ->
  nonneg_finite (f_mod x (S754_finite false mw ew))
  /\ F2Z (f_mod x (S754_finite false mw ew))
     = F2Z x mod (Zpos mw * 2 ^ (ew + 1074)).
Proof.
  intros Hx Hbw. destruct (f_fmod_nonneg x mw ew Hx Hbw) as [Hm Hv].
  unfold f_mod. set (m := f_fmod x (S754_finite false mw ew)) in *.
  destruct (is_zero m) eqn:Z.
  - split; [exact I|]. destruct m; try discriminate. exact Hv.
  - rewrite (f_lt_zero_nonneg m Hm). cbn [f_lt SFltb SFcompare Bool.eqb negb].
    split; assumption.
Qed.

Lemma div_core_spec (mx ex mw ew : Z) :
  0 < mx -> 0 < mw ->
  let '(q, e', l) := SFdiv_core_binary prec emax mx ex mw ew in
  let delta := Zdigits2 mx + ex - (Zdigits2 mw + ew) in
  0 <= q /\ e' <= fexp64 (Zdigits2 q + e')
  /\ Zdigits2 q + e' <= Z.max (delta + 1) e'
  /\ e' <= fexp64 delta.
Proof.
  intros Hx Hw. unfold SFdiv_core_binary. rewrite fexp_eq.
  set (delta := Zdigits2 mx + ex - (Zdigits2 mw + ew)).
  replace (Zdigits2 mx + ex - (Zdigits2 mw + ew)) with delta by reflexivity.
  set (e' := Z.min (fexp64 delta) (ex - ew)).
  set (s := ex - ew - e').
  assert (Hs : 0 <= s) by (subst s e'; lia).
  assert (Em : match s with
               | Zpos _ => Z.shiftl mx s | Z0 => mx | Zneg _ => 0
               end = mx * 2 ^ s).
  { destruct s as [|p|p];
      [change (2 ^ 0) with 1; lia|now rewrite Z.shiftl_mul_pow2 by lia|lia]. }
  rewrite Em.
  pose proof (Z.div_eucl_eq (mx * 2 ^ s) mw ltac:(lia)) as Hq.
  pose proof (Z.mod_pos_bound (mx * 2 ^ s) mw Hw) as Hr.
  unfold Z.modulo in Hr.
  destruct (Z.div_eucl (mx * 2 ^ s) mw) as [q r].
  assert (Ps : 0 < 2 ^ s) by (apply Z.pow_pos_nonneg; lia).
  destruct (Zdigits2_bounds mx Hx) as (X1 & X2 & X3).
  destruct (Zdigits2_bounds mw Hw) as (W1 & W2 & W3).
  assert (Hq0 : 0 <= q) by nia.
  split; [exact Hq0|].
  assert (Hfe : e' <= fexp64 delta) by (subst e'; lia).
  set (k := Zdigits2 mx + s - Zdigits2 mw).
  assert (Edelta : delta = k + e') by (subst delta k s; lia).
  (* upper bound on the quotient *)
  assert (Up : Zdigits2 q <= Z.max (k + 1) 0).
  { destruct (Z.le_gt_cases 0 (k + 1)) as [Hk|Hk].
    - rewrite Z.max_l by lia. apply Zdigits2_lt_pow2; [lia|]. split; [lia|].
      assert (mx * 2 ^ s < 2 ^ (k + 1) * mw); [|nia].
      assert (2 ^ (k + 1) * 2 ^ (Zdigits2 mw - 1) = 2 ^ (Zdigits2 mx + s))
        by (rewrite <- Z.pow_add_r by lia; f_equal; subst k; lia).
      assert (mx * 2 ^ s < 2 ^ (Zdigits2 mx + s))
        by (rewrite Z.pow_add_r by lia; nia).
      assert (0 < 2 ^ (k + 1)) by (apply Z.pow_pos_nonneg; lia). nia.
    - rewrite Z.max_r by lia.
      assert (q = 0); [|subst q; cbn; lia].
      assert (mx * 2 ^ s < mw); [|nia].
      assert (mx * 2 ^ s < 2 ^ (Zdigits2 mx + s))
        by (rewrite Z.pow_add_r by lia; nia).
      assert (2 ^ (Zdigits2 mx + s) <= 2 ^ (Zdigits2 mw - 1))
        by (apply Z.pow_le_mono_r; subst k; lia).
      lia. }
  split; [|split; [lia|exact Hfe]].
  destruct (Z.le_gt_cases 1 k) as [Hk|Hk].
  - assert (Lo : k <= Zdigits2 q).
    { replace k with (k - 1 + 1) by lia. apply Zdigits2_ge_pow2; [lia|].
      assert (2 ^ (k - 1) * mw <= mx * 2 ^ s); [|nia].
      assert (2 ^ (k - 1) * 2 ^ Zdigits2 mw = 2 ^ (Zdigits2 mx - 1 + s))
        by (rewrite <- Z.pow_add_r by lia; f_equal; subst k; lia).
      assert (2 ^ (Zdigits2 mx - 1 + s) <= mx * 2 ^ s)
        by (rewrite Z.pow_add_r by lia; nia).
      assert (0 < 2 ^ (k - 1)) by (apply Z.pow_pos_nonneg; lia). nia. }
    unfold fexp64 in *. lia.
  - pose proof (Zdigits2_nonneg q Hq0). unfold fexp64 in *. lia.
Qed.

Lemma f_div_nonneg (x : float) (mw : positive) (ew : Z) :
  nonneg_finite x -> bounded64 mw ew = true ->
  6 <= Zdigits2 (Zpos mw) + ew ->
  nonneg_finite (f_div x (S754_finite false mw ew))
  /\ 32 * F2Z (f_div x (S754_finite false mw ew)) <= top64.
Proof.
  intros Hx Hbw Hw6. pose proof top64_pos as PT.
  destruct x as [sx|sx| |sx mx ex]; try contradiction.
  { cbn [f_div SFdiv F2Z]. split; [exact I|lia]. }
  destruct Hx as [-> Hbx].
  destruct (bounded64_elim mx ex Hbx) as (_ & Lx & Gx & Dx & _).
  unfold f_div, SFdiv. cbn [xorb].
  pose proof (div_core_spec (Zpos mx) ex (Zpos mw) ew ltac:(lia) ltac:(lia)) as C.
  destruct (SFdiv_core_binary prec emax (Zpos mx) ex (Zpos mw) ew) as [[q e'] l].
  cbv zeta in C. destruct C as (Hq & Hpre & Hup & Hfe).
  destruct (bra_finish false q e' l Hq Hpre) as (m2 & Hm2 & Hle & Hcan & _ & ->).
  set (fe := fexp64 (Zdigits2 q + e')) in *.
  assert (Hfe966 : fe <= 966) by (subst fe; unfold fexp64 in *; lia).
  assert (Hfemin : -1074 <= fe) by (subst fe; unfold fexp64; lia).
  assert (Hm0 : 0 <= m2).
  { assert (0 <= q / 2 ^ (fe - e')); [|lia].
    apply Z.div_pos; [lia|apply Z.pow_pos_nonneg; lia]. }
  destruct (finish_cases false m2 fe) as [[_ ->]|[(_ & Hov & _)|(m & e & -> & Hb & He & Hv)]];
    try lia.
  - cbn [F2Z]. split; [exact I|lia].
  - destruct (m2 =? 2 ^ 53); lia.
  - cbn [nonneg_finite F2Z cond_Zopp]. split; [split; [reflexivity|exact Hb]|].
    assert (E : Zpos m * 2 ^ (e + 1074) = m2 * 2 ^ (fe + 1074)).
    { rewrite <- Hv. replace (e + 1074) with (e - fe + (fe + 1074)) by lia.
      rewrite Z.pow_add_r by lia. lia. }
    rewrite E. change 32 with (2 ^ 5). apply scaled_le_top64; lia.
Qed.

Lemma f_floor_nonneg (d : float) :
  nonneg_finite d ->
  nonneg_finite (f_floor d)
  /\ F2Z (f_floor d) = F2Z d / one64 * one64.
Proof.
  pose proof one64_pos as P.
  destruct d as [s|s| |s m e]; cbn [nonneg_finite]; try contradiction.
  { intros _. cbn [f_floor F2Z]. split; [exact I|reflexivity]. }
  intros [-> Hb]. destruct (bounded64_elim m e Hb) as (_ & _ & Ge & Dm & _).
  cbn [f_floor F2Z cond_Zopp].
  destruct (Z.leb_spec 0 e) as [He|He].
  - split; [split; [reflexivity|exact Hb]|]. cbn [F2Z cond_Zopp].
    rewrite pow2_one64, Z.mul_assoc, Z.div_mul by lia. reflexivity.
  - assert (Pe : 0 < 2 ^ (- e)) by (apply Z.pow_pos_nonneg; lia).
    assert (Pe' : 0 < 2 ^ (e + 1074)) by (apply Z.pow_pos_nonneg; lia).
    assert (Ediv : Zpos m * 2 ^ (e + 1074) / one64 = Zpos m / 2 ^ (- e)).
    { replace one64 with (2 ^ (- e) * 2 ^ (e + 1074))
        by (rewrite <- Z.pow_add_r by lia; unfold one64; f_equal; lia).
      apply Z.div_mul_cancel_r; lia. }
    rewrite Ediv.
    assert (Hn : 0 <= Zpos m / 2 ^ (- e)) by (apply Z.div_pos; lia).
    assert (Hn' : Zpos m / 2 ^ (- e) <= Zpos m)
      by (apply Z.div_le_upper_bound; nia).
    destruct (Z.eqb_spec (Zpos m / 2 ^ (- e)) 0) as [E0|E0].
    + rewrite E0. split; [exact I|reflexivity].
    + destruct (Zdigits2_bounds (Zpos m) ltac:(lia)) as (_ & _ & D3).
      assert (2 ^ Zdigits2 (Zpos m) <= 2 ^ 53) by (apply Z.pow_le_mono_r; lia).
      apply float_of_Z_small. lia.
Qed.

Lemma F2Z_f_one : nonneg_finite f_one /\ F2Z f_one = one64.
Proof.
  destruct (float_of_Z_small 1) as [H1 H2]; [split; [lia|reflexivity]|].
  split; [exact H1|]. unfold f_one. rewrite H2. lia.
Qed.

Lemma f_floordiv_nonneg (x : float) (mw : positive) (ew : Z) :
  nonneg_finite x -> bounded64 mw ew = true ->
  6 <= Zdigits2 (Zpos mw) + ew ->
  nonneg_finite (f_floordiv x (S754_finite false mw ew)).
Proof.
  intros Hx Hbw Hw6. pose proof one64_pos as P.
  destruct (f_fmod_nonneg x mw ew Hx Hbw) as [Hm Hmv].
  destruct (nonneg_finite_value x Hx) as [_ Bx].
  destruct (bounded64_value mw ew Hbw) as [_ Bw].
  unfold f_floordiv.
  set (w := S754_finite false mw ew) in *.
  set (m := f_fmod x w) in *.
  assert (Hle : F2Z m <= F2Z x) by (rewrite Hmv; apply Z.mod_le; lia).
  destruct (f_sub_nonneg x m Hx Hm Hle) as [Hs _].
  destruct (f_div_nonneg (f_sub x m) mw ew Hs Hbw Hw6) as [Hd Hdv].
  fold w in Hd, Hdv.
  set (d := f_div (f_sub x m) w) in *.
  assert (Ed : (if is_zero m then d
                else if negb (Bool.eqb (f_lt w (S754_zero false))
                                       (f_lt m (S754_zero false)))
                     then f_sub d f_one else d) = d).
  { destruct (is_zero m); [reflexivity|].
    rewrite (f_lt_zero_nonneg m Hm). reflexivity. }
  rewrite Ed. destruct (is_zero d); [exact I|].
  destruct (f_floor_nonneg d Hd) as [Hf Hfv].
  destruct (f_gt (f_sub d (f_floor d)) f_half); [|exact Hf].
  destruct F2Z_f_one as [H1 H1v].
  apply f_add_nonneg; [exact Hf|exact H1|]. rewrite Hfv, H1v.
  destruct (nonneg_finite_value d Hd) as [_ Bd].
  assert (F2Z d / one64 * one64 <= F2Z d)
    by (pose proof (Z.mul_div_le (F2Z d) one64 P); lia).
  assert (0 <= F2Z d / one64) by (apply Z.div_pos; lia).
  pose proof one64_top64. apply rnd_lt_top64; nia.
Qed.

(* ================================================================== *)
(** * Valid floats, and the times written *)

Lemma float_of_Z_3600 : float_of_Z 3600 = w3600.
Proof. vm_compute. reflexivity. Qed.

Lemma float_of_Z_60 : float_of_Z 60 = w60.
Proof. vm_compute. reflexivity. Qed.

Lemma finish_valid (sx : bool) (m2 fe : Z) :
  0 <= m2 <= 2 ^ 53 -> -1074 <= fe -> (-1074 < fe -> 2 ^ 52 <= m2) ->
  valid64 (finish sx m2 fe).
Proof.
  intros H1 H2 H3.
  destruct (finish_cases sx m2 fe H1 H2 H3)
    as [[_ ->]|[(_ & _ & ->)|(m & e & -> & Hb & _)]]; try reflexivity.
  exact Hb.
Qed.

Lemma round_pos_valid (sx : bool) (z e : Z) : 0 < z -> valid64 (round_pos sx z e).
Proof.
  intros Hz. destruct (round_pos_mantissa z e Hz) as (H1 & H2 & _).
  unfold round_pos. apply finish_valid; [exact H1| |exact H2].
  unfold fexp64. lia.
Qed.

Lemma round_scaled_valid (m e : Z) : valid64 (round_scaled m e).
Proof.
  unfold round_scaled, binary_normalize. destruct m as [|p|p].
  - reflexivity.
  - rewrite binary_round_pos. apply round_pos_valid. lia.
  - rewrite binary_round_pos. apply round_pos_valid. lia.
Qed.

Lemma f_div_finite_valid (sx sw : bool) (mx mw : positive) (ex ew : Z) :
  valid64 (f_div (S754_finite sx mx ex) (S754_finite sw mw ew)).
Proof.
  unfold f_div, SFdiv.
  pose proof (div_core_spec (Zpos mx) ex (Zpos mw) ew ltac:(lia) ltac:(lia)) as C.
  destruct (SFdiv_core_binary prec emax (Zpos mx) ex (Zpos mw) ew) as [[q e'] l].
  cbv zeta in C. destruct C as (Hq & Hpre & _ & _).
  destruct (bra_finish (xorb sx sw) q e' l Hq Hpre)
    as (m2 & Hm2 & Hle & Hcan & _ & ->).
  apply finish_valid; [|unfold fexp64; lia|exact Hcan].
  split; [|exact Hle].
  assert (0 <= q / 2 ^ (fexp64 (Zdigits2 q + e') - e')); [|lia].
  apply Z.div_pos; [lia|apply Z.pow_pos_nonneg; lia].
Qed.

Lemma f_add_valid (x y : float) : valid64 x -> valid64 y -> valid64 (f_add x y).
Proof.
  intros Hx Hy. unfold f_add.
  destruct x as [sx|sx| |sx mx ex], y as [sy|sy| |sy my ey];
    try (destruct sx, sy; reflexivity); try exact Hx; try exact Hy;
    try reflexivity.
  cbn [SFadd]. apply round_scaled_valid.
Qed.

Lemma f_sub_valid (x y : float) : valid64 x -> valid64 y -> valid64 (f_sub x y).
Proof.
  intros Hx Hy. unfold f_sub.
  destruct x as [sx|sx| |sx mx ex], y as [sy|sy| |sy my ey];
    try (destruct sx, sy; reflexivity); try exact Hx; try exact Hy;
    try reflexivity.
  cbn [SFsub]. apply round_scaled_valid.
Qed.

Lemma float_of_decimal_valid (neg : bool) (N x : Z) :
  valid64 (float_of_decimal neg N x).
Proof.
  unfold float_of_decimal. destruct N as [|n|n]; try reflexivity.
  destruct (0 <=? x); [apply round_scaled_valid|apply f_div_finite_valid].
Qed.

Lemma py_float_valid (s : string) (x : float) : py_float s = Ok x -> valid64 x.
Proof.
  unfold py_float. destruct (drop_underscores NUL s) as [t|]; [|discriminate].
  destruct (split_sign (strip_numeric t)) as [neg body].
  destruct (_ || _); [intros H; inversion H; subst; exact eq_refl|].
  destruct (String.eqb _ _); [intros H; inversion H; subst; exact eq_refl|].
  destruct (read_decimal body) as [[N x']|]; [|discriminate].
  intros H. inversion H. apply float_of_decimal_valid.
Qed.

Lemma to_float_valid (a : num) (x : float) :
  (forall y, a = PyFloat y -> valid64 y) -> to_float a = Ok x -> valid64 x.
Proof.
  destruct a as [n|y]; cbn [to_float].
  - intros _. destruct (is_infinite (float_of_Z n)); [discriminate|].
    intros H. inversion H. apply round_scaled_valid.
  - intros Hy H. inversion H; subst. now apply Hy.
Qed.

(** The seconds of a subtitle time are a valid float. *)
Lemma srt_time_to_seconds_float (t : string) (v : num) :
  _srt_time_to_seconds t = Ok v -> exists x, v = PyFloat x /\ valid64 x.
Proof.
  unfold _srt_time_to_seconds.
  destruct (py_index _ 0) as [p0|]; [|discriminate]. cbn [bind].
  destruct (py_int p0) as [h|]; [|discriminate]. cbn [bind].
  destruct (py_index _ 1) as [p1|]; [|discriminate]. cbn [bind].
  destruct (py_int p1) as [m|]; [|discriminate]. cbn [bind].
  destruct (py_index _ 2) as [p2|]; [|discriminate]. cbn [bind].
  destruct (py_float p2) as [x|] eqn:Hx; [|discriminate]. cbn [bind].
  unfold py_add.
  destruct (to_float (PyInt (h * 3600 + m * 60))) as [y|] eqn:Hy;
    [|discriminate].
  cbn [bind to_float]. intros H. inversion H. eexists. split; [reflexivity|].
  apply f_add_valid.
  - apply (to_float_valid _ y) in Hy; [exact Hy|intros ? ?; discriminate].
  - exact (py_float_valid _ _ Hx).
Qed.

Lemma cue_times_floats (lines : list string) (a b : num) :
  cue_times lines = Ok (a, b) ->
  exists x y, a = PyFloat x /\ b = PyFloat y /\ valid64 x /\ valid64 y.
Proof.
  unfold cue_times.
  destruct (py_index lines 1) as [tl|]; [|discriminate]. cbn [bind].
  destruct (unpack_pair _) as [[t1 t2]|]; [|discriminate]. cbn [bind].
  destruct (_srt_time_to_seconds t1) as [v1|] eqn:H1; [|discriminate].
  cbn [bind].
  destruct (_srt_time_to_seconds t2) as [v2|] eqn:H2; [|discriminate].
  cbn [bind]. intros H. inversion H; subst.
  destruct (srt_time_to_seconds_float _ _ H1) as (x & -> & Vx).
  destruct (srt_time_to_seconds_float _ _ H2) as (y & -> & Vy).
  exists x, y. repeat split; assumption.
Qed.

(** ** Writing a time never fails on what [retime] returns *)
Lemma w3600_bounded : bounded64 7916483719987200 (-41) = true.
Proof. vm_compute. reflexivity. Qed.

Lemma w60_bounded : bounded64 8444249301319680 (-47) = true.
Proof. vm_compute. reflexivity. Qed.

Lemma py_int_of_nonneg_finite (x : float) :
  nonneg_finite x -> py_int_of_num (PyFloat x) = Ok (f_trunc x).
Proof. destruct x; cbn; try contradiction; reflexivity. Qed.

Lemma seconds_to_srt_time_float (x : float) :
  nonneg_finite x -> exists s, _seconds_to_srt_time (PyFloat x) = Ok s.
Proof.
  intros Hx. unfold _seconds_to_srt_time, py_floordiv, py_mod.
  rewrite float_of_Z_3600, float_of_Z_60. unfold w3600, w60.
  assert (H1 : nonneg_finite
                 (f_floordiv x (S754_finite false 7916483719987200 (-41)))).
  { apply f_floordiv_nonneg; [exact Hx|exact w3600_bounded|].
    vm_compute. discriminate. }
  rewrite (py_int_of_nonneg_finite _ H1). cbn [bind].
  destruct (f_mod_nonneg x _ _ Hx w3600_bounded) as [H2 _].
  assert (H3 : nonneg_finite
                 (f_floordiv (f_mod x (S754_finite false 7916483719987200 (-41)))
                    (S754_finite false 8444249301319680 (-47)))).
  { apply f_floordiv_nonneg; [exact H2|exact w60_bounded|].
    vm_compute. discriminate. }
  rewrite (py_int_of_nonneg_finite _ H3). cbn [bind].
  unfold py_format_06_3f. cbn [to_float bind]. eexists. reflexivity.
Qed.

Lemma seconds_to_srt_time_int (n : Z) :
  exists s, _seconds_to_srt_time (PyInt n) = Ok s.
Proof.
  unfold _seconds_to_srt_time, py_floordiv, py_mod. cbn [py_int_of_num bind].
  unfold py_format_06_3f, to_float.
  assert (Hb : 0 <= n mod 60 < 2 ^ 53).
  { pose proof (Z.mod_pos_bound n 60 ltac:(lia)).
    assert (2 ^ 6 <= 2 ^ 53) by (apply Z.pow_le_mono_r; lia).
    change (2 ^ 6) with 64 in *. lia. }
  destruct (float_of_Z_small (n mod 60) Hb) as [Hf _].
  destruct (float_of_Z (n mod 60)); try contradiction; cbn [is_infinite bind];
    eexists; reflexivity.
Qed.

Lemma renders_int (n : Z) : renders (PyInt n).
Proof. apply seconds_to_srt_time_int. Qed.

Lemma renders_float (x : float) : nonneg_finite x -> renders (PyFloat x).
Proof. apply seconds_to_srt_time_float. Qed.

Lemma float_gt_zero (d : float) :
  valid64 d -> py_gt (PyFloat d) (PyInt 0) = true ->
  d = S754_infinity false \/ exists m e, d = S754_finite false m e
                                          /\ bounded64 m e = true.
Proof.
  intros Hv. unfold py_gt. cbn [num_compare].
  destruct d as [s|s| |s m e]; cbn [compare_float_int].
  - cbn. discriminate.
  - destruct s; [discriminate|]. now left.
  - discriminate.
  - intros H. right. exists m, e. split; [|exact Hv].
    destruct s; [|reflexivity]. exfalso. cbn [cond_Zopp] in H.
    destruct (Z.leb_spec 0 e).
    + assert (0 < 2 ^ e) by (apply Z.pow_pos_nonneg; lia).
      destruct (Z.compare_spec (- Zpos m * 2 ^ e) 0); try discriminate. nia.
    + cbn in H. discriminate.
Qed.

Lemma not_gt_infinity (a : num) : py_gt a (PyFloat (S754_infinity false)) = false.
Proof.
  unfold py_gt. destruct a as [n|x]; cbn [num_compare].
  - reflexivity.
  - destruct x as [s|s| |s m e]; try reflexivity. now destruct s.
Qed.

Lemma float_lt_int_not_infinity (d : float) (n : Z) :
  py_lt (PyFloat d) (PyInt n) = true -> d <> S754_infinity false.
Proof. intros H ->. discriminate H. Qed.

Lemma float_gt_positive (d2 : float) (m1 : positive) (e1 : Z) :
  py_gt (PyFloat d2) (PyFloat (S754_finite false m1 e1)) = true ->
  d2 = S754_infinity false \/ exists m e, d2 = S754_finite false m e.
Proof.
  unfold py_gt. cbn [num_compare].
  destruct d2 as [s|s| |s m e]; cbn [SFcompare]; try discriminate.
  - destruct s; [discriminate|]. now left.
  - destruct s; [discriminate|]. right. now exists m, e.
Qed.

Lemma retime_overlapping (s e : Z) (fa fb : float) :
  in_float_range s ->
  retime s e (PyFloat fa) (PyFloat fb)
  = Ok (if overlaps s e fa fb
           && py_gt (new_end s e fb) (new_start s fa)
        then Some (new_start s fa, new_end s e fb) else None).
Proof.
  intros Hs. unfold retime, overlaps, new_start, new_end, py_sub, to_float.
  unfold in_float_range in Hs. rewrite Hs. cbn [bind].
  destruct (py_gt (PyFloat fb) (PyInt s) && py_lt (PyFloat fa) (PyInt e));
    [|reflexivity].
  cbn [andb]. now destruct (py_gt _ _).
Qed.

Lemma retimed_times_render (s e : Z) (fa fb : float) :
  valid64 fa -> valid64 fb ->
  py_gt (new_end s e fb) (new_start s fa) = true ->
  renders (new_start s fa) /\ renders (new_end s e fb).
Proof.
  intros Va Vb. unfold new_start, new_end.
  assert (V1 : valid64 (f_sub fa (float_of_Z s)))
    by (apply f_sub_valid; [exact Va|apply round_scaled_valid]).
  assert (V2 : valid64 (f_sub fb (float_of_Z s)))
    by (apply f_sub_valid; [exact Vb|apply round_scaled_valid]).
  set (d1 := f_sub fa (float_of_Z s)) in *.
  set (d2 := f_sub fb (float_of_Z s)) in *.
  unfold py_max, py_min.
  destruct (py_gt (PyFloat d1) (PyInt 0)) eqn:G1;
    destruct (py_lt (PyFloat d2) (PyInt (e - s))) eqn:L2; intros G.
  - destruct (float_gt_zero d1 V1 G1) as [->|(m1 & e1 & -> & B1)];
      [rewrite not_gt_infinity in G; discriminate|].
    split; [apply renders_float; cbn; auto|].
    destruct (float_gt_positive d2 m1 e1 G) as [E|(m & e2 & E)].
    + exfalso. exact (float_lt_int_not_infinity d2 _ L2 E).
    + apply renders_float. rewrite E in V2 |- *. cbn. auto.
  - destruct (float_gt_zero d1 V1 G1) as [->|(m1 & e1 & -> & B1)];
      [rewrite not_gt_infinity in G; discriminate|].
    split; [apply renders_float; cbn; auto|apply renders_int].
  - split; [apply renders_int|].
    destruct (float_gt_zero d2 V2 G) as [E|(m & e2 & -> & B2)].
    + exfalso. exact (float_lt_int_not_infinity d2 _ L2 E).
    + apply renders_float. cbn. auto.
  - split; apply renders_int.
Qed.

Lemma parse_cue_times (block : string) (fa fb : float) (text : list string) :
  parse_cue block = Some (fa, fb, text) ->
  (3 <=? List.length (lines_of block))%nat = true
  /\ cue_times (lines_of block) = Ok (PyFloat fa, PyFloat fb)
  /\ text = skipn 2 (lines_of block)
  /\ valid64 fa /\ valid64 fb.
Proof.
  unfold parse_cue. destruct (3 <=? _)%nat; [|discriminate].
  destruct (cue_times (lines_of block)) as [[a b]|] eqn:E; [|discriminate].
  destruct (cue_times_floats _ _ _ E) as (x & y & -> & -> & Vx & Vy).
  intros H. inversion H; subst. repeat split; assumption.
Qed.

(** What the loop does with a block that reads as a cue. *)
Lemma retimed_cue_of_cue (s e : Z) (block : string) (fa fb : float)
    (text : list string) :
  in_float_range s -> parse_cue block = Some (fa, fb, text) ->
  (overlaps s e fa fb && py_gt (new_end s e fb) (new_start s fa) = true ->
   exists a b, _seconds_to_srt_time (new_start s fa) = Ok a
               /\ _seconds_to_srt_time (new_end s e fb) = Ok b
               /\ retimed_cue s e block = Some (a, b, text))
  /\ (overlaps s e fa fb && py_gt (new_end s e fb) (new_start s fa) = false ->
      retimed_cue s e block = None).
Proof.
  intros Hs Hc.
  destruct (parse_cue_times block fa fb text Hc) as (Hlen & Ht & -> & Va & Vb).
  unfold retimed_cue, retime_block. rewrite Hlen, Ht. cbn [bind].
  rewrite (retime_overlapping s e fa fb Hs). cbn [bind]. split; intros H.
  - rewrite H. apply andb_true_iff in H. destruct H as [_ G].
    destruct (retimed_times_render s e fa fb Va Vb G) as [[a Ha] [b Hb]].
    exists a, b. rewrite Ha, Hb. cbn [bind]. repeat split.
  - now rewrite H.
Qed.

Lemma py_le_not_gt (a b : num) : py_le a b = true -> py_gt a b = false.
Proof. unfold py_le, py_gt. now destruct (num_compare a b) as [[]|]. Qed.

(** The cues the loop writes for a track: those of the cues kept, in the
    order of the track, with the new times written. *)
Lemma retimed_cues_of_track (s e : Z) (blocks : list string)
    (track : list (float * float * list string)) :
  in_float_range s ->
  Forall2 (fun block cue => parse_cue block = Some cue) blocks track ->
  Forall2 (fun '(sub_start, sub_end, text) w =>
             _seconds_to_srt_time (new_start s sub_start) = Ok (fst (fst w))
             /\ _seconds_to_srt_time (new_end s e sub_end) = Ok (snd (fst w))
             /\ snd w = text)
    (filter (kept s e) track) (retimed_cues s e blocks).
Proof.
  intros Hs H. induction H as [|block [[fa fb] text] blocks track Hc _ IH];
    [constructor|].
  destruct (retimed_cue_of_cue s e block fa fb text Hs Hc) as [Hkeep Hdrop].
  cbn [filter retimed_cues kept].
  destruct (overlaps s e fa fb && py_gt (new_end s e fb) (new_start s fa)).
  - destruct (Hkeep eq_refl) as (a & b & Ha & Hb & ->).
    constructor; [|exact IH]. cbn [fst snd]. repeat split; assumption.
  - rewrite (Hdrop eq_refl). exact IH.
Qed.

(** C1. For a file whose blocks read as the cues of [track], and a range
    whose start a float can hold: the output holds exactly the cues that
    overlap the range ([sub_end > start_seconds] and
    [sub_start < end_seconds]) and whose new end is greater than their new
    start, in the order of the track, numbered from 1; the times written
    are those of [max(0, sub_start - start_seconds)] and
    [min(end_seconds - start_seconds, sub_end - start_seconds)]; a cue
    whose new end is not greater than its new start is not among them, so
    that every cue written has a new start less than its new end. *)
Theorem trim_keeps_overlapping_cues (s e : Z) (content : string)
    (track : list (float * float * list string)) :
  in_float_range s ->
  Forall2 (fun block cue => parse_cue block = Some cue)
    (blocks_of content) track ->
  exists written,
    _trim_subtitle_file (Ok content) s e
    = py_join (LF ++ LF) (number_from 1 written)
    /\ Forall2 (fun '(sub_start, sub_end, text) w =>
                  _seconds_to_srt_time (new_start s sub_start)
                  = Ok (fst (fst w))
                  /\ _seconds_to_srt_time (new_end s e sub_end)
                     = Ok (snd (fst w))
                  /\ snd w = text)
         (filter (kept s e) track) written
    /\ Forall (fun '(sub_start, sub_end, text) =>
                 py_le (new_end s e sub_end) (new_start s sub_start) = true ->
                 ~ In (sub_start, sub_end, text) (filter (kept s e) track))
         track
    /\ Forall (fun '(sub_start, sub_end, _) =>
                 py_lt (new_start s sub_start) (new_end s e sub_end) = true)
         (filter (kept s e) track).
Proof.
  intros Hs Ht. exists (retimed_cues s e (blocks_of content)).
  split; [|split; [|split]].
  - cbn [_trim_subtitle_file]. fold (blocks_of content).
    now rewrite trim_blocks_numbered.
  - exact (retimed_cues_of_track s e _ track Hs Ht).
  - apply Forall_forall. intros [[fa fb] text] _ Hle Hin.
    apply filter_In in Hin. destruct Hin as [_ Hk]. cbn [kept] in Hk.
    apply andb_true_iff in Hk. destruct Hk as [_ Hg].
    rewrite (py_le_not_gt _ _ Hle) in Hg. discriminate Hg.
  - apply Forall_forall. intros [[fa fb] text] Hin.
    apply filter_In in Hin. destruct Hin as [_ Hk]. cbn [kept] in Hk.
    apply andb_true_iff in Hk. destruct Hk as [_ Hg].
    now apply py_gt_lt.
Qed.

Lemma trim_keeps_overlapping_cues_witness :
  let track := [(S754_finite false 4503599627370496 (-49),
                 S754_finite false 5348024557502464 (-49), ["late"]);
                (S754_finite false 4503599627370496 (-50),
                 S754_finite false 5629499534213120 (-50), ["early"; "on"])] in
  exists written,
    _trim_subtitle_file (Ok two_cues) 3 15
    = py_join (LF ++ LF) (number_from 1 written)
    /\ Forall2 (fun '(sub_start, sub_end, text) w =>
                  _seconds_to_srt_time (new_start 3 sub_start)
                  = Ok (fst (fst w))
                  /\ _seconds_to_srt_time (new_end 3 15 sub_end)
                     = Ok (snd (fst w))
                  /\ snd w = text)
         (filter (kept 3 15) track) written
    /\ Forall (fun '(sub_start, sub_end, text) =>
                 py_le (new_end 3 15 sub_end) (new_start 3 sub_start) = true ->
                 ~ In (sub_start, sub_end, text) (filter (kept 3 15) track))
         track
    /\ Forall (fun '(sub_start, sub_end, _) =>
                 py_lt (new_start 3 sub_start) (new_end 3 15 sub_end) = true)
         (filter (kept 3 15) track).
Proof.
  intros track. apply (trim_keeps_overlapping_cues 3 15 two_cues track).
  - vm_compute. reflexivity.
  - replace (blocks_of two_cues) with [block_late; block_early]
      by (vm_compute; reflexivity).
    constructor; [vm_compute; reflexivity|].
    constructor; [vm_compute; reflexivity|constructor].
Defined.

(* ================================================================== *)
(** * The round trip of a subtitle time *)

Lemma all_from_spec (k : nat) :
  forall n P, all_from k n P = true ->
    forall i, n <= i < n + Z.of_nat k -> P i = true.
Proof.
  induction k as [|k IH]; intros n P H i Hi; [lia|].
  cbn [all_from] in H. apply andb_true_iff in H. destruct H as [H0 H1].
  destruct (Z.eq_dec i n) as [->|Hne]; [exact H0|].
  apply (IH (n + 1) P H1). lia.
Qed.

Lemma all_below_spec (N : Z) (P : Z -> bool) :
  all_below N P = true -> forall i, 0 <= i < N -> P i = true.
Proof.
  intros H i Hi. apply (all_from_spec _ 0 P H). lia.
Qed.

(** ** Numbers written with two and three digits *)
Lemma format_02d_two_digits (n : Z) :
  0 <= n < 100 -> format_02d n = two_digits n.
Proof.
  intros Hn. apply String.eqb_eq.
  apply (all_below_spec 100 (fun n => String.eqb (format_02d n) (two_digits n)));
    [vm_compute; reflexivity|exact Hn].
Qed.

Lemma zero_pad_three_digits (n : Z) :
  0 <= n < 1000 -> zero_pad 3 false (str_nat n) = three_digits n.
Proof.
  intros Hn. apply String.eqb_eq.
  apply (all_below_spec 1000
           (fun n => String.eqb (zero_pad 3 false (str_nat n)) (three_digits n)));
    [vm_compute; reflexivity|exact Hn].
Qed.

Lemma two_digits_digits (n : Z) :
  0 <= n < 100 -> string_forall is_digit (two_digits n) = true.
Proof.
  intros Hn. rewrite <- format_02d_two_digits by exact Hn.
  apply format_02d_spec. lia.
Qed.

Lemma three_digits_digits (n : Z) :
  0 <= n < 1000 -> string_forall is_digit (three_digits n) = true.
Proof.
  intros Hn.
  apply (all_below_spec 1000 (fun n => string_forall is_digit (three_digits n)));
    [vm_compute; reflexivity|exact Hn].
Qed.

Lemma py_int_two_digits (n : Z) : 0 <= n < 100 -> py_int (two_digits n) = Ok n.
Proof.
  intros Hn. rewrite <- format_02d_two_digits by exact Hn.
  apply py_int_format_02d. lia.
Qed.

Lemma py_replace_app (a b : ascii) (s t : string) :
  py_replace a b (s ++ t) = py_replace a b s ++ py_replace a b t.
Proof. induction s as [|c s IH]; [reflexivity|]. cbn. now rewrite IH. Qed.

Lemma py_replace_absent (a b : ascii) (s : string) :
  string_forall (fun c => negb (Ascii.eqb c a)) s = true ->
  py_replace a b s = s.
Proof.
  induction s as [|c s IH]; [reflexivity|]. cbn.
  rewrite andb_true_iff, negb_true_iff. intros [-> Hs]. now rewrite (IH Hs).
Qed.

Lemma digit_facts (c : ascii) :
  is_digit c = true ->
  (Ascii.eqb c "_" = false /\ Ascii.eqb c "." = false
   /\ Ascii.eqb c "," = false /\ Ascii.eqb c ":" = false)
  /\ (Ascii.eqb c "-" = false /\ Ascii.eqb c "+" = false)
  /\ is_space_numeric c = false
  /\ (Ascii.eqb (lower c) "i" = false /\ Ascii.eqb (lower c) "n" = false).
Proof.
  destruct c as [[] [] [] [] [] [] [] []]; vm_compute; intros H;
    try discriminate H; repeat split.
Qed.

Lemma py_replace_digits (a b : ascii) (s : string) :
  is_digit a = false -> string_forall is_digit s = true ->
  py_replace a b s = s.
Proof.
  intros Ha Hs. apply py_replace_absent. revert Hs.
  apply string_forall_impl. intros c Hc. apply negb_true_iff.
  destruct (Ascii.eqb_spec c a) as [->|]; [congruence|reflexivity].
Qed.

(** ** Reading a time in the form HH:MM:SS,mmm *)
Lemma split_from_absent (s : string) :
  string_forall (fun c => negb (Ascii.eqb c ":")) s = true ->
  split_from ":" O s = (s, []).
Proof.
  induction s as [|c s IH]; [reflexivity|].
  cbn [string_forall]. rewrite andb_true_iff, negb_true_iff. intros [Hc Hs].
  cbn [split_from prefix].
  destruct (ascii_dec ":" c) as [Heq|_].
  { subst c. discriminate Hc. }
  now rewrite (IH Hs).
Qed.

Lemma py_float_digits (a b c d e : ascii) :
  is_digit a = true -> is_digit b = true -> is_digit c = true ->
  is_digit d = true -> is_digit e = true ->
  py_float (String a (String b (String "." (String c (String d
              (String e EmptyString))))))
  = Ok (float_of_decimal false
          (10 * (10 * (10 * (10 * (10 * 0 + digit_value a) + digit_value b)
                       + digit_value c) + digit_value d) + digit_value e)
          (0 - 3)).
Proof.
  intros Ha Hb Hc Hd He.
  destruct (digit_facts a Ha) as ((A1 & A2 & A3 & A4) & (A5 & A6) & A7 & A8 & A9).
  destruct (digit_facts b Hb) as ((B1 & B2 & B3 & B4) & (B5 & B6) & B7 & B8 & B9).
  destruct (digit_facts c Hc) as ((C1 & C2 & C3 & C4) & (C5 & C6) & C7 & C8 & C9).
  destruct (digit_facts d Hd) as ((D1 & D2 & D3 & D4) & (D5 & D6) & D7 & D8 & D9).
  destruct (digit_facts e He) as ((E1 & E2 & E3 & E4) & (E5 & E6) & E7 & E8 & E9).
  unfold py_float. cbn [drop_underscores].
  rewrite A1, B1, C1, D1, E1.
  replace (Ascii.eqb NUL "_") with false by reflexivity.
  replace (Ascii.eqb "." "_") with false by reflexivity.
  cbn [option_map andb].
  unfold strip_numeric. rewrite lstrip_first by exact A7.
  rewrite rstrip_none
    by (cbn [string_forall]; rewrite A7, B7, C7, D7, E7; reflexivity).
  cbn [split_sign]. rewrite A5, A6.
  cbn [lower_string String.eqb]. rewrite A8, A9. cbn [andb orb].
  unfold read_decimal. cbn [read_digits]. rewrite Ha, Hb.
  replace (is_digit ".") with false by reflexivity.
  replace (Ascii.eqb "." ".") with true by reflexivity.
  cbn [read_digits]. rewrite Hc, Hd, He. reflexivity.
Qed.

Lemma digit_char_two (n : Z) :
  0 <= n < 100 ->
  is_digit (digit_char (n / 10)) = true
  /\ is_digit (digit_char (n mod 10)) = true
  /\ 10 * digit_value (digit_char (n / 10)) + digit_value (digit_char (n mod 10))
     = n.
Proof.
  intros Hn.
  assert (H1 : 0 <= n / 10 < 10) by (Z.div_mod_to_equations; lia).
  assert (H2 : 0 <= n mod 10 < 10) by (Z.div_mod_to_equations; lia).
  destruct (digit_char_spec _ H1) as (A1 & A2 & _).
  destruct (digit_char_spec _ H2) as (B1 & B2 & _).
  rewrite A2, B2. repeat split; try assumption. Z.div_mod_to_equations; lia.
Qed.

Lemma py_float_seconds (s ms : Z) :
  0 <= s < 100 -> 0 <= ms < 1000 ->
  py_float (two_digits s ++ "." ++ three_digits ms)
  = Ok (float_of_decimal false (1000 * s + ms) (-3)).
Proof.
  intros Hs Hms.
  assert (H1 : 0 <= ms / 100 < 10) by (Z.div_mod_to_equations; lia).
  assert (H2 : 0 <= ms mod 100 < 100) by (Z.div_mod_to_equations; lia).
  destruct (digit_char_two s Hs) as (A1 & A2 & A3).
  destruct (digit_char_spec _ H1) as (B1 & B2 & _).
  destruct (digit_char_two _ H2) as (C1 & C2 & C3).
  unfold two_digits, three_digits, two_digits. cbn [append].
  rewrite py_float_digits by assumption. do 2 f_equal.
  rewrite B2. Z.div_mod_to_equations; lia.
Qed.

Lemma srt_time_fields (h m s ms : Z) :
  0 <= h < 100 -> 0 <= m < 100 -> 0 <= s < 100 -> 0 <= ms < 1000 ->
  py_split (py_replace "," "." (srt_time h m s ms)) ":"
  = [two_digits h; two_digits m; two_digits s ++ "." ++ three_digits ms].
Proof.
  intros Hh Hm Hs Hms.
  pose proof (two_digits_digits h Hh) as Dh.
  pose proof (two_digits_digits m Hm) as Dm.
  pose proof (two_digits_digits s Hs) as Ds.
  pose proof (three_digits_digits ms Hms) as Dms.
  unfold srt_time. rewrite !py_replace_app.
  rewrite (py_replace_digits "," "." (two_digits h) eq_refl Dh),
    (py_replace_digits "," "." (two_digits m) eq_refl Dm),
    (py_replace_digits "," "." (two_digits s) eq_refl Ds),
    (py_replace_digits "," "." (three_digits ms) eq_refl Dms).
  change (py_replace "," "." ":") with ":".
  change (py_replace "," "." ",") with ".".
  assert (Ecolon : forall x, ":" ++ x = String ":" x) by reflexivity.
  rewrite !Ecolon, py_split_colon, py_split_colon by assumption.
  unfold py_split. rewrite split_from_absent; [reflexivity|].
  rewrite string_forall_app. cbn [append string_forall].
  assert (E : forall t, string_forall is_digit t = true ->
              string_forall (fun c => negb (Ascii.eqb c ":")) t = true).
  { intros t. apply string_forall_impl. intros c Hc.
    destruct (digit_facts c Hc) as ((_ & _ & _ & ->) & _). reflexivity. }
  rewrite (E _ Ds), (E _ Dms). reflexivity.
Qed.

(** ** The float of a number of thousandths *)
Lemma one64_scaled (j : Z) : 0 <= j <= 971 -> 2 ^ j * one64 <= top64.
Proof.
  intros Hj.
  pose proof (scaled_le_top64 1 1074 j ltac:(lia) ltac:(lia) ltac:(lia)
                ltac:(lia)) as H.
  rewrite Z.mul_1_l in H. exact H.
Qed.

Lemma one64_split (a b : Z) :
  0 <= a -> 0 <= b -> a + b = 1074 -> 2 ^ a * 2 ^ b = one64.
Proof.
  intros Ha Hb E. rewrite <- Z.pow_add_r, E by assumption. reflexivity.
Qed.

(** The quotient and the exponent that the division of the mantissas
    starts from. *)
Lemma div_core_quotient (mx ex mw ew : Z) :
  let '(q, e', l) := SFdiv_core_binary prec emax mx ex mw ew in
  e' = Z.min (fexp64 (Zdigits2 mx + ex - (Zdigits2 mw + ew))) (ex - ew)
  /\ q = mx * 2 ^ (ex - ew - e') / mw.
Proof.
  unfold SFdiv_core_binary. rewrite fexp_eq.
  set (e' := Z.min (fexp64 (Zdigits2 mx + ex - (Zdigits2 mw + ew))) (ex - ew)).
  set (s := ex - ew - e').
  assert (Hs : 0 <= s) by (subst s e'; lia).
  assert (Em : match s with
               | Zpos _ => Z.shiftl mx s | Z0 => mx | Zneg _ => 0
               end = mx * 2 ^ s).
  { destruct s as [|p|p];
      [change (2 ^ 0) with 1; lia|now rewrite Z.shiftl_mul_pow2 by lia|lia]. }
  rewrite Em. destruct (Z.div_eucl (mx * 2 ^ s) mw) as [q r] eqn:E.
  split; [reflexivity|]. unfold Z.div. subst s. now rewrite E.
Qed.

(** The quotient of two integers as [f_div] rounds it lies within one unit
    of the last place of the exact quotient; the divisor has at most six
    binary digits less than the dividend here, which puts that unit at
    [2 ^ -46] or below. *)
Lemma int_quotient_near (n d : positive) :
  Zdigits2 (Zpos n) - Zdigits2 (Zpos d) <= 6 ->
  let F := f_div (S754_finite false n 0) (S754_finite false d 0) in
  nonneg_finite F
  /\ - (Zpos d * one64) <= 2 ^ 46 * (F2Z F * Zpos d - Zpos n * one64)
     <= Zpos d * one64.
Proof.
  intros Hdelta F. subst F. pose proof one64_pos as PU.
  unfold f_div, SFdiv. cbn [xorb].
  pose proof (div_core_spec (Zpos n) 0 (Zpos d) 0 ltac:(lia) ltac:(lia)) as C.
  pose proof (div_core_quotient (Zpos n) 0 (Zpos d) 0) as Q.
  destruct (SFdiv_core_binary prec emax (Zpos n) 0 (Zpos d) 0) as [[q e'] l].
  cbv zeta in C. destruct C as (Hq & Hpre & Hup & Hfe).
  destruct Q as [Ee Eq].
  destruct (bra_finish false q e' l Hq Hpre) as (m2 & Hm2 & Hle & Hcan & _ & ->).
  set (fe := fexp64 (Zdigits2 q + e')) in *.
  assert (He'lo : -1074 <= e' <= 0) by (rewrite Ee; unfold fexp64; lia).
  assert (Hfe46 : -1074 <= fe <= -46) by (subst fe; unfold fexp64 in *; lia).
  assert (PK : 0 < 2 ^ (fe - e')) by (apply Z.pow_pos_nonneg; lia).
  assert (Hm0 : 0 <= m2).
  { assert (0 <= q / 2 ^ (fe - e')); [|lia]. apply Z.div_pos; lia. }
  (* the rounded mantissa against the exact quotient, as integers *)
  replace (0 - 0 - e') with (- e') in Eq by lia.
  assert (PS : 0 < 2 ^ (- e')) by (apply Z.pow_pos_nonneg; lia).
  assert (Hint : - (2 ^ (fe - e') * Zpos d)
                 <= m2 * 2 ^ (fe - e') * Zpos d - Zpos n * 2 ^ (- e')
                 <= 2 ^ (fe - e') * Zpos d).
  { set (K := 2 ^ (fe - e')) in *. set (a := Zpos n * 2 ^ (- e')) in *.
    pose proof (Z.div_mod a (Zpos d) ltac:(lia)) as E1.
    pose proof (Z.mod_pos_bound a (Zpos d) ltac:(lia)) as B1.
    pose proof (Z.div_mod q K ltac:(lia)) as E2.
    pose proof (Z.mod_pos_bound q K PK) as B2.
    rewrite <- Eq in E1.
    set (c := q / K) in *. set (t := q mod K) in *. set (r := a mod Zpos d) in *.
    assert (0 <= t * Zpos d + r < K * Zpos d) by nia.
    nia. }
  (* scaled to the unit of [F2Z] *)
  assert (PP : 0 < 2 ^ (e' + 1074)) by (apply Z.pow_pos_nonneg; lia).
  assert (EU : 2 ^ (- e') * 2 ^ (e' + 1074) = one64)
    by (apply one64_split; lia).
  assert (EK : 2 ^ (fe - e') * 2 ^ (e' + 1074) = 2 ^ (fe + 1074))
    by (rewrite <- Z.pow_add_r by lia; f_equal; lia).
  assert (E46 : 2 ^ 46 * 2 ^ (fe + 1074) <= one64).
  { rewrite <- (one64_split 46 1028) by lia.
    apply Z.mul_le_mono_nonneg_l; [lia|]. apply Z.pow_le_mono_r; lia. }
  assert (Hval : forall v, v = m2 * 2 ^ (fe + 1074) ->
            - (Zpos d * one64) <= 2 ^ 46 * (v * Zpos d - Zpos n * one64)
            <= Zpos d * one64).
  { intros v ->. rewrite <- EU, <- EK in *.
    set (K := 2 ^ (fe - e')) in *. set (S := 2 ^ (- e')) in *.
    set (P := 2 ^ (e' + 1074)) in *.
    change (2 ^ 46) with 70368744177664 in *.
    assert (H1 : m2 * (K * P) * Zpos d - Zpos n * (S * P)
                 = (m2 * K * Zpos d - Zpos n * S) * P) by ring.
    rewrite H1.
    assert (H2 : - (K * Zpos d * P)
                 <= (m2 * K * Zpos d - Zpos n * S) * P <= K * Zpos d * P)
      by nia.
    assert (H3 : 0 <= 70368744177664 * (K * P) * Zpos d <= S * P * Zpos d)
      by nia.
    nia. }
  destruct (finish_cases false m2 fe)
    as [[E0 ->]|[(_ & Hov & _)|(m & e & -> & Hb & He & Hv)]]; try lia.
  - split; [exact I|]. apply Hval. cbn [F2Z]. lia.
  - destruct (m2 =? 2 ^ 53); lia.
  - split; [split; [reflexivity|exact Hb]|]. apply Hval.
    cbn [F2Z cond_Zopp]. rewrite <- Hv.
    replace (e + 1074) with (e - fe + (fe + 1074)) by lia.
    rewrite Z.pow_add_r by lia. ring.
Qed.

Lemma float_of_thousandths (n : Z) :
  0 <= n < 60000 ->
  nonneg_finite (float_of_decimal false n (-3))
  /\ - one64 <= 2 ^ 30 * (1000 * F2Z (float_of_decimal false n (-3)) - n * one64)
     <= one64.
Proof.
  intros Hn. pose proof one64_pos as PU. change (2 ^ 30) with 1073741824.
  destruct n as [|p|p]; try lia.
  { split; [exact I|]. cbn [float_of_decimal F2Z]. lia. }
  replace (float_of_decimal false (Zpos p) (-3))
    with (f_div (S754_finite false p 0) (S754_finite false 1000 0))
    by reflexivity.
  destruct (int_quotient_near p 1000) as [H1 H2].
  { assert (Zdigits2 (Zpos p) <= 16)
      by (apply Zdigits2_lt_pow2; [lia|change (2 ^ 16) with 65536; lia]).
    change (Zdigits2 1000) with 10. lia. }
  split; [exact H1|]. change (2 ^ 46) with 70368744177664 in H2.
  set (f := F2Z _) in *. set (NU := Zpos p * one64) in *. lia.
Qed.

(** ** Rounding near a multiple of the unit *)
Lemma rnd_ge_scaled (z q k : Z) :
  0 <= z -> ulp_exp z <= k -> q * 2 ^ k <= z -> q * 2 ^ k <= rnd z.
Proof.
  intros Hz Hk Hq. pose proof (ulp_exp_nonneg z) as Hu. unfold rnd.
  set (u := ulp_exp z) in *.
  assert (Pu : 0 < 2 ^ u) by (apply Z.pow_pos_nonneg; lia).
  assert (E : q * 2 ^ k = q * 2 ^ (k - u) * 2 ^ u).
  { rewrite <- Z.mul_assoc, <- Z.pow_add_r by lia. do 2 f_equal. lia. }
  rewrite E. apply Z.mul_le_mono_nonneg_r; [lia|].
  apply dne_ge; [exact Pu|]. rewrite <- E. exact Hq.
Qed.

Lemma ulp_exp_small (z : Z) :
  0 <= z < 2 ^ 19 * one64 ->
  ulp_exp z <= 1040 /\ 2 ^ 34 * 2 ^ ulp_exp z <= one64.
Proof.
  intros Hz.
  assert (D : Zdigits2 z <= 19 + 1074).
  { apply Zdigits2_lt_pow2; [lia|]. rewrite Z.pow_add_r by lia. exact Hz. }
  assert (U : ulp_exp z <= 1040) by (unfold ulp_exp; lia).
  split; [exact U|]. pose proof (ulp_exp_nonneg z).
  rewrite <- (one64_split 34 1040) by lia.
  apply Z.mul_le_mono_nonneg_l; [lia|]. apply Z.pow_le_mono_r; lia.
Qed.

Lemma dne_near (a d k : Z) :
  0 < d -> - d < 2 * (a - k * d) < d -> div_nearest_even a d = k.
Proof.
  intros Hd H. destruct (dne_range a d Hd) as [_ R].
  set (q := div_nearest_even a d) in *. nia.
Qed.

(** ** The thousandths written for a float *)
Lemma thousandths_near (x : float) (n : Z) :
  nonneg_finite x -> F2Z x < 2 ^ 52 * one64 ->
  - one64 < 4 * (1000 * F2Z x - n * one64) < one64 ->
  thousandths x = n.
Proof.
  intros Hx Hlt Hn. pose proof one64_pos as PU.
  destruct x as [s|s| |s m e]; cbn [nonneg_finite] in Hx; try contradiction.
  - cbn [F2Z thousandths] in *. nia.
  - destruct Hx as [-> Hb]. cbn [F2Z cond_Zopp thousandths] in *.
    destruct (bounded64_elim m e Hb) as (_ & _ & Ge & Dm & Dn).
    assert (Pp : 0 < 2 ^ (e + 1074)) by (apply Z.pow_pos_nonneg; lia).
    destruct (Z.leb_spec 0 e) as [He|He].
    { exfalso. specialize (Dn ltac:(lia)).
      destruct (Zdigits2_bounds (Zpos m) ltac:(lia)) as (_ & D2 & _).
      rewrite Dn in D2. change (53 - 1) with 52 in D2.
      rewrite pow2_one64 in Hlt by exact He.
      assert (P1 : 1 <= 2 ^ e) by (apply (Z.pow_le_mono_r 2 0 e); lia).
      assert (P2 : 2 ^ 52 * 1 <= Zpos m * 2 ^ e)
        by (apply Z.mul_le_mono_nonneg; lia).
      assert (P3 : 2 ^ 52 * 1 * one64 <= Zpos m * 2 ^ e * one64)
        by (apply Z.mul_le_mono_nonneg_r; lia).
      lia. }
    assert (Pd : 0 < 2 ^ (- e)) by (apply Z.pow_pos_nonneg; lia).
    assert (E : 2 ^ (- e) * 2 ^ (e + 1074) = one64)
      by (apply one64_split; lia).
    apply dne_near; [exact Pd|].
    set (d := 2 ^ (- e)) in *. set (p := 2 ^ (e + 1074)) in *.
    rewrite <- E in Hn. nia.
Qed.

Lemma thousandths_nonneg (x : float) : 0 <= thousandths x.
Proof.
  destruct x as [s|s| |s m e]; cbn [thousandths]; try lia.
  destruct (Z.leb_spec 0 e).
  - assert (0 < 2 ^ e) by (apply Z.pow_pos_nonneg; lia). nia.
  - apply dne_nonneg; [apply Z.pow_pos_nonneg|]; lia.
Qed.

Lemma string_length_app (s t : string) :
  String.length (s ++ t) = (String.length s + String.length t)%nat.
Proof. induction s as [|c s IH]; [reflexivity|]. cbn. now rewrite IH. Qed.

Lemma string_app_assoc (s t u : string) : (s ++ t) ++ u = s ++ t ++ u.
Proof. induction s as [|c s IH]; [reflexivity|]. cbn. now rewrite IH. Qed.

Lemma zero_pad_6 (a : Z) (t : string) :
  0 <= a -> String.length t = 4%nat ->
  zero_pad 6 false (str_nat a ++ t) = format_02d a ++ t.
Proof.
  intros Ha Ht. unfold format_02d, zero_pad.
  destruct (Z.ltb_spec a 0) as [|_]; [lia|]. rewrite Z.abs_eq by exact Ha.
  cbn [append String.length]. rewrite string_length_app, Ht.
  rewrite string_app_assoc. f_equal. f_equal. lia.
Qed.

(** What [f"{x:06.3f}"] writes for a float that is not negative, in terms
    of its thousandths. *)
Lemma format_06_3f_nonneg (x : float) :
  nonneg_finite x -> sign_bit x = false ->
  format_06_3f x
  = format_02d (thousandths x / 1000) ++ "."
    ++ three_digits (thousandths x mod 1000).
Proof.
  intros Hx Hs. pose proof (thousandths_nonneg x) as Hk.
  assert (Hq : 0 <= thousandths x / 1000) by (apply Z.div_pos; lia).
  assert (Hr : 0 <= thousandths x mod 1000 < 1000)
    by (apply Z.mod_pos_bound; lia).
  unfold format_06_3f. rewrite Hs.
  replace (fixed3_body x)
    with (str_nat (thousandths x / 1000) ++ "."
          ++ zero_pad 3 false (str_nat (thousandths x mod 1000)))
    by (destruct x; try contradiction; reflexivity).
  rewrite zero_pad_three_digits by exact Hr.
  apply zero_pad_6; [exact Hq|reflexivity].
Qed.

(** ** The whole quotient of a float by 3600 and by 60 *)
Lemma exact_quotient_3600 : all_from 99 1 (exact_quotient 3600) = true.
Proof. vm_compute. reflexivity. Qed.

Lemma exact_quotient_60 : all_from 59 1 (exact_quotient 60) = true.
Proof. vm_compute. reflexivity. Qed.

Lemma mod_of_multiple (Q D R : Z) :
  0 <= R < D -> (Q * D + R) mod D = R.
Proof.
  intros HR. rewrite Z.add_comm, Z.mod_add by lia. apply Z.mod_small. exact HR.
Qed.

(** [int(x // w)] for a float [x] that is [Q] times the integer [w] and a
    rest below [w]. *)
Lemma f_floordiv_exact (x : float) (W Q R : Z) (N : nat) (mw : positive)
    (ew : Z) :
  float_of_Z W = S754_finite false mw ew -> bounded64 mw ew = true ->
  all_from N 1 (exact_quotient W) = true ->
  0 < W -> (1 + Z.of_nat N) * W < 2 ^ 53 ->
  nonneg_finite x -> 0 <= Q < 1 + Z.of_nat N ->
  F2Z x = Q * (W * one64) + R -> 0 <= R < W * one64 ->
  py_int_of_num (PyFloat (f_floordiv x (float_of_Z W))) = Ok Q.
Proof.
  intros Hw Hb Htab HW HN Hx HQ Hv HR. pose proof one64_pos as PU.
  assert (HQW : 0 <= Q * W < 2 ^ 53) by nia.
  assert (HW53 : 0 <= W < 2 ^ 53) by nia.
  destruct (float_of_Z_small W HW53) as [_ Ew]. rewrite Hw in Ew.
  cbn [F2Z cond_Zopp] in Ew.
  destruct (f_fmod_nonneg x mw ew Hx Hb) as [Hm Hmv].
  rewrite Ew, Hv, mod_of_multiple in Hmv by exact HR.
  assert (Hle : F2Z (f_fmod x (S754_finite false mw ew)) <= F2Z x) by nia.
  destruct (f_sub_nonneg x _ Hx Hm Hle) as [Hs Hsv].
  rewrite Hmv, Hv in Hsv.
  replace (Q * (W * one64) + R - R) with (Q * W * one64) in Hsv by lia.
  rewrite rnd_representable in Hsv
    by (exists (Q * W), 1074; split; [reflexivity|lia]).
  rewrite Hw. unfold f_floordiv.
  set (w := S754_finite false mw ew) in *.
  set (m := f_fmod x w) in *. set (sub := f_sub x m) in *.
  assert (Ed : forall d, (if is_zero m then d
                          else if negb (Bool.eqb (f_lt w (S754_zero false))
                                                 (f_lt m (S754_zero false)))
                               then f_sub d f_one else d) = d).
  { intros d. destruct (is_zero m); [reflexivity|].
    rewrite (f_lt_zero_nonneg m Hm). reflexivity. }
  rewrite Ed.
  destruct (Z.eq_dec Q 0) as [->|HQ0].
  - assert (Z : exists s', sub = S754_zero s').
    { destruct sub as [s'|s'| |s' m' e']; cbn [nonneg_finite] in Hs;
        try contradiction; [now exists s'|].
      destruct Hs as [-> Hb']. cbn [F2Z cond_Zopp] in Hsv.
      destruct (bounded64_value m' e' Hb') as [_ ?]. lia. }
    destruct Z as [s' ->]. reflexivity.
  - assert (Esub : sub = float_of_Z (Q * W)).
    { destruct (float_of_Z_small (Q * W) HQW) as [H1 H2].
      apply nonneg_finite_eq; [exact Hs|exact H1|nia|now rewrite H2]. }
    rewrite Esub.
    pose proof (all_from_spec _ _ _ Htab Q ltac:(lia)) as T.
    unfold exact_quotient in T. rewrite Hw in T. fold w in T.
    apply andb_true_iff in T. destruct T as [T1 T2].
    apply negb_true_iff in T1. rewrite T1.
    unfold floor_of_quotient in T2.
    destruct (if f_gt _ _ then _ else _) as [?|?| |[] m' e'];
      try discriminate.
    apply Z.eqb_eq in T2. cbn [py_int_of_num]. now rewrite T2.
Qed.

(** ** The seconds read from a time, as a value *)
Lemma srt_time_parsed (h m s ms : Z) :
  0 <= h < 100 -> 0 <= m < 100 -> 0 <= s < 100 -> 0 <= ms < 1000 ->
  _srt_time_to_seconds (srt_time h m s ms)
  = Ok (PyFloat (f_add (float_of_Z (h * 3600 + m * 60))
                       (float_of_decimal false (1000 * s + ms) (-3)))).
Proof.
  intros Hh Hm Hs Hms. unfold _srt_time_to_seconds.
  rewrite srt_time_fields by assumption. cbn [py_index nth_error bind].
  rewrite (py_int_two_digits h Hh), (py_int_two_digits m Hm). cbn [bind].
  rewrite (py_float_seconds s ms Hs Hms). cbn [bind py_add to_float].
  destruct (float_of_Z_small (h * 3600 + m * 60)) as [Hf _].
  { change (2 ^ 53) with 9007199254740992. lia. }
  destruct (float_of_Z (h * 3600 + m * 60)); try contradiction; reflexivity.
Qed.

Lemma srt_seconds_value (A n : Z) :
  0 <= A < 360000 -> 0 <= n < 60000 ->
  let V := f_add (float_of_Z A) (float_of_decimal false n (-3)) in
  nonneg_finite V
  /\ exists r, F2Z V = A * one64 + r /\ 0 <= r < 60 * one64
               /\ - one64 < 4 * (1000 * r - n * one64) < one64.
Proof.
  intros HA Hn V. subst V. pose proof one64_pos as PU.
  destruct (float_of_thousandths n Hn) as [HF B1].
  destruct (float_of_Z_small A) as [Ha Eav].
  { change (2 ^ 53) with 9007199254740992. lia. }
  destruct (nonneg_finite_value _ HF) as [_ [F0 _]].
  set (f := F2Z (float_of_decimal false n (-3))) in *.
  assert (HAU : 0 <= A * one64 <= 359999 * one64) by nia.
  assert (HNU : 0 <= n * one64 <= 59999 * one64) by nia.
  set (AU := A * one64) in *. set (NU := n * one64) in *.
  change (2 ^ 30) with 1073741824 in B1.
  set (z := AU + f).
  assert (Hz : 0 <= z < 2 ^ 19 * one64)
    by (subst z; change (2 ^ 19) with 524288; lia).
  destruct (ulp_exp_small z Hz) as [U1 U2].
  pose proof (rnd_error z (proj1 Hz)) as Er.
  assert (T20 : 2 ^ 20 * one64 <= top64) by (apply one64_scaled; lia).
  change (2 ^ 20) with 1048576 in T20. change (2 ^ 19) with 524288 in Hz.
  change (2 ^ 34) with 17179869184 in U2.
  assert (Hr : rnd z < top64) by (apply rnd_lt_top64; lia).
  destruct (f_add_nonneg _ _ Ha HF) as [HV EV].
  { rewrite Eav. exact Hr. }
  rewrite Eav in EV. fold f in EV. fold z in EV.
  split; [exact HV|]. exists (rnd z - AU). split; [lia|].
  assert (G : AU <= rnd z).
  { subst AU. apply (rnd_ge_scaled z A 1074); [lia|lia|].
    change (A * one64 <= z). lia. }
  set (E := 2 ^ ulp_exp z) in *. lia.
Qed.

Lemma f_mod_sign (x : float) (mw : positive) (ew : Z) :
  nonneg_finite x -> bounded64 mw ew = true ->
  sign_bit (f_mod x (S754_finite false mw ew)) = false.
Proof.
  intros Hx Hb. destruct (f_fmod_nonneg x mw ew Hx Hb) as [Hm _].
  unfold f_mod. set (m := f_fmod x (S754_finite false mw ew)) in *.
  destruct (is_zero m) eqn:Z; [reflexivity|].
  rewrite (f_lt_zero_nonneg m Hm). cbn [f_lt SFltb SFcompare Bool.eqb negb].
  destruct m as [?|?| |s' ? ?]; try contradiction; try discriminate.
  now destruct Hm.
Qed.

Lemma F2Z_w60 : F2Z w60 = 60 * one64.
Proof.
  rewrite <- float_of_Z_60. apply float_of_Z_small.
  change (2 ^ 53) with 9007199254740992. lia.
Qed.

Lemma F2Z_w3600 : F2Z w3600 = 3600 * one64.
Proof.
  rewrite <- float_of_Z_3600. apply float_of_Z_small.
  change (2 ^ 53) with 9007199254740992. lia.
Qed.

(** Writing the seconds read from [h] hours, [m] minutes and [n]
    thousandths of a second. *)
Lemma seconds_written (h m n : Z) :
  0 <= h < 100 -> 0 <= m < 60 -> 0 <= n < 60000 ->
  _seconds_to_srt_time
    (PyFloat (f_add (float_of_Z (h * 3600 + m * 60))
                    (float_of_decimal false n (-3))))
  = Ok (py_replace "." ","
          (format_02d h ++ ":" ++ format_02d m ++ ":"
           ++ format_02d (n / 1000) ++ "." ++ three_digits (n mod 1000))).
Proof.
  intros Hh Hm Hn. pose proof one64_pos as PU.
  destruct (srt_seconds_value (h * 3600 + m * 60) n ltac:(lia) Hn)
    as (HV & r & EV & Hr & Hnear).
  set (V := f_add _ _) in *.
  assert (HMU : 0 <= m * one64 <= 59 * one64) by nia.
  assert (HHU : 0 <= h * one64) by nia.
  unfold _seconds_to_srt_time, py_floordiv, py_mod.
  (* the hours *)
  rewrite (f_floordiv_exact V 3600 h (m * 60 * one64 + r) 99 _ _
             float_of_Z_3600 w3600_bounded exact_quotient_3600);
    [| lia | change (2 ^ 53) with 9007199254740992; lia | exact HV | lia
     | lia | lia ].
  cbn [bind].
  (* the minutes *)
  rewrite float_of_Z_3600, float_of_Z_60.
  destruct (f_mod_nonneg V _ _ HV w3600_bounded) as [HM3 EM3].
  fold w3600 in HM3, EM3. change (Zpos _ * 2 ^ (-41 + 1074)) with (F2Z w3600) in EM3.
  rewrite F2Z_w3600, EV in EM3.
  replace ((h * 3600 + m * 60) * one64 + r)
    with (h * (3600 * one64) + (m * 60 * one64 + r)) in EM3 by lia.
  rewrite mod_of_multiple in EM3 by lia.
  rewrite <- float_of_Z_60 at 1.
  rewrite (f_floordiv_exact (f_mod V w3600) 60 m r 59 _ _
             float_of_Z_60 w60_bounded exact_quotient_60);
    [| lia | change (2 ^ 53) with 9007199254740992; lia | exact HM3 | lia
     | lia | lia ].
  cbn [bind].
  (* the seconds *)
  destruct (f_mod_nonneg V _ _ HV w60_bounded) as [HM6 EM6].
  pose proof (f_mod_sign V _ _ HV w60_bounded) as SM6.
  fold w60 in HM6, EM6, SM6.
  change (Zpos _ * 2 ^ (-47 + 1074)) with (F2Z w60) in EM6.
  rewrite F2Z_w60, EV in EM6.
  replace ((h * 3600 + m * 60) * one64 + r)
    with ((h * 60 + m) * (60 * one64) + r) in EM6 by lia.
  rewrite mod_of_multiple in EM6 by lia.
  unfold py_format_06_3f. cbn [to_float bind].
  rewrite (format_06_3f_nonneg _ HM6 SM6).
  rewrite (thousandths_near (f_mod V w60) n HM6);
    [reflexivity| change (2 ^ 52) with 4503599627370496; lia | now rewrite EM6].
Qed.

(** ** The round trip of a subtitle time *)
Lemma srt_time_written (h m s ms : Z) :
  0 <= h < 100 -> 0 <= m < 100 -> 0 <= s < 100 -> 0 <= ms < 1000 ->
  py_replace "." ","
    (format_02d h ++ ":" ++ format_02d m ++ ":" ++ format_02d s ++ "."
     ++ three_digits ms)
  = srt_time h m s ms.
Proof.
  intros Hh Hm Hs Hms.
  rewrite !format_02d_two_digits by assumption.
  pose proof (two_digits_digits h Hh) as Dh.
  pose proof (two_digits_digits m Hm) as Dm.
  pose proof (two_digits_digits s Hs) as Ds.
  pose proof (three_digits_digits ms Hms) as Dms.
  unfold srt_time. rewrite !py_replace_app.
  rewrite (py_replace_digits "." "," (two_digits h) eq_refl Dh),
    (py_replace_digits "." "," (two_digits m) eq_refl Dm),
    (py_replace_digits "." "," (two_digits s) eq_refl Ds),
    (py_replace_digits "." "," (three_digits ms) eq_refl Dms).
  reflexivity.
Qed.

(** X1. A time in the form HH:MM:SS,mmm, with minutes and seconds below 60,
    is read by [_srt_time_to_seconds] to a float that
    [_seconds_to_srt_time] writes back as the same text: the float is not
    exact, and the thousandths are rounded, not cut. *)
Theorem srt_time_round_trip (h m s ms : Z) :
  0 <= h < 100 -> 0 <= m < 60 -> 0 <= s < 60 -> 0 <= ms < 1000 ->
  exists v, _srt_time_to_seconds (srt_time h m s ms) = Ok (PyFloat v)
            /\ _seconds_to_srt_time (PyFloat v) = Ok (srt_time h m s ms).
Proof.
  intros Hh Hm Hs Hms. eexists. split.
  - apply srt_time_parsed; lia.
  - rewrite seconds_written by lia. f_equal.
    replace ((1000 * s + ms) / 1000) with s by (Z.div_mod_to_equations; lia).
    replace ((1000 * s + ms) mod 1000) with ms
      by (Z.div_mod_to_equations; lia).
    apply srt_time_written; lia.
Qed.

Lemma srt_time_round_trip_witness :
  exists v, _srt_time_to_seconds "01:02:03,456" = Ok (PyFloat v)
            /\ _seconds_to_srt_time (PyFloat v) = Ok "01:02:03,456".
Proof. apply (srt_time_round_trip 1 2 3 456); lia. Defined.

(** C3. A time in the form HH:MM:SS,mmm, with minutes and seconds below 60,
    is read by [_srt_time_to_seconds] to a float [v] that need not be the
    exact time but lies within a quarter of a millisecond of it, below or
    above; [_seconds_to_srt_time] rounds the thousandths of [v] to the
    nearest and so writes the same text again. *)
Theorem srt_time_reproduced (h m s ms : Z) :
  0 <= h < 100 -> 0 <= m < 60 -> 0 <= s < 60 -> 0 <= ms < 1000 ->
  exists v,
    _srt_time_to_seconds (srt_time h m s ms) = Ok (PyFloat v)
    /\ near_millisecond v (3600000 * h + 60000 * m + 1000 * s + ms)
    /\ _seconds_to_srt_time (PyFloat v) = Ok (srt_time h m s ms).
Proof.
  intros Hh Hm Hs Hms. eexists. split; [apply srt_time_parsed; lia|].
  split.
  - destruct (srt_seconds_value (h * 3600 + m * 60) (1000 * s + ms)
                ltac:(lia) ltac:(lia)) as (HV & r & EV & _ & Hnear).
    split; [exact HV|]. rewrite EV.
    replace (1000 * ((h * 3600 + m * 60) * one64 + r)
             - (3600000 * h + 60000 * m + 1000 * s + ms) * one64)
      with (1000 * r - (1000 * s + ms) * one64) by ring.
    exact Hnear.
  - rewrite seconds_written by lia. f_equal.
    replace ((1000 * s + ms) / 1000) with s by (Z.div_mod_to_equations; lia).
    replace ((1000 * s + ms) mod 1000) with ms
      by (Z.div_mod_to_equations; lia).
    apply srt_time_written; lia.
Qed.

Lemma srt_time_reproduced_witness :
  exists v, _srt_time_to_seconds "00:00:01,001" = Ok (PyFloat v)
            /\ 1000 * F2Z v < 1001 * one64
            /\ _seconds_to_srt_time (PyFloat v) = Ok "00:00:01,001".
Proof.
  destruct (srt_time_reproduced 0 0 1 1) as (v & Hp & _ & Hw); try lia.
  exists v. split; [exact Hp|]. split; [|exact Hw].
  change (srt_time 0 0 1 1) with "00:00:01,001" in Hp.
  assert (E : _srt_time_to_seconds "00:00:01,001"
              = Ok (PyFloat (S754_finite false 4508103226997866 (-52))))
    by (vm_compute; reflexivity).
  rewrite E in Hp. inversion Hp. vm_compute. reflexivity.
Defined.

(** ** Whole seconds *)
Lemma same_float_eq (x y : float) : same_float x y = true -> x = y.
Proof.
  destruct x as [a|a| |a m e], y as [b|b| |b m' e']; cbn [same_float];
    try discriminate; try reflexivity.
  - intros H. apply Bool.eqb_prop in H. now subst.
  - intros H. apply Bool.eqb_prop in H. now subst.
  - rewrite !andb_true_iff. intros [[H1 H2] H3].
    apply Bool.eqb_prop in H1. apply Pos.eqb_eq in H2. apply Z.eqb_eq in H3.
    now subst.
Qed.

Lemma float_of_whole_thousandths (s : Z) :
  0 <= s < 60 -> float_of_decimal false (1000 * s) (-3) = float_of_Z s.
Proof.
  intros Hs. apply same_float_eq.
  apply (all_below_spec 60
           (fun s => same_float (float_of_decimal false (1000 * s) (-3))
                                (float_of_Z s)));
    [vm_compute; reflexivity|exact Hs].
Qed.

Lemma float_of_Z_sign (n : Z) :
  0 <= n < 2 ^ 53 -> sign_bit (float_of_Z n) = false.
Proof.
  intros Hn. destruct (float_of_Z_small n Hn) as [H1 H2].
  destruct (Z.eq_dec n 0) as [->|Hnz]; [reflexivity|].
  pose proof one64_pos.
  destruct (float_of_Z n) as [?|?| |a ? ?]; try contradiction.
  - cbn [F2Z] in H2. nia.
  - now destruct H1.
Qed.

Lemma float_of_Z_add (a b : Z) :
  0 <= a -> 0 <= b -> a + b < 2 ^ 53 ->
  f_add (float_of_Z a) (float_of_Z b) = float_of_Z (a + b).
Proof.
  intros Ha Hb Hab. pose proof one64_pos as PU.
  destruct (float_of_Z_small a ltac:(lia)) as [A1 A2].
  destruct (float_of_Z_small b ltac:(lia)) as [B1 B2].
  destruct (float_of_Z_small (a + b) ltac:(lia)) as [C1 C2].
  destruct (Z.eq_dec (a + b) 0) as [E0|E0].
  { assert (a = 0) by lia. assert (b = 0) by lia. subst. reflexivity. }
  assert (R : rnd (F2Z (float_of_Z a) + F2Z (float_of_Z b)) = (a + b) * one64).
  { rewrite A2, B2. replace (a * one64 + b * one64) with ((a + b) * one64)
      by lia.
    apply rnd_representable. exists (a + b), 1074. split; [reflexivity|lia]. }
  destruct (nonneg_finite_value _ C1) as [_ [_ T]]. rewrite C2 in T.
  destruct (f_add_nonneg _ _ A1 B1) as [D1 D2]; [rewrite R; exact T|].
  apply nonneg_finite_eq; [exact D1|exact C1|rewrite D2, R; nia|].
  now rewrite D2, R, C2.
Qed.

Lemma whole_seconds_field (k : Z) :
  0 <= k < 60 ->
  py_format_06_3f (PyInt k) = Ok (format_02d k ++ "." ++ three_digits 0).
Proof.
  intros Hk. pose proof one64_pos as PU.
  assert (Hk53 : 0 <= k < 2 ^ 53)
    by (change (2 ^ 53) with 9007199254740992; lia).
  destruct (float_of_Z_small k Hk53) as [H1 H2].
  pose proof (float_of_Z_sign k Hk53) as H3.
  unfold py_format_06_3f, to_float.
  replace (is_infinite (float_of_Z k)) with false
    by (destruct (float_of_Z k); try contradiction; reflexivity).
  cbn [bind]. rewrite (format_06_3f_nonneg _ H1 H3).
  rewrite (thousandths_near (float_of_Z k) (1000 * k) H1);
    [| rewrite H2; change (2 ^ 52) with 4503599627370496; nia
     | rewrite H2; lia ].
  replace (1000 * k / 1000) with k by (Z.div_mod_to_equations; lia).
  replace ((1000 * k) mod 1000) with 0 by (Z.div_mod_to_equations; lia).
  reflexivity.
Qed.

(** X2. A whole number [n] of seconds, an [int] as [max] and [min] return it
    for a cue cut at the range, is written as HH:MM:SS,000, and that text is
    read back as the float of [n]. *)
Theorem whole_seconds_round_trip (n : Z) :
  0 <= n < 360000 ->
  _seconds_to_srt_time (PyInt n)
  = Ok (srt_time (n / 3600) (n mod 3600 / 60) (n mod 60) 0)
  /\ _srt_time_to_seconds (srt_time (n / 3600) (n mod 3600 / 60) (n mod 60) 0)
     = Ok (PyFloat (float_of_Z n)).
Proof.
  intros Hn.
  assert (Hh : 0 <= n / 3600 < 100) by (Z.div_mod_to_equations; lia).
  assert (Hm : 0 <= n mod 3600 / 60 < 60) by (Z.div_mod_to_equations; lia).
  assert (Hs : 0 <= n mod 60 < 60) by (Z.div_mod_to_equations; lia).
  split.
  - unfold _seconds_to_srt_time, py_floordiv, py_mod.
    cbn [py_int_of_num bind]. rewrite (whole_seconds_field _ Hs).
    cbn [bind]. f_equal. apply srt_time_written; lia.
  - rewrite srt_time_parsed by lia. do 2 f_equal.
    rewrite Z.add_0_r, (float_of_whole_thousandths _ Hs).
    rewrite float_of_Z_add;
      [| Z.div_mod_to_equations; lia | lia
       | change (2 ^ 53) with 9007199254740992; Z.div_mod_to_equations; lia ].
    f_equal. Z.div_mod_to_equations; lia.
Qed.

Lemma whole_seconds_round_trip_witness :
  _seconds_to_srt_time (PyInt 3725) = Ok "01:02:05,000"
  /\ _srt_time_to_seconds "01:02:05,000" = Ok (PyFloat (float_of_Z 3725)).
Proof. apply (whole_seconds_round_trip 3725). lia. Defined.

(* ================================================================== *)
(** * Ranges, durations and validation *)

(** ** A range that is empty or reversed *)
Lemma py_lt_int_mono (a : num) (n k : Z) :
  py_lt a (PyInt n) = true -> n <= k -> py_lt a (PyInt k) = true.
Proof.
  unfold py_lt. destruct a as [m|x]; cbn [num_compare].
  - destruct (Z.compare_spec m n); try discriminate. intros _ Hk.
    destruct (Z.compare_spec m k); try reflexivity; lia.
  - destruct x as [s|s| |s m e]; cbn [compare_float_int]; try discriminate.
    + destruct (Z.compare_spec 0 n); try discriminate. intros _ Hk.
      destruct (Z.compare_spec 0 k); try reflexivity; lia.
    + trivial.
    + destruct (Z.leb_spec 0 e) as [He|He].
      * destruct (Z.compare_spec (cond_Zopp s (Zpos m) * 2 ^ e) n);
          try discriminate. intros _ Hk.
        destruct (Z.compare_spec (cond_Zopp s (Zpos m) * 2 ^ e) k);
          try reflexivity; lia.
      * assert (P : 0 < 2 ^ (- e)) by (apply Z.pow_pos_nonneg; lia).
        destruct (Z.compare_spec (cond_Zopp s (Zpos m)) (n * 2 ^ (- e)));
          try discriminate. intros _ Hk.
        assert (n * 2 ^ (- e) <= k * 2 ^ (- e))
          by (apply Z.mul_le_mono_nonneg_r; lia).
        destruct (Z.compare_spec (cond_Zopp s (Zpos m)) (k * 2 ^ (- e)));
          try reflexivity; lia.
Qed.

Lemma py_gt_int_mono (a : num) (n k : Z) :
  py_gt a (PyInt n) = true -> k <= n -> py_gt a (PyInt k) = true.
Proof.
  unfold py_gt. destruct a as [m|x]; cbn [num_compare].
  - destruct (Z.compare_spec m n); try discriminate. intros _ Hk.
    destruct (Z.compare_spec m k); try reflexivity; lia.
  - destruct x as [s|s| |s m e]; cbn [compare_float_int]; try discriminate.
    + destruct (Z.compare_spec 0 n); try discriminate. intros _ Hk.
      destruct (Z.compare_spec 0 k); try reflexivity; lia.
    + trivial.
    + destruct (Z.leb_spec 0 e) as [He|He].
      * destruct (Z.compare_spec (cond_Zopp s (Zpos m) * 2 ^ e) n);
          try discriminate. intros _ Hk.
        destruct (Z.compare_spec (cond_Zopp s (Zpos m) * 2 ^ e) k);
          try reflexivity; lia.
      * assert (P : 0 < 2 ^ (- e)) by (apply Z.pow_pos_nonneg; lia).
        destruct (Z.compare_spec (cond_Zopp s (Zpos m)) (n * 2 ^ (- e)));
          try discriminate. intros _ Hk.
        assert (k * 2 ^ (- e) <= n * 2 ^ (- e))
          by (apply Z.mul_le_mono_nonneg_r; lia).
        destruct (Z.compare_spec (cond_Zopp s (Zpos m)) (k * 2 ^ (- e)));
          try reflexivity; lia.
Qed.

Lemma py_gt_not_lt (a b : num) : py_gt a b = true -> py_gt b a = false.
Proof.
  unfold py_gt. destruct (num_compare a b) as [[]|] eqn:E; try discriminate.
  intros _. now rewrite (num_compare_antisym _ _ _ E).
Qed.

Lemma py_lt_not_gt (a b : num) : py_lt a b = true -> py_gt a b = false.
Proof. unfold py_lt, py_gt. now destruct (num_compare a b) as [[]|]. Qed.

(** In Python's order a number below zero is not above a number above
    zero, whether each is an [int] or a [float]. *)
Lemma negative_not_above_positive (a b : num) :
  negative_num a -> positive_num b -> py_gt a b = false.
Proof.
  unfold negative_num, positive_num. intros Ha Hb.
  destruct b as [n|y].
  - apply py_lt_not_gt. apply (py_lt_int_mono a 0 n Ha).
    unfold py_gt in Hb. cbn in Hb. destruct (Z.compare_spec n 0); try discriminate.
    lia.
  - destruct a as [m|x].
    + apply py_gt_not_lt. apply (py_gt_int_mono _ 0 m Hb).
      unfold py_lt in Ha. cbn in Ha. destruct (Z.compare_spec m 0); try discriminate.
      lia.
    + unfold py_lt, py_gt in *. cbn [num_compare] in *.
      destruct x as [sx|sx| |sx mx ex]; cbn [compare_float_int] in Ha;
        try discriminate.
      * destruct sx; [|discriminate].
        destruct y as [sy|sy| |sy my ey]; cbn [compare_float_int] in Hb;
          try discriminate; try (destruct sy; reflexivity).
      * assert (sx = true).
        { destruct sx; [reflexivity|]. cbn [cond_Zopp] in Ha.
          destruct (Z.leb_spec 0 ex);
            [assert (0 < 2 ^ ex) by (apply Z.pow_pos_nonneg; lia)|];
            match type of Ha with
            | context [?u ?= ?v] => destruct (Z.compare_spec u v)
            end; try discriminate; nia. }
        subst sx.
        destruct y as [sy|sy| |sy my ey]; cbn [compare_float_int] in Hb;
          try discriminate.
        -- destruct sy; [discriminate|reflexivity].
        -- assert (sy = false).
           { destruct sy; [|reflexivity]. cbn [cond_Zopp] in Hb.
             destruct (Z.leb_spec 0 ey);
               [assert (0 < 2 ^ ey) by (apply Z.pow_pos_nonneg; lia)|];
               match type of Hb with
               | context [?u ?= ?v] => destruct (Z.compare_spec u v)
               end; try discriminate; nia. }
           subst sy. reflexivity.
Qed.

Lemma retime_empty_range (s e : Z) (a b : num) :
  e <= s -> forall times, retime s e a b <> Ok (Some times).
Proof.
  intros Hes times. unfold retime.
  destruct (py_gt b (PyInt s) && py_lt a (PyInt e)); [|discriminate].
  destruct (py_sub a (PyInt s)) as [d1|]; [|discriminate].
  destruct (py_sub b (PyInt s)) as [d2|]; [|discriminate]. cbn [bind].
  assert (G : py_gt (py_min (PyInt (e - s)) d2) (py_max (PyInt 0) d1) = false).
  { unfold py_min, py_max.
    destruct (py_lt d2 (PyInt (e - s))) eqn:L, (py_gt d1 (PyInt 0)) eqn:G.
    - apply negative_not_above_positive; [|exact G].
      apply (py_lt_int_mono d2 (e - s) 0 L). lia.
    - apply py_lt_not_gt. apply (py_lt_int_mono d2 (e - s) 0 L). lia.
    - apply py_gt_not_lt. apply (py_gt_int_mono d1 0 (e - s) G). lia.
    - unfold py_gt. cbn. destruct (Z.compare_spec (e - s) 0); try reflexivity.
      lia. }
  rewrite G. discriminate.
Qed.

Lemma retimed_cue_empty_range (s e : Z) (block : string) :
  e <= s -> retimed_cue s e block = None.
Proof.
  intros Hes. unfold retimed_cue. destruct (3 <=? _)%nat; [|reflexivity].
  unfold retime_block.
  destruct (cue_times (lines_of block)) as [[ss se]|]; [|reflexivity].
  cbn [bind].
  destruct (retime s e ss se) as [[[ns ne]|]|] eqn:Hr; try reflexivity.
  exfalso. exact (retime_empty_range s e ss se Hes _ Hr).
Qed.

Lemma retimed_cues_empty_range (s e : Z) (blocks : list string) :
  e <= s -> retimed_cues s e blocks = [].
Proof.
  intros Hes. induction blocks as [|block rest IH]; [reflexivity|].
  cbn [retimed_cues]. now rewrite (retimed_cue_empty_range s e block Hes).
Qed.

(** X3. A range that is empty or reversed ([end_seconds <= start_seconds])
    leaves no cue: whatever the input file holds, the text written is
    empty. *)
Theorem trim_empty_range (input_srt : result string) (s e : Z) :
  e <= s -> _trim_subtitle_file input_srt s e = EmptyString.
Proof.
  intros Hes. destruct input_srt as [content|x]; [|reflexivity].
  unfold _trim_subtitle_file.
  rewrite trim_blocks_numbered, (retimed_cues_empty_range s e _ Hes).
  reflexivity.
Qed.

Lemma trim_empty_range_witness :
  _trim_subtitle_file (Ok block_late) 15 15 = EmptyString.
Proof. apply trim_empty_range. lia. Defined.

(** ** When [validate_timestamps] returns *)
Lemma validate_timestamps_ok (info : video_info)
    (start_time end_time : string) (s e : Z) :
  validate_timestamps info start_time end_time = Ok (s, e)
  <-> parse_timestamp start_time = Ok s /\ parse_timestamp end_time = Ok e
      /\ s < e /\ e <= get_duration info.
Proof.
  unfold validate_timestamps.
  destruct (parse_timestamp start_time) as [s'|x]; cbn [bind];
    [|split; [discriminate|intros [H _]; discriminate H]].
  destruct (parse_timestamp end_time) as [e'|x]; cbn [bind];
    [|split; [discriminate|intros (_ & H & _); discriminate H]].
  destruct (Z.geb_spec s' e') as [H1|H1].
  { split; [discriminate|]. intros (Hs & He & Hlt & _).
    inversion Hs; inversion He; subst. lia. }
  cbv zeta. destruct (Z.geb_spec s' (get_duration info)) as [H2|H2].
  { split; [discriminate|]. intros (Hs & He & Hlt & Hle).
    inversion Hs; inversion He; subst. lia. }
  destruct (Z.gtb_spec e' (get_duration info)) as [H3|H3].
  { split; [discriminate|]. intros (Hs & He & Hlt & Hle).
    inversion Hs; inversion He; subst. lia. }
  split.
  - intros H. inversion H; subst. repeat split; lia.
  - intros (Hs & He & _). inversion Hs; inversion He; subst. reflexivity.
Qed.

(** X4. [validate_timestamps] returns exactly when both texts parse, to [s]
    and [e], with [s < e <= d], where [d] is the duration of the video, or 0
    when the metadata has no duration; in that case no end after 0:00 is
    accepted. *)
Theorem validate_timestamps_returns (info : video_info)
    (start_time end_time : string) (s e : Z) :
  (validate_timestamps info start_time end_time = Ok (s, e)
   <-> parse_timestamp start_time = Ok s /\ parse_timestamp end_time = Ok e
       /\ s < e /\ e <= get_duration info)
  /\ (duration info = None ->
      validate_timestamps info start_time end_time = Ok (s, e) -> e <= 0).
Proof.
  split; [apply validate_timestamps_ok|].
  intros Hnone H. apply validate_timestamps_ok in H.
  destruct H as (_ & _ & _ & Hle).
  unfold get_duration in Hle. rewrite Hnone in Hle. exact Hle.
Qed.

(** ** Reading back a duration that was written *)
Lemma parse_format_negative (v : Z) :
  v < 0 ->
  _format_duration v
  = format_02d (v mod 3600 / 60) ++ ":" ++ format_02d (v mod 60)
  /\ parse_timestamp (_format_duration v) = Ok (v mod 3600).
Proof.
  intros Hv. unfold _format_duration.
  destruct (Z.eqb_spec v 0) as [|_]; [lia|]. cbv zeta.
  assert (Hh : v / 3600 < 0) by (apply Z.div_lt_upper_bound; lia).
  destruct (Z.gtb_spec (v / 3600) 0) as [|_]; [lia|].
  split; [reflexivity|].
  assert (Hm1 : 0 <= v mod 3600 < 3600) by (apply Z.mod_pos_bound; lia).
  assert (Hm : 0 <= v mod 3600 / 60) by (apply Z.div_pos; lia).
  assert (Hs : 0 <= v mod 60 < 60) by (apply Z.mod_pos_bound; lia).
  assert (Hsum : v mod 3600 = v mod 3600 / 60 * 60 + v mod 60).
  { pose proof (Z.div_mod (v mod 3600) 60).
    assert ((v mod 3600) mod 60 = v mod 60).
    { apply Z.mod_mod_divide. exists 60. lia. }
    lia. }
  destruct (format_02d_spec _ Hm) as (B1 & _ & _).
  destruct (format_02d_spec (v mod 60) (proj1 Hs)) as (C1 & _ & _).
  pose proof (py_int_format_02d _ Hm) as B2.
  pose proof (py_int_format_02d (v mod 60) (proj1 Hs)) as C2.
  assert (Ecolon : forall x, ":" ++ x = String ":" x) by reflexivity.
  assert (F : fields (format_02d (v mod 3600 / 60) ++ ":"
                      ++ format_02d (v mod 60))
              = [format_02d (v mod 3600 / 60); format_02d (v mod 60)]).
  { unfold fields. rewrite py_strip_digits_colons.
    - rewrite !Ecolon, py_split_colon, py_split_digits; trivial.
    - rewrite !Ecolon, !string_forall_app. cbn [string_forall].
      rewrite !digits_are_digits_or_colons by assumption. reflexivity. }
  rewrite (parse_two_fields _ _ _ _ _ F B2 C2). f_equal. lia.
Qed.

(** X5. What [parse_timestamp] reads back from the text [_format_duration]
    wrote for [v] seconds: [v] itself when [v > 0]; [v] modulo one hour
    when [v < 0], the negative hours being dropped; and the format error
    for 0, written as N/A. *)
Theorem format_duration_read_back (v : Z) :
  (0 < v -> parse_timestamp (_format_duration v) = Ok v)
  /\ (v < 0 -> parse_timestamp (_format_duration v) = Ok (v mod 3600))
  /\ (v = 0 -> parse_timestamp (_format_duration v) = Raise FormatError).
Proof.
  split; [intros H; apply (parse_format_duration v H)|].
  split; [intros H; apply (parse_format_negative v H)|].
  intros ->. reflexivity.
Qed.

Lemma format_duration_read_back_witness :
  parse_timestamp (_format_duration 360000) = Ok 360000
  /\ parse_timestamp (_format_duration (-30)) = Ok 3570.
Proof.
  split.
  - apply (proj1 (format_duration_read_back 360000)). lia.
  - apply (proj1 (proj2 (format_duration_read_back (-30)))). lia.
Defined.

(* ================================================================== *)
(** * Properties of the other functions *)

(** ** Splitting at one character *)
Lemma split_from_char (c x : ascii) (s : string) :
  split_from (String c EmptyString) O (String x s)
  = if Ascii.eqb x c
    then (EmptyString,
          fst (split_from (String c EmptyString) O s)
          :: snd (split_from (String c EmptyString) O s))
    else (String x (fst (split_from (String c EmptyString) O s)),
          snd (split_from (String c EmptyString) O s)).
Proof.
  cbn [split_from prefix String.length Nat.sub].
  destruct (ascii_dec c x) as [->|Hne].
  - rewrite Ascii.eqb_refl.
    replace (prefix EmptyString s) with true by (now destruct s).
    now destruct (split_from (String x EmptyString) O s).
  - destruct (Ascii.eqb_spec x c) as [->|_]; [congruence|].
    now destruct (split_from (String c EmptyString) O s).
Qed.

Lemma py_split_char (c x : ascii) (s : string) :
  py_split (String x s) (String c EmptyString)
  = if Ascii.eqb x c then EmptyString :: py_split s (String c EmptyString)
    else match py_split s (String c EmptyString) with
         | p :: ps => String x p :: ps
         | [] => [String x EmptyString]
         end.
Proof.
  unfold py_split. rewrite split_from_char.
  destruct (Ascii.eqb x c), (split_from (String c EmptyString) O s);
    reflexivity.
Qed.

Lemma py_split_app_char (c : ascii) (a b : string) :
  py_split (a ++ String c b) (String c EmptyString)
  = (py_split a (String c EmptyString)
     ++ py_split b (String c EmptyString))%list.
Proof.
  induction a as [|x a IH].
  - cbn [append]. rewrite py_split_char, Ascii.eqb_refl. reflexivity.
  - cbn [append]. rewrite !py_split_char, IH.
    destruct (Ascii.eqb x c); [reflexivity|].
    unfold py_split at 1 3.
    destruct (split_from (String c EmptyString) O a) as [p ps]. reflexivity.
Qed.

Lemma py_split_char_absent (c : ascii) (s : string) :
  string_forall (fun x => negb (Ascii.eqb x c)) s = true ->
  py_split s (String c EmptyString) = [s].
Proof.
  induction s as [|x s IH]; [reflexivity|].
  cbn [string_forall]. rewrite andb_true_iff, negb_true_iff. intros [Hx Hs].
  now rewrite py_split_char, Hx, (IH Hs).
Qed.

(** ** Reading digits *)
Lemma string_app_nil_r (s : string) : s ++ EmptyString = s.
Proof. induction s as [|c s IH]; [reflexivity|]. cbn. now rewrite IH. Qed.

Lemma int_digits_app (D : string) :
  string_forall is_digit D = true ->
  exists v, int_digits 0 false D = Some v
            /\ forall a t, int_digits a false (D ++ t)
                           = int_digits (a * 10 ^ Z.of_nat (String.length D) + v)
                               false t.
Proof.
  induction D as [|c D IH].
  - intros _. exists 0. split; [reflexivity|]. intros a t. cbn. f_equal. lia.
  - cbn [string_forall]. rewrite andb_true_iff. intros [Hc HD].
    destruct (IH HD) as (v & Hv & Happ).
    destruct (digit_facts c Hc) as ((Hu & _) & _).
    exists (digit_value c * 10 ^ Z.of_nat (String.length D) + v). split.
    + cbn [int_digits]. rewrite Hu, Hc.
      pose proof (Happ (10 * 0 + digit_value c) EmptyString) as E.
      rewrite string_app_nil_r in E. rewrite E. cbn [int_digits].
      f_equal; lia.
    + intros a t. cbn [append int_digits String.length]. rewrite Hu, Hc, Happ.
      f_equal. rewrite Nat2Z.inj_succ, Z.pow_succ_r by lia. ring.
Qed.

Lemma int_digits_app_value (D1 D2 : string) (q r : Z) :
  string_forall is_digit D1 = true -> string_forall is_digit D2 = true ->
  int_digits 0 false D1 = Some q -> int_digits 0 false D2 = Some r ->
  int_digits 0 false (D1 ++ D2)
  = Some (q * 10 ^ Z.of_nat (String.length D2) + r).
Proof.
  intros H1 H2 E1 E2.
  destruct (int_digits_app D1 H1) as (v1 & Hv1 & A1).
  destruct (int_digits_app D2 H2) as (v2 & Hv2 & A2).
  assert (v1 = q) by congruence. assert (v2 = r) by congruence. subst v1 v2.
  rewrite A1.
  pose proof (A2 (0 * 10 ^ Z.of_nat (String.length D1) + q) EmptyString) as E.
  rewrite string_app_nil_r in E. rewrite E. cbn [int_digits]. f_equal; lia.
Qed.

(** [int] reads a text of digits that starts with one. *)
Lemma py_int_digits (s : string) (n : Z) :
  string_forall is_digit s = true -> starts_with_digit s = true ->
  int_digits 0 false s = Some n -> py_int s = Ok n.
Proof.
  intros H1 H2 H3. unfold py_int, strip_numeric.
  assert (Hns : string_forall (fun c => negb (is_space_numeric c)) s = true).
  { revert H1. apply string_forall_impl. intros c Hc.
    apply digit_or_colon_not_space. unfold is_digit_or_colon. now rewrite Hc. }
  rewrite (lstrip_none _ _ Hns), (rstrip_none _ _ Hns).
  destruct s as [|c s]; [discriminate|]. cbn in H2.
  destruct (is_digit_not_sign c H2) as (E1 & E2 & _).
  unfold split_sign. rewrite E1, E2. cbn [starts_with_digit]. rewrite H2, H3.
  reflexivity.
Qed.

Lemma three_digits_value (r : Z) :
  0 <= r < 1000 -> int_digits 0 false (three_digits r) = Some r.
Proof.
  intros Hr.
  pose proof (all_below_spec 1000
                (fun r => match int_digits 0 false (three_digits r) with
                          | Some v => v =? r
                          | None => false
                          end)) as T.
  specialize (T ltac:(vm_compute; reflexivity) r Hr). cbv beta in T.
  destruct (int_digits 0 false (three_digits r)); [|discriminate].
  apply Z.eqb_eq in T. now subst.
Qed.

Lemma str_nat_length (n : Z) :
  0 <= n < 1000 -> (1 <= String.length (str_nat n) <= 3)%nat.
Proof.
  intros Hn.
  pose proof (all_below_spec 1000
                (fun n => (1 <=? String.length (str_nat n))%nat
                          && (String.length (str_nat n) <=? 3)%nat)) as T.
  specialize (T ltac:(vm_compute; reflexivity) n Hn). cbv beta in T.
  apply andb_true_iff in T. destruct T as [T1 T2].
  apply Nat.leb_le in T1, T2. lia.
Qed.

Lemma concat_empty_snoc (l : list string) (x : string) :
  l <> [] ->
  String.concat EmptyString (l ++ [x])
  = String.concat EmptyString l ++ x.
Proof.
  induction l as [|y l IH]; [congruence|]. intros _.
  destruct l as [|z l].
  - cbn. reflexivity.
  - change (String.concat EmptyString ((y :: z :: l) ++ [x]))
      with (y ++ EmptyString ++ String.concat EmptyString ((z :: l) ++ [x])).
    rewrite IH by discriminate.
    change (String.concat EmptyString (y :: z :: l))
      with (y ++ EmptyString ++ String.concat EmptyString (z :: l)).
    cbn [append]. now rewrite string_app_assoc.
Qed.

(** ** What [_format_number] writes *)
Lemma digits_no_comma (s : string) :
  string_forall is_digit s = true ->
  string_forall (fun x => negb (Ascii.eqb x ",")) s = true.
Proof.
  apply string_forall_impl. intros c Hc.
  destruct (digit_facts c Hc) as ((_ & _ & -> & _) & _). reflexivity.
Qed.

Lemma group_thousands_spec (fuel : nat) :
  forall n, 0 <= n < 1000 * 2 ^ Z.of_nat fuel ->
    exists g gs,
      py_split (group_thousands fuel n) "," = g :: gs
      /\ (1 <= String.length g <= 3)%nat
      /\ Forall (fun x => String.length x = 3%nat) gs
      /\ string_forall is_digit (String.concat EmptyString (g :: gs)) = true
      /\ starts_with_digit (String.concat EmptyString (g :: gs)) = true
      /\ int_digits 0 false (String.concat EmptyString (g :: gs)) = Some n.
Proof.
  assert (Small : forall n, 0 <= n < 1000 ->
            exists g gs,
              py_split (str_nat n) "," = g :: gs
              /\ (1 <= String.length g <= 3)%nat
              /\ Forall (fun x => String.length x = 3%nat) gs
              /\ string_forall is_digit (String.concat EmptyString (g :: gs)) = true
              /\ starts_with_digit (String.concat EmptyString (g :: gs)) = true
              /\ int_digits 0 false (String.concat EmptyString (g :: gs)) = Some n).
  { intros n Hn. destruct (str_nat_spec n (proj1 Hn)) as (H1 & H2 & H3).
    exists (str_nat n), []. cbn [String.concat].
    rewrite (py_split_char_absent "," _ (digits_no_comma _ H1)).
    repeat split; try assumption; try apply (str_nat_length n Hn).
    constructor. }
  induction fuel as [|fuel IH]; intros n Hn.
  - apply Small. cbn in Hn. lia.
  - cbn [group_thousands]. destruct (Z.ltb_spec n 1000) as [Hlt|Hge].
    + apply Small. lia.
    + assert (Hq : 0 <= n / 1000 < 1000 * 2 ^ Z.of_nat fuel).
      { rewrite Nat2Z.inj_succ, Z.pow_succ_r in Hn by lia.
        assert (0 < 2 ^ Z.of_nat fuel) by (apply Z.pow_pos_nonneg; lia).
        split; [apply Z.div_pos; lia|].
        apply Z.div_lt_upper_bound; nia. }
      assert (Hr : 0 <= n mod 1000 < 1000) by (apply Z.mod_pos_bound; lia).
      destruct (IH _ Hq) as (g & gs & Hs & Hg & Hgs & D1 & D2 & D3).
      rewrite (zero_pad_three_digits _ Hr).
      pose proof (three_digits_digits _ Hr) as T1.
      pose proof (three_digits_value _ Hr) as T2.
      exists g, (gs ++ [three_digits (n mod 1000)])%list.
      change ("," ++ three_digits (n mod 1000))
        with (String "," (three_digits (n mod 1000))).
      rewrite py_split_app_char, Hs,
        (py_split_char_absent "," _ (digits_no_comma _ T1)).
      split; [reflexivity|]. split; [exact Hg|]. split.
      { apply Forall_app. split; [exact Hgs|]. repeat constructor. }
      change (g :: gs ++ [three_digits (n mod 1000)])%list
        with ((g :: gs) ++ [three_digits (n mod 1000)])%list.
      rewrite concat_empty_snoc by discriminate.
      split; [rewrite string_forall_app, D1; exact T1|].
      split; [apply starts_with_digit_app; exact D2|].
      rewrite (int_digits_app_value _ _ _ _ D1 T1 D3 T2). f_equal.
      change (10 ^ Z.of_nat (String.length (three_digits (n mod 1000))))
        with 1000.
      pose proof (Z.div_mod n 1000). lia.
Qed.

(** X6. For a count [n >= 0], [_format_number] writes groups of digits
    between commas: a first group of one to three digits and then groups of
    exactly three; read without the commas, the digits are the number [n]. *)
Theorem format_number_groups (n : Z) :
  0 <= n ->
  exists g gs,
    py_split (_format_number (Some n)) "," = g :: gs
    /\ (1 <= String.length g <= 3)%nat
    /\ Forall (fun x => String.length x = 3%nat) gs
    /\ string_forall is_digit (String.concat EmptyString (g :: gs)) = true
    /\ py_int (String.concat EmptyString (g :: gs)) = Ok n.
Proof.
  intros Hn. unfold _format_number.
  destruct (Z.eqb_spec n 0) as [->|Hnz].
  { exists "0", []. repeat split; try (cbn; lia). constructor. }
  unfold format_commas. destruct (Z.ltb_spec n 0) as [|_]; [lia|].
  rewrite Z.abs_eq by exact Hn. cbn [append].
  destruct (group_thousands_spec (Z.to_nat (Z.log2 n)) n)
    as (g & gs & Hs & Hg & Hgs & D1 & D2 & D3).
  { rewrite Z2Nat.id by apply Z.log2_nonneg.
    pose proof (Z.log2_spec n ltac:(lia)) as L.
    rewrite Z.pow_succ_r in L by apply Z.log2_nonneg. lia. }
  exists g, gs. repeat split; try assumption; try lia.
  now apply py_int_digits.
Qed.

Lemma format_number_groups_witness :
  exists g gs,
    py_split "1,234,567" "," = g :: gs
    /\ (1 <= String.length g <= 3)%nat
    /\ Forall (fun x => String.length x = 3%nat) gs
    /\ string_forall is_digit (String.concat EmptyString (g :: gs)) = true
    /\ py_int (String.concat EmptyString (g :: gs)) = Ok 1234567.
Proof. apply (format_number_groups 1234567). lia. Defined.

(** ** The prompt [get_user_input] *)
Lemma get_user_input_skips {A : Type} (validator : option (string -> result A))
    (text : string) (rest : list event) (fuel : nat) :
  accepted validator text = false ->
  get_user_input (S fuel) validator (Line text :: rest)
  = get_user_input fuel validator rest.
Proof.
  unfold accepted. cbn [get_user_input].
  destruct (String.eqb (py_strip text) EmptyString); [reflexivity|].
  destruct validator as [check|]; [|discriminate].
  destruct (check (py_strip text)); [discriminate|reflexivity].
Qed.

Lemma get_user_input_takes {A : Type} (validator : option (string -> result A))
    (text : string) (rest : list event) (fuel : nat) :
  accepted validator text = true ->
  get_user_input (S fuel) validator (Line text :: rest)
  = Some (Returned (py_strip text) rest).
Proof.
  unfold accepted. cbn [get_user_input].
  destruct (String.eqb (py_strip text) EmptyString); [discriminate|].
  destruct validator as [check|]; [|reflexivity].
  destruct (check (py_strip text)); [reflexivity|discriminate].
Qed.

(** X7. [get_user_input] returns the first line that it accepts, stripped,
    and leaves the input after that line: with [k] lines before it that are
    empty or that the validator refuses, [k + 1] turns of the loop are
    needed and enough. *)
Theorem get_user_input_first {A : Type}
    (validator : option (string -> result A)) (skipped : list string)
    (text : string) (rest : list event) (fuel : nat) :
  forallb (fun t => negb (accepted validator t)) skipped = true ->
  accepted validator text = true ->
  get_user_input fuel validator (map Line skipped ++ Line text :: rest)
  = if (List.length skipped <? fuel)%nat
    then Some (Returned (py_strip text) rest) else None.
Proof.
  intros Hskip Htext. revert fuel.
  induction skipped as [|t skipped IH]; intros fuel.
  - destruct fuel as [|fuel]; [reflexivity|].
    cbn [map List.app List.length]. now apply get_user_input_takes.
  - cbn [forallb] in Hskip. apply andb_true_iff in Hskip.
    destruct Hskip as [Ht Hskip]. apply negb_true_iff in Ht.
    destruct fuel as [|fuel]; [reflexivity|].
    cbn [map List.app List.length].
    rewrite (get_user_input_skips validator t _ fuel Ht).
    rewrite (IH Hskip fuel). reflexivity.
Qed.

Lemma get_user_input_first_witness :
  get_user_input 3 (Some parse_timestamp)
    [Line "  "; Line "soon"; Line " 1:30 "; Line "2:00"]
  = Some (Returned "1:30" [Line "2:00"]).
Proof.
  exact (get_user_input_first (Some parse_timestamp) ["  "; "soon"] " 1:30 "
           [Line "2:00"] 3 eq_refl eq_refl).
Defined.

(** X8. When the input ends before a line is accepted, [get_user_input]
    never returns: [input()] raises [EOFError], the clause
    [except Exception] catches it like a refusal of the validator, and the
    loop goes round again, whatever the number of turns. *)
Theorem get_user_input_closed_input {A : Type}
    (validator : option (string -> result A)) (skipped : list string) :
  forallb (fun t => negb (accepted validator t)) skipped = true ->
  forall fuel, get_user_input fuel validator (map Line skipped) = None.
Proof.
  intros Hskip.
  assert (Hnil : forall fuel, get_user_input fuel validator [] = None).
  { induction fuel as [|fuel IH]; [reflexivity|exact IH]. }
  induction skipped as [|t skipped IH]; intros fuel; [apply Hnil|].
  cbn [forallb] in Hskip. apply andb_true_iff in Hskip.
  destruct Hskip as [Ht Hskip]. apply negb_true_iff in Ht.
  destruct fuel as [|fuel]; [reflexivity|]. cbn [map].
  rewrite (get_user_input_skips validator t _ fuel Ht). apply (IH Hskip).
Qed.

Lemma get_user_input_closed_input_witness :
  forallb (fun t => negb (accepted (Some parse_timestamp) t)) ["soon"] = true
  /\ get_user_input 1000 (Some parse_timestamp) [Line "soon"] = None.
Proof.
  split; [reflexivity|].
  exact (get_user_input_closed_input (Some parse_timestamp) ["soon"] eq_refl
           1000%nat).
Defined.

(** What [get_user_input] returns is not empty, and the validator did not
    raise on it. *)
Lemma get_user_input_sound {A : Type} (fuel : nat) :
  forall (validator : option (string -> result A)) (inputs rest : list event)
         (value : string),
    get_user_input fuel validator inputs = Some (Returned value rest) ->
    value <> EmptyString
    /\ forall check, validator = Some check -> exists r, check value = Ok r.
Proof.
  induction fuel as [|fuel IH]; intros validator inputs rest value;
    [discriminate|].
  cbn [get_user_input]. destruct inputs as [|[text|] inputs].
  - apply IH.
  - destruct (String.eqb_spec (py_strip text) EmptyString) as [E|E];
      [apply IH|].
    destruct validator as [check|].
    + destruct (check (py_strip text)) as [r|x] eqn:C; [|apply IH].
      intros H. inversion H; subst. split; [exact E|].
      intros check' Hc. inversion Hc; subst. now exists r.
    + intros H. inversion H; subst. split; [exact E|]. discriminate.
  - discriminate.
Qed.

(** X9. The prompt for the URL takes every line that is not blank, also one
    that [validate_url] refuses: [validate_url] answers [False] instead of
    raising, and [get_user_input] does not look at the answer. *)
Theorem url_prompt_takes_any_line (text : string) (rest : list event)
    (fuel : nat) :
  py_strip text <> EmptyString ->
  get_user_input (S fuel) (Some url_validator) (Line text :: rest)
  = Some (Returned (py_strip text) rest).
Proof.
  intros H. apply get_user_input_takes. unfold accepted, url_validator.
  destruct (String.eqb_spec (py_strip text) EmptyString); [contradiction|].
  reflexivity.
Qed.

Lemma url_prompt_takes_any_line_witness :
  validate_url "not a url" = false
  /\ get_user_input 1 (Some url_validator) [Line "not a url"]
     = Some (Returned "not a url" []).
Proof.
  split; [reflexivity|].
  apply (url_prompt_takes_any_line "not a url" [] 0). discriminate.
Defined.

(** X10. The prompt of [main] for the end of the range has
    [validate_timestamps(start_time, x)] as validator: the text it returns
    passes [validate_timestamps] together with [start_time], so the same
    check at the start of [download_and_trim] returns, with [s < e <= d]. *)
Theorem end_prompt_validated (info : video_info) (fuel : nat)
    (inputs rest : list event) (start_time end_time : string) :
  get_user_input fuel (Some (validate_timestamps info start_time)) inputs
  = Some (Returned end_time rest) ->
  exists s e, validate_timestamps info start_time end_time = Ok (s, e)
              /\ s < e /\ e <= get_duration info.
Proof.
  intros H.
  destruct (get_user_input_sound _ _ _ _ _ H) as [_ Hv].
  destruct (Hv _ eq_refl) as [[s e] Hok].
  exists s, e. split; [exact Hok|].
  apply validate_timestamps_ok in Hok. tauto.
Qed.

Lemma end_prompt_validated_witness :
  exists s e,
    validate_timestamps {| duration := Some 600 |} "1:30" "2:00" = Ok (s, e)
    /\ s < e /\ e <= get_duration {| duration := Some 600 |}.
Proof.
  apply (end_prompt_validated {| duration := Some 600 |} 2
           [Line "1:00"; Line "2:00"] [] "1:30" "2:00"); reflexivity.
Defined.

(** ** Subtitle languages *)
Section LanguageFacts.

Variable V : Type.
Variable py_upper : string -> string.

Lemma dict_has_In (d : dict V) (key : string) :
  dict_has d key = true <-> In key (dict_keys d).
Proof.
  unfold dict_has. rewrite existsb_exists. split.
  - intros (x & Hx & E). apply String.eqb_eq in E. now subst.
  - intros H. exists key. split; [exact H|apply String.eqb_refl].
Qed.

Lemma dict_keys_set (d : dict V) (key : string) (v : V) :
  dict_keys (dict_set d key v)
  = if dict_has d key then dict_keys d else (dict_keys d ++ [key])%list.
Proof.
  induction d as [|[k w] d IH]; [reflexivity|].
  unfold dict_has in *. cbn [dict_set dict_keys map fst existsb] in *.
  rewrite (String.eqb_sym key k).
  destruct (String.eqb k key); [reflexivity|]. cbn [map fst orb].
  fold (dict_keys (dict_set d key v)). rewrite IH. unfold dict_keys.
  now destruct (existsb (String.eqb key) (map fst d)).
Qed.

Lemma dict_keys_merge (b : dict V) :
  forall a : dict V, NoDup (dict_keys b) ->
    dict_keys (dict_merge a b)
    = (dict_keys a
       ++ filter (fun key => negb (dict_has a key)) (dict_keys b))%list.
Proof.
  induction b as [|[k v] b IH]; intros a Hb.
  - cbn. now rewrite app_nil_r.
  - cbn [dict_keys map fst] in Hb. apply NoDup_cons_iff in Hb.
    destruct Hb as [Hk Hb]. fold (dict_keys b) in Hk, Hb.
    unfold dict_merge in *. cbn [fold_left fst snd].
    rewrite (IH _ Hb).
    assert (Hf : filter (fun key => negb (dict_has (dict_set a k v) key))
                   (dict_keys b)
                 = filter (fun key => negb (dict_has a key)) (dict_keys b)).
    { apply filter_ext_in. intros x Hx. f_equal.
      unfold dict_has at 1. rewrite dict_keys_set.
      destruct (dict_has a k) eqn:Hak; [reflexivity|].
      rewrite existsb_app. cbn [existsb]. fold (dict_has a x).
      destruct (String.eqb_spec x k) as [->|_]; [contradiction|].
      now rewrite !orb_false_r. }
    rewrite Hf, dict_keys_set.
    cbn [dict_keys map fst filter]. fold (dict_keys b).
    destruct (dict_has a k); cbn [negb]; [reflexivity|].
    now rewrite <- app_assoc.
Qed.

Lemma language_codes (avail : dict V) (info : subtitle_info V) :
  avail <> [] ->
  map language_code (get_subtitle_languages py_upper avail info)
  = (dict_keys (get_dict (subtitles info))
     ++ filter (fun key => negb (dict_has (get_dict (subtitles info)) key))
          (dict_keys (get_dict (automatic_captions info))))%list.
Proof.
  intros Hne. unfold get_subtitle_languages.
  destruct avail as [|item avail]; [congruence|].
  rewrite map_app, !map_map. cbn [language_code fst]. now rewrite !map_id.
Qed.

(** X11. After [fetch_stats] has merged the two dicts of the metadata into
    [self.available_subtitles], [get_subtitle_languages] lists exactly the
    languages of that dict, in its order and each once: the manual ones
    first, and a language that has both kinds as manual only. *)
Theorem subtitle_languages_listed (info : subtitle_info V) :
  NoDup (dict_keys (get_dict (subtitles info))) ->
  NoDup (dict_keys (get_dict (automatic_captions info))) ->
  let languages :=
    get_subtitle_languages py_upper (all_subtitles info) info in
  map language_code languages = dict_keys (all_subtitles info)
  /\ NoDup (map language_code languages)
  /\ forall code name kind, In (code, name, kind) languages ->
       kind = if dict_has (get_dict (subtitles info)) code
              then "manual" else "auto".
Proof.
  intros Hm Ha languages. subst languages.
  set (manual := get_dict (subtitles info)) in *.
  set (auto := get_dict (automatic_captions info)) in *.
  assert (Hkeys : dict_keys (all_subtitles info)
                  = (dict_keys manual
                     ++ filter (fun key => negb (dict_has manual key))
                          (dict_keys auto))%list)
    by (apply dict_keys_merge; exact Ha).
  assert (Hcodes : map language_code
                     (get_subtitle_languages py_upper (all_subtitles info) info)
                   = dict_keys (all_subtitles info)).
  { destruct (all_subtitles info) as [|item d] eqn:E.
    - reflexivity.
    - rewrite language_codes by discriminate. fold manual auto.
      now rewrite <- Hkeys. }
  split; [exact Hcodes|]. split.
  - rewrite Hcodes, Hkeys. apply NoDup_app; [exact Hm| |].
    + now apply NoDup_filter.
    + intros x Hx Hf. apply filter_In in Hf. destruct Hf as [_ Hf].
      apply negb_true_iff in Hf. apply dict_has_In in Hx. congruence.
  - intros code name kind Hin. unfold get_subtitle_languages in Hin.
    destruct (all_subtitles info) as [|item d]; [contradiction|].
    fold manual auto in Hin. apply in_app_or in Hin.
    destruct Hin as [Hin|Hin]; apply in_map_iff in Hin;
      destruct Hin as (lang & E & Hl); inversion E; subst.
    + apply dict_has_In in Hl. now rewrite Hl.
    + apply filter_In in Hl. destruct Hl as [_ Hl].
      apply negb_true_iff in Hl. now rewrite Hl.
Qed.

(** ** Choosing a language *)
Lemma select_loop_safe (languages : list (string * string * string))
    (inputs : list event) :
  match select_loop languages inputs with
  | Returned (Some code) rest => In code (map language_code languages)
  | Returned None rest => True
  | EOFError_raised => True
  | _ => False
  end.
Proof.
  induction inputs as [|[text|] inputs IH]; cbn [select_loop]; try exact I.
  destruct (String.eqb (py_strip text) EmptyString); [exact I|].
  destruct (py_int (py_strip text)) as [n|x] eqn:E.
  - destruct (Z.leb_spec 0 (n - 1)) as [H0|H0]; cbn [andb]; [|exact IH].
    destruct (Z.ltb_spec (n - 1) (Z.of_nat (List.length languages)))
      as [H1|H1]; [|exact IH].
    destruct (nth_error languages (Z.to_nat (n - 1))) as [sel|] eqn:N.
    + exact (in_map language_code _ _ (nth_error_In _ _ N)).
    + apply nth_error_None in N. lia.
  - rewrite (py_int_raises_ValueError _ _ E). exact IH.
Qed.

(** X12. [select_subtitle_language] lets no [IndexError] or [ValueError] out,
    whatever is typed: it returns [None] or the code of a language of the
    metadata, or the closed input ends it with [EOFError]. *)
Theorem select_subtitle_language_safe (avail : dict V)
    (info : subtitle_info V) (inputs : list event) :
  match select_subtitle_language py_upper avail info inputs with
  | Returned (Some code) rest =>
      In code (dict_keys (get_dict (subtitles info)))
      \/ In code (dict_keys (get_dict (automatic_captions info)))
  | Returned None rest => True
  | EOFError_raised => True
  | _ => False
  end.
Proof.
  unfold select_subtitle_language.
  destruct (get_subtitle_languages py_upper avail info) as [|entry l] eqn:E;
    [exact I|].
  pose proof (select_loop_safe (entry :: l) inputs) as S.
  destruct (select_loop (entry :: l) inputs) as [[code|] rest| | | |];
    try exact S.
  rewrite <- E in S.
  assert (Hne : avail <> []).
  { intros ->. discriminate E. }
  rewrite (language_codes avail info Hne) in S. apply in_app_or in S.
  destruct S as [S|S]; [now left|right].
  apply filter_In in S. tauto.
Qed.

End LanguageFacts.

Lemma subtitle_languages_listed_witness :
  map language_code
    (get_subtitle_languages (fun code => code)
       (all_subtitles sample_subtitles) sample_subtitles)
  = ["en"; "fr"; "de"].
Proof.
  assert (H1 : NoDup (dict_keys (get_dict (subtitles sample_subtitles)))).
  { repeat constructor; cbn; intuition discriminate. }
  assert (H2 : NoDup (dict_keys
                        (get_dict (automatic_captions sample_subtitles)))).
  { repeat constructor; cbn; intuition discriminate. }
  exact (proj1 (subtitle_languages_listed unit (fun code => code)
                  sample_subtitles H1 H2)).
Defined.

(** ** The shape of a URL *)
Lemma strip_prefix_spec (p s rest : string) :
  strip_prefix p s = Some rest <-> s = p ++ rest.
Proof.
  revert s. induction p as [|a p IH]; intros s.
  - cbn. split; [intros H; now inversion H|intros ->; reflexivity].
  - destruct s as [|b s]; cbn [strip_prefix append].
    + split; discriminate.
    + destruct (Ascii.eqb_spec a b) as [->|Hne].
      * rewrite IH. split; [intros ->; reflexivity|intros H; now inversion H].
      * split; [discriminate|intros H; inversion H; congruence].
Qed.

Lemma string_app_inv (p a b : string) : p ++ a = p ++ b -> a = b.
Proof.
  induction p as [|c p IH]; [trivial|]. cbn. intros H. inversion H. auto.
Qed.

Lemma plus_match_spec (class : ascii -> bool) (k : string -> bool)
    (s : string) :
  plus_match class s k = true
  <-> exists c m rest, s = String c m ++ rest /\ class c = true
                       /\ string_forall class m = true /\ k rest = true.
Proof.
  induction s as [|c s IH].
  - cbn. split; [discriminate|]. intros (c & m & rest & H & _). discriminate.
  - cbn [plus_match]. rewrite andb_true_iff, orb_true_iff, IH. split.
    + intros [Hc [(c' & m & rest & -> & Hc' & Hm & Hk)|Hk]].
      * exists c, (String c' m), rest. cbn [string_forall append].
        rewrite Hc', Hm. repeat split; assumption.
      * exists c, EmptyString, s. repeat split; assumption.
    + intros (c' & m & rest & E & Hc & Hm & Hk). cbn [append] in E.
      inversion E; subst. split; [exact Hc|].
      destruct m as [|c2 m]; [right; exact Hk|left].
      cbn [string_forall] in Hm. apply andb_true_iff in Hm.
      exists c2, m, rest. repeat split; tauto.
Qed.

(** The search finds a match exactly when a text at the start of [s] is
    matched in full and [k] accepts what follows. *)
Lemma regex_match_spec (r : regex) :
  forall (s : string) (k : string -> bool),
    regex_match r s k = true
    <-> exists m rest, s = m ++ rest /\ matches r m /\ k rest = true.
Proof.
  induction r as [text|r IH|r1 IH1 r2 IH2|class]; intros s k;
    cbn [regex_match].
  - destruct (strip_prefix text s) as [rest|] eqn:E.
    + apply strip_prefix_spec in E. subst s. split.
      * intros Hk. exists text, rest.
        repeat split; [apply matches_lit|exact Hk].
      * intros (m & rest' & E & Hm & Hk). inversion Hm; subst.
        apply string_app_inv in E. now subst.
    + split; [discriminate|]. intros (m & rest & -> & Hm & _).
      inversion Hm; subst.
      assert (H : strip_prefix m (m ++ rest) = Some rest)
        by now apply strip_prefix_spec.
      congruence.
  - rewrite orb_true_iff, IH. split.
    + intros [(m & rest & -> & Hm & Hk)|Hk].
      * exists m, rest. repeat split; [now apply matches_opt|exact Hk].
      * exists EmptyString, s. repeat split; [apply matches_skip|exact Hk].
    + intros (m & rest & -> & Hm & Hk). inversion Hm; subst.
      * left. now exists m, rest.
      * right. exact Hk.
  - rewrite IH1. split.
    + intros (m1 & rest1 & -> & Hm1 & H2). apply IH2 in H2.
      destruct H2 as (m2 & rest & -> & Hm2 & Hk).
      exists (m1 ++ m2), rest. rewrite string_app_assoc.
      repeat split; [now apply matches_seq|exact Hk].
    + intros (m & rest & -> & Hm & Hk). inversion Hm; subst.
      exists m1, (m2 ++ rest). rewrite string_app_assoc.
      repeat split; [assumption|]. apply IH2. now exists m2, rest.
  - rewrite plus_match_spec. split.
    + intros (c & m & rest & -> & Hc & Hm & Hk).
      exists (String c m), rest.
      repeat split; [now apply matches_plus|exact Hk].
    + intros (m & rest & -> & Hm & Hk). inversion Hm; subst.
      now exists c, m0, rest.
Qed.

Ltac invert_matches :=
  repeat match goal with
         | H : matches (Lit _) _ |- _ => inversion H; clear H; subst
         | H : matches (Opt _) _ |- _ => inversion H; clear H; subst
         | H : matches (Seq _ _) _ |- _ => inversion H; clear H; subst
         | H : matches (Plus _) _ |- _ => inversion H; clear H; subst
         | H : matches scheme_pattern _ |- _ => unfold scheme_pattern in H
         end.

Ltac find_url_shape c m rest :=
  first
    [
      exists EmptyString, "youtube.com/watch?v=", c, (m ++ rest);
        split; [cbn; tauto|split; [cbn; tauto|split; [assumption|reflexivity]]]
    |
      exists EmptyString, "www.youtube.com/watch?v=", c, (m ++ rest);
        split; [cbn; tauto|split; [cbn; tauto|split; [assumption|reflexivity]]]
    |
      exists EmptyString, "m.youtube.com/watch?v=", c, (m ++ rest);
        split; [cbn; tauto|split; [cbn; tauto|split; [assumption|reflexivity]]]
    |
      exists EmptyString, "youtu.be/", c, (m ++ rest);
        split; [cbn; tauto|split; [cbn; tauto|split; [assumption|reflexivity]]]
    |
      exists EmptyString, "www.youtu.be/", c, (m ++ rest);
        split; [cbn; tauto|split; [cbn; tauto|split; [assumption|reflexivity]]]
    |
      exists "http://", "youtube.com/watch?v=", c, (m ++ rest);
        split; [cbn; tauto|split; [cbn; tauto|split; [assumption|reflexivity]]]
    |
      exists "http://", "www.youtube.com/watch?v=", c, (m ++ rest);
        split; [cbn; tauto|split; [cbn; tauto|split; [assumption|reflexivity]]]
    |
      exists "http://", "m.youtube.com/watch?v=", c, (m ++ rest);
        split; [cbn; tauto|split; [cbn; tauto|split; [assumption|reflexivity]]]
    |
      exists "http://", "youtu.be/", c, (m ++ rest);
        split; [cbn; tauto|split; [cbn; tauto|split; [assumption|reflexivity]]]
    |
      exists "http://", "www.youtu.be/", c, (m ++ rest);
        split; [cbn; tauto|split; [cbn; tauto|split; [assumption|reflexivity]]]
    |
      exists "https://", "youtube.com/watch?v=", c, (m ++ rest);
        split; [cbn; tauto|split; [cbn; tauto|split; [assumption|reflexivity]]]
    |
      exists "https://", "www.youtube.com/watch?v=", c, (m ++ rest);
        split; [cbn; tauto|split; [cbn; tauto|split; [assumption|reflexivity]]]
    |
      exists "https://", "m.youtube.com/watch?v=", c, (m ++ rest);
        split; [cbn; tauto|split; [cbn; tauto|split; [assumption|reflexivity]]]
    |
      exists "https://", "youtu.be/", c, (m ++ rest);
        split; [cbn; tauto|split; [cbn; tauto|split; [assumption|reflexivity]]]
    |
      exists "https://", "www.youtu.be/", c, (m ++ rest);
        split; [cbn; tauto|split; [cbn; tauto|split; [assumption|reflexivity]]]
    ].

(** X13. [validate_url] accepts a text exactly when, stripped, it starts with
    an optional scheme [http://] or [https://], one of the five hosts with
    the start of the path, and one character of a video identifier (a word
    character or [-]); what follows is not examined. *)
Theorem validate_url_shape (url : string) :
  validate_url url = true
  <-> exists scheme host c rest,
        In scheme url_schemes /\ In host url_hosts
        /\ is_word_or_dash c = true
        /\ py_strip url = scheme ++ host ++ String c rest.
Proof.
  split.
  - unfold validate_url. cbn [existsb youtube_patterns]. unfold re_match.
    rewrite orb_false_r, !orb_true_iff, !regex_match_spec.
    intros [(m & rest & E & Hm & _)|[(m & rest & E & Hm & _)
                                    |(m & rest & E & Hm & _)]];
      rewrite E; clear E; invert_matches;
      match goal with
      | Hc : is_word_or_dash ?c = true,
        Hm : string_forall is_word_or_dash ?m = true |- _ =>
          find_url_shape c m rest
      end.
  - intros (scheme & host & c & rest & Hs & Hh & Hc & E).
    unfold validate_url. rewrite E. clear E.
    cbn [url_schemes url_hosts In] in Hs, Hh.
    destruct Hs as [<-|[<-|[<-|[]]]];
      destruct Hh as [<-|[<-|[<-|[<-|[<-|[]]]]]];
      cbn [existsb youtube_patterns scheme_pattern re_match regex_match
           strip_prefix append Ascii.eqb Bool.eqb plus_match];
      rewrite Hc; cbn [andb orb]; rewrite ?orb_true_r; reflexivity.
Qed.


Lemma validate_url_shape_witness :
  validate_url "  https://www.youtube.com/watch?v=abc&list=1  " = true.
Proof.
  apply (proj2 (validate_url_shape
                  "  https://www.youtube.com/watch?v=abc&list=1  ")).
  exists "https://", "www.youtube.com/watch?v=", "a"%char, "bc&list=1".
  repeat split; cbn; tauto.
Defined.

(** ** What may follow a URL *)
Lemma lstrip_app (space : ascii -> bool) (u t : string) :
  lstrip space u <> EmptyString ->
  lstrip space (u ++ t) = lstrip space u ++ t.
Proof.
  induction u as [|c u IH]; [intros H; now contradiction H|].
  cbn [lstrip append]. destruct (space c); [exact IH|reflexivity].
Qed.

Lemma rstrip_app (space : ascii -> bool) (a t : string) :
  exists x, rstrip space (a ++ t) = rstrip space a ++ x.
Proof.
  induction a as [|c a IH].
  - exists (rstrip space t). reflexivity.
  - destruct IH as [x IH]. cbn [append rstrip]. rewrite IH.
    destruct (rstrip space a) as [|d r].
    + cbn [append]. destruct x as [|e x].
      * exists EmptyString. now rewrite string_app_nil_r.
      * destruct (space c); [now exists (String c (String e x))|].
        now exists (String e x).
    + exists x. reflexivity.
Qed.

Lemma py_strip_app (u t : string) :
  py_strip u <> EmptyString -> exists x, py_strip (u ++ t) = py_strip u ++ x.
Proof.
  intros H. unfold py_strip in *.
  rewrite lstrip_app; [apply rstrip_app|].
  intros E. rewrite E in H. now apply H.
Qed.

Lemma re_match_app (pattern : regex) (s x : string) :
  re_match pattern s = true -> re_match pattern (s ++ x) = true.
Proof.
  unfold re_match. rewrite !regex_match_spec.
  intros (m & rest & -> & Hm & _). exists m, (rest ++ x).
  rewrite string_app_assoc. repeat split. exact Hm.
Qed.

(** X14. [validate_url] looks at the start of the text only: a URL that it
    accepts is still accepted with any text put after it. *)
Theorem validate_url_extension (url tail : string) :
  validate_url url = true -> validate_url (url ++ tail) = true.
Proof.
  intros H.
  assert (Hne : py_strip url <> EmptyString).
  { intros E. unfold validate_url in H. rewrite E in H. discriminate H. }
  destruct (py_strip_app url tail Hne) as [x E].
  unfold validate_url in *. rewrite E.
  apply existsb_exists in H. destruct H as (pattern & Hin & Hp).
  apply existsb_exists. exists pattern. split; [exact Hin|].
  now apply re_match_app.
Qed.

Lemma validate_url_extension_witness :
  validate_url ("youtu.be/x" ++ "; and any text after it") = true.
Proof. apply validate_url_extension. reflexivity. Defined.

(** ** The question with the answers yes and no *)
Lemma ask_yes_no_step (text : string) (rest : list event) :
  ask_yes_no (Line text :: rest)
  = match yes_no_answer text with
    | Some b => Returned b rest
    | None => ask_yes_no rest
    end.
Proof.
  cbn [ask_yes_no]. unfold yes_no_answer. cbn [existsb].
  rewrite !orb_false_r.
  destruct (_ || _); [reflexivity|]. now destruct (_ || _).
Qed.

(** X15. [ask_yes_no] returns the first answer it understands and skips the
    lines before it; when the input is closed before such an answer it
    raises [EOFError], where [get_user_input] would go on asking. *)
Theorem ask_yes_no_first (skipped : list string) :
  forallb (fun t => match yes_no_answer t with None => true | _ => false end)
    skipped = true ->
  (forall text b rest, yes_no_answer text = Some b ->
     ask_yes_no (map Line skipped ++ Line text :: rest) = Returned b rest)
  /\ ask_yes_no (map Line skipped) = EOFError_raised.
Proof.
  induction skipped as [|t skipped IH]; intros Hs.
  - split; [|reflexivity]. intros text b rest Hb.
    cbn [map List.app]. now rewrite ask_yes_no_step, Hb.
  - cbn [forallb] in Hs. apply andb_true_iff in Hs. destruct Hs as [Ht Hs].
    destruct (IH Hs) as [IH1 IH2].
    destruct (yes_no_answer t) eqn:E; [discriminate|].
    split.
    + intros text b rest Hb. cbn [map List.app].
      rewrite ask_yes_no_step, E. now apply IH1.
    + cbn [map]. now rewrite ask_yes_no_step, E.
Qed.

Lemma ask_yes_no_first_witness :
  ask_yes_no [Line "maybe"; Line "yes."; Line "  YeS "; Line "n"]
  = Returned true [Line "n"].
Proof.
  exact (proj1 (ask_yes_no_first ["maybe"; "yes."] eq_refl)
           "  YeS " true [Line "n"] eq_refl).
Defined.

(** ** The choice of a quality *)
Lemma quality_choice_known (choice : string) :
  In choice ["1"; "2"; "3"; "4"; "5"]
  <-> exists format_str quality_name,
        dict_get quality_options choice = Some (format_str, quality_name).
Proof.
  split.
  - cbn [In]. intros [<-|[<-|[<-|[<-|[<-|[]]]]]]; cbn; eauto.
  - intros (f & q & H). unfold quality_options in H. cbn [dict_get] in H.
    repeat match type of H with
           | (if String.eqb ?k choice then _ else _) = _ =>
               destruct (String.eqb_spec k choice) as [<-|_];
               [cbn; tauto|]
           end.
    discriminate H.
Qed.

(** X16. [get_quality_choice] returns for the first line that, stripped, is
    one of the texts 1 to 5, with the format of that entry of
    [quality_options]; every other line, such as 03 or 720p, is skipped. *)
Theorem get_quality_choice_first (skipped : list string) (text : string)
    (rest : list event) :
  Forall (fun t => ~ In (py_strip t) ["1"; "2"; "3"; "4"; "5"]) skipped ->
  In (py_strip text) ["1"; "2"; "3"; "4"; "5"] ->
  exists format_str quality_name,
    dict_get quality_options (py_strip text) = Some (format_str, quality_name)
    /\ get_quality_choice (map Line skipped ++ Line text :: rest)
       = Returned format_str rest.
Proof.
  intros Hs Ht. apply quality_choice_known in Ht.
  destruct Ht as (f & q & Hf). exists f, q. split; [exact Hf|].
  induction Hs as [|t skipped Hn Hs IH]; cbn [map List.app get_quality_choice].
  - now rewrite Hf.
  - destruct (dict_get quality_options (py_strip t)) as [[f' q']|] eqn:E;
      [|exact IH].
    exfalso. apply Hn. apply quality_choice_known. eauto.
Qed.

Lemma get_quality_choice_first_witness :
  exists format_str quality_name,
    dict_get quality_options "3" = Some (format_str, quality_name)
    /\ get_quality_choice [Line "03"; Line "720p"; Line " 3 "; Line "5"]
       = Returned format_str [Line "5"].
Proof.
  apply (get_quality_choice_first ["03"; "720p"] " 3 " [Line "5"]).
  - repeat constructor; cbn; intuition discriminate.
  - cbn. tauto.
Defined.

(** ** The name of the output file *)
Lemma string_forall_filter (keep : ascii -> bool) (s : string) :
  string_forall keep (string_filter keep s) = true.
Proof.
  induction s as [|c s IH]; [reflexivity|]. cbn [string_filter].
  destruct (keep c) eqn:E; [|exact IH]. cbn [string_forall]. now rewrite E.
Qed.

Lemma string_forall_rstrip (P space : ascii -> bool) (s : string) :
  string_forall P s = true -> string_forall P (rstrip space s) = true.
Proof.
  induction s as [|c s IH]; [trivial|]. cbn [string_forall rstrip].
  rewrite andb_true_iff. intros [Hc Hs]. specialize (IH Hs).
  destruct (rstrip space s) as [|d r].
  - destruct (space c); [reflexivity|]. cbn. now rewrite Hc.
  - cbn [string_forall] in *. now rewrite Hc.
Qed.

Lemma string_forall_take (P : ascii -> bool) (n : nat) :
  forall s, string_forall P s = true -> string_forall P (string_take n s) = true.
Proof.
  induction n as [|n IH]; intros [|c s]; try reflexivity.
  cbn [string_forall string_take]. rewrite !andb_true_iff.
  intros [Hc Hs]. split; [exact Hc|now apply IH].
Qed.

Lemma string_take_length (n : nat) :
  forall s, (String.length (string_take n s) <= n)%nat.
Proof.
  induction n as [|n IH]; intros [|c s]; cbn; try lia.
  specialize (IH s). lia.
Qed.

(** A text is made of the characters of its stripped form and of white
    space. *)
Lemma string_forall_lstrip (P space : ascii -> bool) (s : string) :
  (forall c, space c = true -> P c = true) ->
  string_forall P (lstrip space s) = true -> string_forall P s = true.
Proof.
  intros HP. induction s as [|c s IH]; [trivial|]. cbn [lstrip].
  destruct (space c) eqn:E; [|trivial].
  intros H. cbn [string_forall]. now rewrite (HP c E), (IH H).
Qed.

Lemma string_forall_unrstrip (P space : ascii -> bool) (s : string) :
  (forall c, space c = true -> P c = true) ->
  string_forall P (rstrip space s) = true -> string_forall P s = true.
Proof.
  intros HP. induction s as [|c s IH]; [trivial|]. cbn [rstrip].
  destruct (rstrip space s) as [|d r] eqn:R.
  - specialize (IH eq_refl). destruct (space c) eqn:E.
    + intros _. cbn [string_forall]. now rewrite (HP c E), IH.
    + cbn [string_forall]. rewrite andb_true_r. intros Hc. now rewrite Hc, IH.
  - cbn [string_forall]. rewrite !andb_true_iff. intros [Hc H].
    split; [exact Hc|]. apply IH. cbn [string_forall]. now apply andb_true_iff.
Qed.

Lemma string_forall_split (P : ascii -> bool) (c : ascii) (s : string) :
  P c = true ->
  Forall (fun p => string_forall P p = true) (py_split s (String c EmptyString)) ->
  string_forall P s = true.
Proof.
  intros Hc. induction s as [|x s IH]; [trivial|].
  rewrite py_split_char. destruct (Ascii.eqb_spec x c) as [->|Hne].
  - intros H. inversion H; subst. cbn [string_forall]. rewrite Hc. now apply IH.
  - destruct (py_split s (String c EmptyString)) as [|p ps] eqn:E.
    + intros H. inversion H as [|? ? Hx _]; subst.
      cbn [string_forall] in Hx. rewrite andb_true_r in Hx.
      cbn [string_forall]. rewrite Hx. apply IH. constructor.
    + intros H. inversion H as [|? ? Hx Hps]; subst.
      cbn [string_forall] in Hx. apply andb_true_iff in Hx.
      cbn [string_forall]. rewrite (proj1 Hx). apply IH.
      constructor; [exact (proj2 Hx)|exact Hps].
Qed.

Lemma int_digits_chars (s : string) :
  forall acc flag n, int_digits acc flag s = Some n ->
    string_forall (fun c => is_digit c || Ascii.eqb c "_") s = true.
Proof.
  induction s as [|c s IH]; intros acc flag n; [reflexivity|].
  cbn [int_digits string_forall].
  destruct (Ascii.eqb c "_") eqn:U.
  - rewrite orb_true_r. destruct flag; [discriminate|]. apply IH.
  - destruct (is_digit c); [|discriminate]. apply IH.
Qed.

Lemma space_numeric_space (c : ascii) :
  is_space_numeric c = true -> is_space c = true.
Proof.
  unfold is_space_numeric, is_space. set (n := code c).
  rewrite !orb_true_iff, !andb_true_iff, !Z.leb_le, !Z.eqb_eq. lia.
Qed.

Lemma string_forall_weaken (P Q : ascii -> bool) (s : string) :
  (forall c, P c = true -> Q c = true) ->
  string_forall P s = true -> string_forall Q s = true.
Proof. intros H. apply string_forall_impl. exact H. Qed.

(** The characters of a text that [int] reads. *)
Lemma py_int_chars (s : string) (n : Z) :
  py_int s = Ok n -> string_forall timestamp_char s = true.
Proof.
  unfold py_int, strip_numeric. intros H.
  assert (Hsp : forall c, is_space_numeric c = true -> timestamp_char c = true).
  { intros c Hc. unfold timestamp_char.
    now rewrite (space_numeric_space c Hc), orb_true_r. }
  apply (string_forall_lstrip _ is_space_numeric _ Hsp).
  apply (string_forall_unrstrip _ is_space_numeric _ Hsp).
  destruct (rstrip is_space_numeric (lstrip is_space_numeric s)) as [|c body];
    [discriminate H|].
  assert (Hd : forall t acc flag m, int_digits acc flag t = Some m ->
                 string_forall timestamp_char t = true).
  { intros t acc flag m Ht. apply int_digits_chars in Ht. revert Ht.
    apply string_forall_weaken. intros x Hx. unfold timestamp_char.
    apply orb_true_iff in Hx. destruct Hx as [->|Hx]; [reflexivity|].
    cbn [existsb]. rewrite Hx. now rewrite !orb_true_r. }
  unfold split_sign in H.
  destruct (Ascii.eqb_spec c "-") as [->|_];
    [|destruct (Ascii.eqb_spec c "+") as [->|_]].
  - destruct (starts_with_digit body); [|discriminate].
    destruct (int_digits 0 false body) eqn:E; [|discriminate].
    cbn [string_forall]. now rewrite (Hd _ _ _ _ E).
  - destruct (starts_with_digit body); [|discriminate].
    destruct (int_digits 0 false body) eqn:E; [|discriminate].
    cbn [string_forall]. now rewrite (Hd _ _ _ _ E).
  - destruct (starts_with_digit (String c body)); [|discriminate].
    destruct (int_digits 0 false (String c body)) eqn:E; [|discriminate].
    exact (Hd _ _ _ _ E).
Qed.

(** The characters of a text that [parse_timestamp] reads. *)
Lemma parse_timestamp_chars (t : string) (v : Z) :
  parse_timestamp t = Ok v -> string_forall timestamp_char t = true.
Proof.
  intros H.
  assert (Hsp : forall c, is_space c = true -> timestamp_char c = true).
  { intros c Hc. unfold timestamp_char. now rewrite Hc, orb_true_r. }
  apply (string_forall_lstrip _ is_space _ Hsp).
  apply (string_forall_unrstrip _ is_space _ Hsp).
  fold (py_strip t). apply (string_forall_split _ ":"); [reflexivity|].
  unfold parse_timestamp in H.
  destruct (py_split (py_strip t) ":") as [|p0 [|p1 [|p2 [|p3 ps]]]];
    try discriminate H.
  - destruct (py_int p0) as [a|x0] eqn:E0;
      [|cbn in H; destruct (is_ValueError_or_TypeError _); discriminate H].
    destruct (py_int p1) as [b|x1] eqn:E1;
      [|cbn in H; destruct (is_ValueError_or_TypeError _); discriminate H].
    repeat constructor; eapply py_int_chars; eassumption.
  - destruct (py_int p0) as [a|x0] eqn:E0;
      [|cbn in H; destruct (is_ValueError_or_TypeError _); discriminate H].
    destruct (py_int p1) as [b|x1] eqn:E1;
      [|cbn in H; destruct (is_ValueError_or_TypeError _); discriminate H].
    destruct (py_int p2) as [c|x2] eqn:E2;
      [|cbn in H; destruct (is_ValueError_or_TypeError _); discriminate H].
    repeat constructor; eapply py_int_chars; eassumption.
Qed.

Lemma string_forall_replace (P Q : ascii -> bool) (a b : ascii) (s : string) :
  Q b = true -> (forall c, P c = true -> Ascii.eqb c a = false -> Q c = true) ->
  string_forall P s = true -> string_forall Q (py_replace a b s) = true.
Proof.
  intros Hb HPQ. induction s as [|c s IH]; [trivial|].
  cbn [string_forall py_replace]. rewrite !andb_true_iff. intros [Hc Hs].
  split; [|now apply IH].
  destruct (Ascii.eqb c a) eqn:E; [exact Hb|now apply HPQ].
Qed.

Lemma timestamp_char_plain (c : ascii) :
  timestamp_char c = true -> Ascii.eqb c ":" = false -> plain_char c = true.
Proof.
  destruct c as [[] [] [] [] [] [] [] []]; vm_compute; intros H1 H2;
    congruence.
Qed.

Lemma safe_char_plain (c : ascii) :
  is_alnum c || existsb (Ascii.eqb c) [" "; "-"; "_"]%char = true ->
  plain_char c = true.
Proof.
  destruct c as [[] [] [] [] [] [] [] []]; vm_compute; intros H; congruence.
Qed.

(** X17. The name that [download_and_trim] makes up for the output file, for
    two timestamps that [parse_timestamp] reads, holds none of the
    characters [/], [\] and [:], whatever the title of the video is, and
    the part taken from the title has at most 50 characters. *)
Theorem default_output_path_plain (title start_time end_time : string)
    (s e : Z) :
  parse_timestamp start_time = Ok s -> parse_timestamp end_time = Ok e ->
  string_forall plain_char (default_output_path title start_time end_time)
  = true
  /\ (String.length (safe_title title) <= 50)%nat.
Proof.
  intros Hs He. split; [|apply string_take_length].
  unfold default_output_path. rewrite !string_forall_app.
  assert (Ht : forall t v, parse_timestamp t = Ok v ->
                 string_forall plain_char (py_replace ":" "-" t) = true).
  { intros t v Hv. apply parse_timestamp_chars in Hv. revert Hv.
    apply string_forall_replace; [reflexivity|apply timestamp_char_plain]. }
  rewrite (Ht _ _ Hs), (Ht _ _ He).
  assert (Hsafe : string_forall plain_char (safe_title title) = true).
  { unfold safe_title. apply string_forall_take, string_forall_rstrip.
    eapply string_forall_weaken; [apply safe_char_plain|].
    apply string_forall_filter. }
  rewrite Hsafe. reflexivity.
Qed.

Lemma default_output_path_plain_witness :
  string_forall plain_char
    (default_output_path "AC/DC: Back In Black" "1:30" "0:02:00") = true
  /\ (String.length (safe_title "AC/DC: Back In Black") <= 50)%nat.
Proof.
  apply (default_output_path_plain "AC/DC: Back In Black" "1:30" "0:02:00"
           90 120); reflexivity.
Defined.

(** ** Temporary files *)
(** X18. Of the names in the directory, [download_and_trim] takes no file both
    as the video and as the subtitles; a file ending in .vtt is taken as
    neither; and every file it takes, like the trimmed subtitles it writes,
    is among those it removes at the end. *)
Theorem temp_files_cover (listing : list string) (f : string) :
  (In f (video_files listing) -> ~ In f (subtitle_files listing))
  /\ (py_endswith f ".vtt" = true ->
      ~ In f (video_files listing) /\ ~ In f (subtitle_files listing))
  /\ (In f (video_files listing) \/ In f (subtitle_files listing) ->
      In f (temp_files listing))
  /\ (In "temp_trimmed_subs.srt" listing ->
      In "temp_trimmed_subs.srt" (temp_files listing)).
Proof.
  unfold video_files, subtitle_files, temp_files. rewrite !filter_In.
  assert (E : py_endswith f ".srt" = true -> py_endswith f ".vtt" = true
              -> False).
  { unfold py_endswith. rewrite !andb_true_iff.
    intros [_ E1] [_ E2]. apply String.eqb_eq in E1, E2.
    cbn [String.length] in E1, E2. rewrite E1 in E2. discriminate E2. }
  split; [|split; [|split]].
  - intros [_ H1] [_ H2]. rewrite !andb_true_iff in H1, H2.
    destruct H1 as [_ H1]. destruct H2 as [_ H2].
    rewrite H2 in H1. discriminate H1.
  - intros H. split; intros [_ H1]; rewrite !andb_true_iff in H1;
      destruct H1 as [_ H1].
    + rewrite H, orb_true_r in H1. discriminate H1.
    + exact (E H1 H).
  - intros [[Hin H]|[Hin H]]; (split; [exact Hin|]);
      apply andb_true_iff in H; destruct H as [H _]; now rewrite H.
  - intros H. split; [exact H|reflexivity].
Qed.

(** ** The duration of the clip *)
(** X19. For two timestamps that passed [validate_timestamps], the duration
    that [main] shows in its summary is never N/A: it is the text of
    [e - s] seconds, a positive number, and [parse_timestamp] reads it back
    as [e - s]. *)
Theorem clip_duration_shown (info : video_info) (start_time end_time : string)
    (s e : Z) :
  validate_timestamps info start_time end_time = Ok (s, e) ->
  clip_duration_formatted start_time end_time = Ok (_format_duration (e - s))
  /\ 0 < e - s
  /\ _format_duration (e - s) <> "N/A"
  /\ parse_timestamp (_format_duration (e - s)) = Ok (e - s).
Proof.
  intros H. apply validate_timestamps_ok in H.
  destruct H as (Hs & He & Hlt & _).
  assert (Hpos : 0 < e - s) by lia.
  destruct (parse_format_duration (e - s) Hpos) as [Hp _].
  split; [|split; [exact Hpos|split; [|exact Hp]]].
  - unfold clip_duration_formatted, clip_duration. now rewrite He, Hs.
  - intros E. rewrite E in Hp. discriminate Hp.
Qed.

Lemma clip_duration_shown_witness :
  clip_duration_formatted "1:30" "1:02:00" = Ok "01:00:30".
Proof.
  exact (proj1 (clip_duration_shown {| duration := Some 7200 |}
                  "1:30" "1:02:00" 90 3720 eq_refl)).
Defined.
